(** * gitcat: a shallow embedding of [gitcat.py]

    The development follows the source file top down: Python's string
    primitives, the outcome of a computation (a value or an exception, with
    the state reached), the host interface ([subprocess], [os], [shutil],
    [re]), the [Git] executor class, the [GitCat] catalogue class and its
    commands.  The properties of the catalogue file format, of the executor
    and of the commands are proved afterwards, for every host.

    Left out: the calls of [debugging], which print only under the
    debugging flag and decide nothing; the signal handlers; the building
    of the command-line parser from the options file, whose result, the
    namespace [options], is an input here.  The byte strings of a
    subprocess are kept as the text they decode to; that they may not
    decode, that [os.chdir] and [os.makedirs] may fail and that
    [re.compile] has more than one way to refuse a pattern are the
    [Faults] of a run. *)

From Stdlib Require Import List Ascii String ZArith Bool Lia Arith.
Import ListNotations.
Open Scope string_scope.
Open Scope list_scope.

Set Implicit Arguments.

Abbreviation length := List.length.

(** ** Python strings

    A Python [str] is a sequence of code points; the embedding keeps the
    code points below 256, one [ascii] each.  String literals are written
    as Rocq strings and coerced. *)

Definition str := list ascii.
Coercion list_ascii_of_string : string >-> list.

Module Py.

Definition LF : ascii := "010"%char.
Definition CR : ascii := "013"%char.
Definition SP : ascii := " "%char.

(** [str.isspace] on one code point below 256: TAB..CR, FS..US, space,
    NEL and NBSP. *)
Definition isspace (c : ascii) : bool :=
  let n := nat_of_ascii c in
  (((9 <=? n) && (n <=? 13)) || ((28 <=? n) && (n <=? 32))
   || (n =? 133) || (n =? 160))%nat.

(** [a == b] on strings. *)
Fixpoint eqb (a b : str) : bool :=
  match a, b with
  | [], [] => true
  | x :: a', y :: b' => Ascii.eqb x y && eqb a' b'
  | _, _ => false
  end.

(** [s.startswith(p)] *)
Fixpoint startswith (p s : str) : bool :=
  match p, s with
  | [], _ => true
  | x :: p', y :: s' => Ascii.eqb x y && startswith p' s'
  | _ :: _, [] => false
  end.

(** [s.endswith(p)] *)
Definition endswith (p s : str) : bool := startswith (rev p) (rev s).

(** [sub in s] *)
Fixpoint contains (sub s : str) : bool :=
  if startswith sub s then true
  else match s with
       | [] => false
       | _ :: s' => contains sub s'
       end.

(** [s.partition(sep)] when [sep] occurs: the text before the first
    occurrence and the text after it. *)
Fixpoint partition (sep s : str) : option (str * str) :=
  if startswith sep s then Some ([], skipn (length sep) s)
  else match s with
       | [] => None
       | c :: s' =>
           match partition sep s' with
           | Some (a, b) => Some (c :: a, b)
           | None => None
           end
       end.

(** [s.split(sep)] for a non-empty [sep]: cut at each occurrence, left to
    right, occurrences not overlapping.  The fuel bounds the number of
    cuts; [length s] is always enough. *)
Fixpoint split_fuel (n : nat) (sep s : str) : list str :=
  match n with
  | O => [s]
  | S n' =>
      match partition sep s with
      | None => [s]
      | Some (a, b) => a :: split_fuel n' sep b
      end
  end.

Definition split (sep s : str) : list str := split_fuel (length s) sep s.

(** [s.replace(old, new)] for a non-empty [old]. *)
Fixpoint replace_fuel (n : nat) (old new s : str) : str :=
  match n with
  | O => s
  | S n' =>
      match partition old s with
      | None => s
      | Some (a, b) => a ++ new ++ replace_fuel n' old new b
      end
  end.

Definition replace (old new s : str) : str :=
  replace_fuel (length s) old new s.

(** [s.lstrip()], [s.rstrip()], [s.strip()] *)
Fixpoint lstrip (s : str) : str :=
  match s with
  | [] => []
  | c :: s' => if isspace c then lstrip s' else s
  end.

Definition rstrip (s : str) : str := rev (lstrip (rev s)).

Definition strip (s : str) : str := rstrip (lstrip s).

(** [sep.join(l)] *)
Fixpoint join (sep : str) (l : list str) : str :=
  match l with
  | [] => []
  | [x] => x
  | x :: l' => x ++ sep ++ join sep l'
  end.

(** ['{:<{w}}'.format(s)]: pad with spaces on the right up to width [w]. *)
Definition ljust (w : nat) (s : str) : str := s ++ repeat SP (w - length s).

(** The lines a text-mode file object yields (universal newlines: a line
    ends at LF, CR or CR LF, and the terminator is read as LF). *)
Fixpoint lines_from (cur : str) (s : str) : list str :=
  match s with
  | [] => match cur with [] => [] | _ => [rev cur] end
  | c :: s' =>
      if Ascii.eqb c LF then rev (LF :: cur) :: lines_from [] s'
      else if Ascii.eqb c CR then
        match s' with
        | c' :: s'' =>
            if Ascii.eqb c' LF then rev (LF :: cur) :: lines_from [] s''
            else rev (LF :: cur) :: lines_from [] s'
        | [] => [rev (LF :: cur)]
        end
      else lines_from (c :: cur) s'
  end.

Definition readlines (text : str) : list str := lines_from [] text.

(** [s.index(sub)], when [sub] occurs. *)
Definition index (sub s : str) : option nat :=
  match partition sub s with
  | Some (a, _) => Some (length a)
  | None => None
  end.

(** The newline as a one-character string. *)
Definition nl : str := [LF].
Definition cr : str := [CR].

(** The double quote as a one-character string. *)
Definition dq : str := ["034"%char].

End Py.

(** ** Outcomes of a Python computation

    A computation either returns a value or raises; [sys.exit(n)] raises
    [SystemExit n].  The state reached is kept in both cases, so that what
    was printed before an exception can be inspected. *)

Inductive Exn : Type :=
| SystemExit (status : Z)
| ValueError (msg : str)
| NameError (name : str)
| AttributeError (name : str)
| KeyError (key : str)
| TypeError
| ReError (pattern : str)
| UnicodeDecodeError
| OSError (path : str)
| OverflowError
| RecursionError.

Inductive Outcome (A : Type) : Type :=
| Ok (a : A)
| Raise (e : Exn).

Arguments Ok {A} a.
Arguments Raise {A} e.

(** The exit status of the interpreter for an outcome of [main]: 0 on a
    normal return, the argument of [sys.exit], and 1 for an exception that
    nothing caught. *)
Definition exit_status {A} (o : Outcome A) : Z :=
  match o with
  | Ok _ => 0%Z
  | Raise (SystemExit n) => n
  | Raise _ => 1%Z
  end.

Definition M (St A : Type) : Type := St -> Outcome A * St.

Definition ret {St A} (a : A) : M St A := fun s => (Ok a, s).

Definition raise {St A} (e : Exn) : M St A := fun s => (Raise e, s).

Definition bind {St A B} (m : M St A) (k : A -> M St B) : M St B :=
  fun s =>
    match m s with
    | (Ok a, s') => k a s'
    | (Raise e, s') => (Raise e, s')
    end.

Declare Scope py_scope.
Delimit Scope py_scope with py.
Notation "x <- m ;; k" := (bind m (fun x => k))
  (at level 61, m at next level, right associativity) : py_scope.
Notation "m ;; k" := (bind m (fun _ => k))
  (at level 61, right associativity) : py_scope.
Open Scope py_scope.

(** [for x in l: body x] *)
Fixpoint for_each {St A} (l : list A) (body : A -> M St unit) : M St unit :=
  match l with
  | [] => ret tt
  | x :: l' => body x ;; for_each l' body
  end.

(** A loop whose body updates a value (the fields of [self] it assigns). *)
Fixpoint for_fold {St A B} (l : list A) (body : B -> A -> M St B) (b : B)
  : M St B :=
  match l with
  | [] => ret b
  | x :: l' => b' <- body b x ;; for_fold l' body b'
  end.

(** A generator expression evaluated item by item. *)
Fixpoint for_map {St A B} (l : list A) (f : A -> M St B) : M St (list B) :=
  match l with
  | [] => ret []
  | x :: l' => y <- f x ;; ys <- for_map l' f ;; ret (y :: ys)
  end.

(** ** The host: subprocesses, the file system, [os.path] and [re]

    What the program asks of the operating system and of the standard
    library is an interface; every theorem holds for every host. *)

Record CompletedProcess : Type :=
  { returncode : Z; stdout : str; stderr : str }.

(** A match object of [re]: [group()] and [groups()]. *)
Record Match : Type := { group0 : str; groups : list str }.

Class Host (W : Type) : Type :=
  { subprocess_run : str -> W -> CompletedProcess * W;
    os_path_isdir : str -> W -> bool;
    os_path_exists : str -> W -> bool;
    os_chdir : str -> W -> W;
    os_makedirs : str -> W -> W;
    os_getcwd : W -> str;
    shutil_rmtree : str -> W -> W;
    os_path_join : str -> str -> str;
    os_path_dirname : str -> str;
    os_path_basename : str -> str;
    os_path_expanduser : str -> str;
    (** [re.compile(p)] succeeds *)
    re_compiles : str -> bool;
    (** [re.compile(p).search(s)] *)
    re_search : str -> str -> option Match }.

(** The ways in which [re.compile] refuses a pattern: [re.error] for a
    text that is no regular expression, [ValueError] for a repeat count of
    more digits than an integer may be read from, [OverflowError] for a
    repeat count that is too large, [RecursionError] for a pattern nested
    too deep. *)
Inductive CompileError : Type :=
| NotAnExpression
| TooManyDigits (msg : str)
| TooLarge
| TooDeep.

(** ** The faults of a run

    The calls of the host that can raise, beyond what [Host] answers: the
    bytes that a command line writes on one of its streams may not be
    UTF-8, so that [decode] raises; [os.chdir] and [os.makedirs] may
    raise [OSError]; and [re.compile] refuses a pattern in one of several
    ways.  A statement that names no faults is about the runs without
    faults: the instance [no_faults] is then the one in force. *)
Class Faults (W : Type) : Type :=
  { (** the bytes on [stdout] of this command line are not UTF-8 *)
    stdout_invalid : str -> W -> bool;
    (** the bytes on [stderr] of this command line are not UTF-8 *)
    stderr_invalid : str -> W -> bool;
    (** [os.chdir(path)] raises *)
    os_chdir_fails : str -> W -> bool;
    (** [os.makedirs(path, exist_ok=True)] raises *)
    os_makedirs_fails : str -> W -> bool;
    (** how [re.compile(p)] refuses [p], when it does *)
    re_compile_error : str -> CompileError }.

#[global] Instance no_faults (W : Type) : Faults W :=
  {| stdout_invalid := fun _ _ => false;
     stderr_invalid := fun _ _ => false;
     os_chdir_fails := fun _ _ => false;
     os_makedirs_fails := fun _ _ => false;
     re_compile_error := fun _ => NotAnExpression |}.

(** Faults that do not occur: every stream decodes, and [os.chdir] and
    [os.makedirs] succeed, on every argument and in every world. *)
Definition faultless {W : Type} (faults : Faults W) : Prop :=
  (forall line w, stdout_invalid line w = false)
  /\ (forall line w, stderr_invalid line w = false)
  /\ (forall path w, os_chdir_fails path w = false)
  /\ (forall path w, os_makedirs_fails path w = false).

(** What the program did, newest event first. *)
Inductive Event : Type :=
| EvPrint (text : str)
| EvGit (rep command options : str) (cp : CompletedProcess)
| EvIsDir (path : str) (b : bool)
| EvExists (path : str) (b : bool)
| EvChdir (path : str)
| EvMakedirs (path : str)
| EvRmtree (path : str)
| EvOpenW (path : str)
| EvWrite (path : str) (text : str).

(** The state of a run: the world the host acts on, the text files the
    program itself reads and writes (the catalogue file), and the log.
    The files are kept as the program leaves them: what the tool may do
    to them on its side is not followed. *)
Record State (W : Type) : Type :=
  { world : W; files : list (str * str); log : list Event }.

(** ** Python dictionaries with string keys

    A [dict] keeps its keys in insertion order; the catalogue is saved and
    listed in that order. *)

Module Dict.

Definition t : Type := list (str * str).

(** [k in d] *)
Fixpoint mem (k : str) (d : t) : bool :=
  match d with
  | [] => false
  | (k', _) :: d' => Py.eqb k k' || mem k d'
  end.

(** [d[k]], when the key is present *)
Fixpoint get (k : str) (d : t) : option str :=
  match d with
  | [] => None
  | (k', v) :: d' => if Py.eqb k k' then Some v else get k d'
  end.

(** [d[k] = v]: an existing key keeps its place, a new one goes last. *)
Fixpoint set (k v : str) (d : t) : t :=
  match d with
  | [] => [(k, v)]
  | (k', v') :: d' =>
      if Py.eqb k k' then (k', v) :: d' else (k', v') :: set k v d'
  end.

(** [del d[k]] *)
Fixpoint del (k : str) (d : t) : t :=
  match d with
  | [] => []
  | (k', v') :: d' => if Py.eqb k k' then d' else (k', v') :: del k d'
  end.

(** [d.keys()] *)
Definition keys (d : t) : list str := map fst d.

End Dict.

(** ** Values of command-line options and of the few objects compared *)

Inductive OptVal : Type :=
| VNone
| VBool (b : bool)
| VInt (z : Z)
| VStr (s : str)
| VList (l : list str).

(** Truth value of an object in a condition. *)
Definition truthy (v : OptVal) : bool :=
  match v with
  | VNone => false
  | VBool b => b
  | VInt z => negb (Z.eqb z 0)
  | VStr s => negb (Py.eqb s [])
  | VList l => match l with [] => false | _ => true end
  end.

(** The two kinds of object that [read_catalogue] compares with [==]: a
    string, and a method bound to a string ([dire.lower] without a call). *)
Inductive PyObj : Type :=
| PyStr (s : str)
| PyBoundMethod (name : str) (self : str).

Definition py_eq (a b : PyObj) : bool :=
  match a, b with
  | PyStr x, PyStr y => Py.eqb x y
  | PyBoundMethod n x, PyBoundMethod m y => Py.eqb n m && Py.eqb x y
  | _, _ => false
  end.

(** The namespace built by [argparse].  The parser of [main] always
    defines [catalogue], [prefix], [quiet] and [command]; the attributes of
    the chosen sub-command come from the options file and are kept by
    name, in the order of [vars(options)]. *)
Record Options : Type :=
  { opt_catalogue : str;
    opt_prefix : str;
    opt_quiet : bool;
    opt_command : str;
    opt_attrs : list (str * OptVal) }.

Fixpoint lookup_attr (name : str) (l : list (str * OptVal)) : option OptVal :=
  match l with
  | [] => None
  | (n, v) :: l' => if Py.eqb name n then Some v else lookup_attr name l'
  end.

(** The global [settings] object, as far as [save_settings] reads it:
    its [prefix] attribute and [os.environ['HOME']]. *)
Record Settings : Type := { settings_prefix : str; environ_HOME : str }.

(** [Settings.__init__] sets [self.prefix = os.environ['HOME']]. *)
Definition Settings_init (home : str) : Settings :=
  {| settings_prefix := home; environ_HOME := home |}.

(** [Settings.save_settings] *)
Definition save_settings (st : Settings) : str :=
  let save_settings : str := [] in
  if negb (Py.eqb (settings_prefix st) (environ_HOME st))
  then save_settings ++ "prefix = " ++ settings_prefix st ++ Py.nl
  else save_settings.

(** ** The [Git] class *)

Record Git : Type :=
  { git_rep : str;
    git_returncode : Z;
    git_command : str;
    git_error_message : option str;
    git_command_ok : bool;
    git_output : str }.

(** [Git.__bool__] *)
Definition Git_bool (g : Git) : bool := git_command_ok g.

(** The body of [Git.__init__] once the subprocess has returned and its
    byte strings have decoded: [stdout] and [stderr] are their text. *)
Definition Git_of (rep command options : str) (git : CompletedProcess) : Git :=
  let failed := negb (Z.eqb (returncode git) 0) in
  {| git_rep := rep;
     git_returncode := returncode git;
     git_command := command ++ " " ++ options;
     git_error_message :=
       if failed
       then Some (rep ++ ": there was an error using git " ++ command ++ " "
                  ++ options ++ Py.nl ++ "  "
                  ++ Py.replace Py.cr (Py.nl ++ "  ")
                       (Py.replace Py.nl (Py.nl ++ "  ")
                          (Py.strip (stderr git)))
                  ++ Py.nl)
       else None;
     git_command_ok := negb failed;
     git_output :=
       Py.join Py.nl
         (map (fun lin => "  " ++ Py.strip lin)
            (filter (fun lin => negb (Py.eqb lin []))
               (Py.split Py.nl (Py.strip (Py.replace Py.cr Py.nl (stdout git)))
                ++ Py.split Py.nl
                     (Py.strip (Py.replace Py.cr Py.nl (stderr git)))))) |}.

(** ** The [GitCat] class: the fields of [self] *)

Record GitCat : Type :=
  { gitcatrc : str;
    options : Options;
    prefix : str;
    dry_run : bool;
    quiet : bool;
    catalogue : Dict.t;
    max : nat }.

Definition set_catalogue (self : GitCat) (c : Dict.t) : GitCat :=
  {| gitcatrc := gitcatrc self; options := options self;
     prefix := prefix self; dry_run := dry_run self; quiet := quiet self;
     catalogue := c; max := max self |}.

Definition set_prefix (self : GitCat) (p : str) : GitCat :=
  {| gitcatrc := gitcatrc self; options := options self;
     prefix := p; dry_run := dry_run self; quiet := quiet self;
     catalogue := catalogue self; max := max self |}.

Definition set_max (self : GitCat) (m : nat) : GitCat :=
  {| gitcatrc := gitcatrc self; options := options self;
     prefix := prefix self; dry_run := dry_run self; quiet := quiet self;
     catalogue := catalogue self; max := m |}.

(** ** The program, over an arbitrary host *)

Section Program.

Context {W : Type} {host : Host W} {faults : Faults W}.

(** The module-level [settings] object. *)
Variable settings : Settings.

Local Abbreviation Run := (M (State W)).

Definition emit (e : Event) (s : State W) : State W :=
  {| world := world s; files := files s; log := e :: log s |}.

Definition set_world (w : W) (s : State W) : State W :=
  {| world := w; files := files s; log := log s |}.

(** [print(text, end=ending)] *)
Definition print (text : str) (ending : option str) : Run unit :=
  fun s =>
    (Ok tt,
     emit (EvPrint (text ++ match ending with
                            | None => Py.nl
                            | Some e => e
                            end)) s).

(** [error_message]: print the tagged line and [sys.exit(1)]. *)
Definition error_message {A} (err : str) : Run A :=
  print ("git cat error: " ++ err) None ;;
  raise (SystemExit 1).

(** *** Host calls, logged *)

Definition isdir (path : str) : Run bool :=
  fun s => let b := os_path_isdir path (world s) in
           (Ok b, emit (EvIsDir path b) s).

Definition exists_ (path : str) : Run bool :=
  fun s => let b := os_path_exists path (world s) in
           (Ok b, emit (EvExists path b) s).

Definition chdir (path : str) : Run unit :=
  fun s =>
    if os_chdir_fails path (world s) then (Raise (OSError path), s)
    else (Ok tt, emit (EvChdir path) (set_world (os_chdir path (world s)) s)).

Definition makedirs (path : str) : Run unit :=
  fun s =>
    if os_makedirs_fails path (world s) then (Raise (OSError path), s)
    else (Ok tt,
          emit (EvMakedirs path) (set_world (os_makedirs path (world s)) s)).

Definition rmtree (path : str) : Run unit :=
  fun s => (Ok tt,
            emit (EvRmtree path) (set_world (shutil_rmtree path (world s)) s)).

Definition getcwd : Run str := fun s => (Ok (os_getcwd (world s)), s).

(** *** The catalogue file *)

Fixpoint file_lookup (path : str) (fs : list (str * str)) : option str :=
  match fs with
  | [] => None
  | (p, text) :: fs' => if Py.eqb path p then Some text else file_lookup path fs'
  end.

Fixpoint file_store (path text : str) (fs : list (str * str))
  : list (str * str) :=
  match fs with
  | [] => [(path, text)]
  | (p, t) :: fs' =>
      if Py.eqb path p then (p, text) :: fs' else (p, t) :: file_store path text fs'
  end.

(** [open(path, 'w')]: the file is created or truncated. *)
Definition open_w (path : str) : Run unit :=
  fun s => (Ok tt,
            emit (EvOpenW path)
              {| world := world s; files := file_store path [] (files s);
                 log := log s |}).

(** [f.write(text)] on a file opened for writing. *)
Definition file_write (path text : str) : Run unit :=
  fun s =>
    let old := match file_lookup path (files s) with
               | Some t => t
               | None => []
               end in
    (Ok tt,
     emit (EvWrite path text)
       {| world := world s; files := file_store path (old ++ text) (files s);
          log := log s |}).

(** *** [Git(rep, command, options)] *)

(** [decode()] of a stream of the subprocess: [UnicodeDecodeError] when
    its bytes are not UTF-8. *)
Definition decode (invalid : bool) : Run unit :=
  if invalid then raise UnicodeDecodeError else ret tt.

(** [Git.__init__]: the subprocess runs, and then [stderr] is decoded
    when the exit status is not 0, [stdout] is decoded, and [stderr] is
    decoded for [output]. *)
Definition Git_init (rep command options : str) : Run Git :=
  fun s =>
    let line := Py.strip ("git " ++ command ++ " " ++ options) in
    let '(git, w) := subprocess_run line (world s) in
    ((if negb (Z.eqb (returncode git) 0)
      then decode (stderr_invalid line (world s)) else ret tt) ;;
     decode (stdout_invalid line (world s)) ;;
     decode (stderr_invalid line (world s)) ;;
     ret (Git_of rep command options git))
      (emit (EvGit rep command options git) (set_world w s)).

(** *** Attribute access on [self.options] *)

Definition hasattr (o : Options) (name : str) : bool :=
  match lookup_attr name (opt_attrs o) with
  | Some _ => true
  | None => false
  end.

Definition getattr (o : Options) (name : str) : Run OptVal :=
  match lookup_attr name (opt_attrs o) with
  | Some v => ret v
  | None => raise (AttributeError name)
  end.

(** A string-valued attribute handed to a function of strings. *)
Definition getattr_str (o : Options) (name : str) : Run str :=
  v <- getattr o name ;;
  match v with
  | VStr s => ret s
  | _ => raise TypeError
  end.

(** *** Methods of [GitCat], in the order of the source *)

Section Methods.

Variable self : GitCat.

(** [changed_files] *)
Definition changed_files (rep : str) : Run Git :=
  Git_init rep "diff-index" "--name-only HEAD".

(** [commit_repository] *)
Definition commit_repository (rep : str) : Run Git :=
  changed_files <- changed_files rep ;;
  if Git_bool changed_files && negb (Py.eqb (git_output changed_files) [])
  then
    let commit_message : str :=
      "git cat: updating " ++ git_output changed_files in
    let commit : str := "--all --message=" ++ Py.dq ++ commit_message ++ Py.dq in
    let commit := if dry_run self then commit ++ " --porcelain" else commit in
    Git_init rep "commit" commit
  else ret changed_files.

(** [expand_path] *)
Definition expand_path (dire : str) : str :=
  if Py.startswith "/" dire then dire else os_path_join (prefix self) dire.

(** [is_git_repository] *)
Definition is_git_repository (dire : str) : Run bool :=
  d <- isdir dire ;;
  if d then
    chdir dire ;;
    let rep := Py.replace (prefix self ++ "/") [] dire in
    is_git <- Git_init rep "rev-parse" "--is-inside-work-tree" ;;
    ret (Z.eqb (git_returncode is_git) 0
         && Py.contains "true" (git_output is_git))
  else ret false.

(** The exception of [re.compile] for a pattern that it refuses. *)
Definition compile_exception (pattern : str) : Exn :=
  match re_compile_error pattern with
  | NotAnExpression => ReError pattern
  | TooManyDigits msg => ValueError msg
  | TooLarge => OverflowError
  | TooDeep => RecursionError
  end.

(** [repositories] *)
Definition repositories : Run (list str) :=
  if negb (hasattr (options self) "repositories")
  then ret (Dict.keys (catalogue self))
  else
    pattern <- getattr_str (options self) "repositories" ;;
    if re_compiles pattern
    then ret (filter (fun k => match re_search pattern k with
                               | Some _ => true
                               | None => false
                               end)
                (Dict.keys (catalogue self)))
    else raise (compile_exception pattern).

(** [self.catalogue[dire]] *)
Definition catalogue_item (dire : str) : Run str :=
  match Dict.get dire (catalogue self) with
  | Some rep => ret rep
  | None => raise (KeyError dire)
  end.

(** One line of [list_catalogue]. *)
Definition list_line (dire sep rep : str) : str :=
  Py.ljust (max self) dire ++ " " ++ sep ++ " " ++ rep.

(** [list_catalogue] *)
Definition list_catalogue (listing : bool) : Run str :=
  reps <- repositories ;;
  lines <- for_map reps
             (fun dire =>
                rep <- catalogue_item dire ;;
                is_git <- (if listing then ret true
                           else is_git_repository (expand_path dire)) ;;
                ret (list_line dire (if is_git then "=" else "!") rep)) ;;
  ret (Py.join Py.nl lines).

(** [process_options] *)
Definition process_options (default_options : str) : str :=
  fold_left
    (fun (options : str) (attr : str * OptVal) =>
       let '(option, val) := attr in
       if Py.startswith "git_" option then
         let opt := Py.replace "_" "-" (skipn 4 option) in
         match val with
         | VBool true => options ++ " --" ++ opt
         | VList l => options ++ " --" ++ opt ++ "=" ++ Py.join "," l
         | VStr v => options ++ " --" ++ opt ++ "=" ++ v
         | _ => options
         end
       else options)
    (opt_attrs (options self)) default_options.

(** [save_catalogue] *)
Definition save_catalogue : Run unit :=
  open_w (gitcatrc self) ;;
  file_write (gitcatrc self)
    ("# List of git repositories to sync using gitcat" ++ Py.nl ++ Py.nl) ;;
  file_write (gitcatrc self) (save_settings settings) ;;
  listing <- list_catalogue true ;;
  file_write (gitcatrc self) (listing ++ Py.nl).

(** [short_path] *)
Definition short_path (dire : str) : str :=
  if Py.startswith (prefix self) dire
  then skipn (length (prefix self) + 1) dire
  else dire.

(** [message] *)
Definition message (message : str) (ending : option str) : Run unit :=
  if negb (quiet self) then print message ending else ret tt.

(** [quiet_message] *)
Definition quiet_message (message : str) (ending : option str) : Run unit :=
  if quiet self then print message ending else ret tt.

(** [rep_message]; the defaults of the source are [message=''],
    [quiet=True], [ending=None]. *)
Definition rep_message (rep message : str) (quiet_ : bool)
           (ending : option str) : Run unit :=
  if negb (quiet_ && quiet self)
  then print (Py.ljust (max self) rep ++ " " ++ message) ending
  else ret tt.

End Methods.

(** *** Reading the catalogue *)

(** The body of the loop of [read_catalogue] for one line of the file.
    The unpacking [dire, rep = line.split(' = ')] raises [ValueError]
    unless the split has exactly two items. *)
Definition read_catalogue_line (self : GitCat) (line : str) : Run GitCat :=
  if Py.contains " = " line then
    match Py.split " = " line with
    | [dire; rep] =>
        let dire := Py.strip dire in
        if Dict.mem dire (catalogue self) then
          error_message (dire ++ " appears in the catalogue more than once!")
        else if py_eq (PyBoundMethod "lower" dire) (PyStr "prefix") then
          ret (set_prefix self (Py.strip rep))
        else
          ret (set_catalogue self (Dict.set dire (Py.strip rep) (catalogue self)))
    | _ => raise (ValueError "too many values to unpack (expected 2)")
    end
  else ret self.

(** The [try] block of [read_catalogue]: the only exception of the kinds
    it catches is the failure to open the file. *)
Definition read_catalogue_file (self : GitCat) : Run GitCat :=
  fun s =>
    match file_lookup (gitcatrc self) (files s) with
    | Some text => for_fold (Py.readlines text) read_catalogue_line self s
    | None =>
        error_message
          ("there was a problem reading the catalogue file " ++ gitcatrc self) s
    end.

(** [try: ... except ValueError: ...]: the handler takes a [ValueError]
    and its subclass [UnicodeDecodeError]. *)
Definition except_ValueError {A : Type} (body handler : Run A) : Run A :=
  fun s =>
    match body s with
    | (Raise (ValueError _), s') => handler s'
    | (Raise UnicodeDecodeError, s') => handler s'
    | r => r
    end.

(** [read_catalogue].  The second [try] holds the call of
    [repositories] and the [max()] over its keys: [max()] of no item
    raises the [ValueError] that it catches, and so does [re.compile]
    when it refuses the filter with a [ValueError]. *)
Definition read_catalogue (self : GitCat) : Run GitCat :=
  let self := set_catalogue self [] in
  self <- read_catalogue_file self ;;
  except_ValueError
    (reps <- repositories self ;;
     match reps with
     | [] => raise (ValueError "max() arg is an empty sequence")
     | _ => ret (set_max self (list_max (map (@length ascii) reps) + 1))
     end)
    (ret (set_max self 0)).

(** *** The commands *)

Definition ahead_behind : str := "\[((ahead|behind) [0-9]+(, )?)+\]".
Definition files_changed : str := "([0-9]+ file(?:s|))(?: changed)".

(** The directory that [add] and [remove] work on. *)
Definition resolve_directory (self : GitCat) : Run str :=
  git_directory <- getattr (options self) "git_directory" ;;
  dire <- match git_directory with
          | VNone => cwd <- getcwd ;; ret (short_path self cwd)
          | _ => repository <- getattr_str (options self) "repository" ;;
                 ret (short_path self (os_path_expanduser repository))
          end ;;
  ret (expand_path self dire).

(** [add] *)
Definition add (self : GitCat) : Run GitCat :=
  dire <- resolve_directory self ;;
  d <- isdir dire ;;
  ok <- (if d then is_git_repository self dire else ret false) ;;
  (if negb ok then error_message (dire ++ " not a git repository") else ret tt) ;;
  chdir dire ;;
  root <- Git_init dire "root" [] ;;
  (if negb (Git_bool root)
   then error_message (dire ++ " is not a git repository:" ++ Py.nl ++ "  "
                       ++ git_output root)
   else ret tt) ;;
  rep <- Git_init dire "remote" "get-url --push origin" ;;
  (if negb (Git_bool rep)
   then error_message ("Unable to find remote repository for " ++ dire)
   else ret tt) ;;
  let dire := short_path self (Py.strip (git_output root)) in
  let rep := Py.strip (git_output rep) in
  if Dict.mem dire (catalogue self) then
    error_message ("the git repository in " ++ dire
                   ++ " is already in the catalogue")
  else
    let self := set_catalogue self (Dict.set dire rep (catalogue self)) in
    save_catalogue self ;;
    message self ("Adding " ++ dire ++ " to the catalogue") None ;;
    let catdir := os_path_dirname (gitcatrc self) in
    is_git <- is_git_repository self catdir ;;
    (if is_git
     then Git_init dire "commit"
            ("--all --message=" ++ Py.dq ++ "Adding " ++ dire ++ " to gitcatrc"
             ++ Py.dq) ;; ret tt
     else ret tt) ;;
    ret self.

(** [branch] *)
Definition branch (self : GitCat) : Run unit :=
  let options := process_options self "--verbose" in
  reps <- repositories self ;;
  for_each reps (fun rep =>
    let dire := expand_path self rep in
    is_git <- is_git_repository self dire ;;
    if is_git then
      pull <- Git_init rep "branch" options ;;
      if Git_bool pull then
        match Py.index Py.nl (git_output pull) with
        | None => rep_message self rep "already up to date" true None
        | Some i => rep_message self rep (skipn i (git_output pull)) true None
        end
      else ret tt
    else rep_message self rep "not on system" true None).

(** [ls] *)
Definition ls (self : GitCat) : Run unit :=
  listing <- list_catalogue self false ;;
  print listing None.

(** [commit] *)
Definition commit (self : GitCat) : Run unit :=
  reps <- repositories self ;;
  for_each reps (fun rep =>
    let dire := expand_path self rep in
    is_git <- is_git_repository self dire ;;
    if is_git then commit_repository self rep ;; ret tt else ret tt).

(** [diff].  The call of the source is [Git(rep, 'diff' 'options')]: two
    adjacent literals, one argument ['diffoptions'], and the [options]
    variable built above is not passed. *)
Definition diff (self : GitCat) : Run unit :=
  let options := process_options self [] in
  let options := options ++ " HEAD" in
  reps <- repositories self ;;
  for_each reps (fun rep =>
    let dire := expand_path self rep in
    is_git <- is_git_repository self dire ;;
    if is_git then
      diff <- Git_init rep ("diff" ++ "options") [] ;;
      if Git_bool diff then
        if negb (Py.eqb (git_output diff) [])
        then rep_message self rep (git_output diff) false None
        else rep_message self rep "up to date" true None
      else ret tt
    else ret tt).

(** [fetch] *)
Definition fetch (self : GitCat) : Run unit :=
  let options := process_options self "-q --progress" in
  reps <- repositories self ;;
  for_each reps (fun rep =>
    let dire := expand_path self rep in
    is_git <- is_git_repository self dire ;;
    if is_git then
      pull <- Git_init rep "fetch" options ;;
      if Git_bool pull then
        if Py.eqb (git_output pull) []
        then rep_message self rep "already up to date" true None
        else rep_message self rep (git_output pull) true None
      else ret tt
    else rep_message self rep "not on system" true None).

(** [install] *)
Definition install (self : GitCat) : Run unit :=
  reps <- repositories self ;;
  for_each reps (fun rep =>
    let dire := expand_path self rep in
    e <- exists_ dire ;;
    (if e then
       e_git <- exists_ (os_path_join dire ".git") ;;
       if e_git then
         rep_message self ("git repository " ++ dire ++ " already exists") []
           true None
       else
         Git_init rep "init" [] ;;
         origin <- catalogue_item self rep ;;
         Git_init rep ("remote add origin " ++ origin) [] ;;
         Git_init rep "fetch origin" [] ;;
         Git_init rep "checkout -b master --track origin/master" [] ;;
         ret tt
     else
       rep_message self rep "installing" true None ;;
       let parent := os_path_dirname dire in
       makedirs parent ;;
       chdir parent ;;
       if negb (dry_run self) then
         origin <- catalogue_item self rep ;;
         install <- Git_init rep "clone"
                      ("--quiet " ++ origin ++ " " ++ os_path_basename dire) ;;
         if Git_bool install then message self " - done!" None else ret tt
       else ret tt) ;;
    ok <- (if dry_run self then ret true else is_git_repository self dire) ;;
    if negb ok
    then rep_message self rep "not a git repository!?" false None
    else ret tt).

(** [pull] *)
Definition pull (self : GitCat) : Run unit :=
  let options := process_options self "-q --progress" in
  reps <- repositories self ;;
  for_each reps (fun rep =>
    let dire := expand_path self rep in
    is_git <- is_git_repository self dire ;;
    if is_git then
      pull <- Git_init rep "pull" options ;;
      if Git_bool pull then
        if Py.eqb (git_output pull) []
        then rep_message self rep "already up to date" true None
        else
          rep_message self rep
            ("pulling" ++ Py.nl
             ++ Py.join Py.nl
                  (filter (fun lin => negb (Py.contains "Compressing" lin))
                     (Py.split Py.nl (git_output pull))))
            false None
      else ret tt
    else rep_message self rep "repository not installed" true None).

(** The report of [push] after the real push succeeded. *)
Definition report_push (self : GitCat) (rep : str) (commit push : Git)
  : Run unit :=
  if Py.startswith "  To " (git_output push)
     && Py.endswith "Done" (git_output push)
  then
    if Py.eqb (git_output commit) []
       && negb (Py.contains "up to date" (git_output commit))
    then rep_message self rep ("pushed" ++ Py.nl ++ git_output push) true None
    else message self (hd [] (Py.split Py.nl (git_output push))) None
  else
    if Py.eqb (git_output commit) []
       && negb (Py.contains "up to date" (git_output commit))
    then rep_message self rep ("pushed" ++ Py.nl ++ git_output push) true None
    else message self (git_output push) None.

(** [push] *)
Definition push (self : GitCat) : Run unit :=
  let options := process_options self "--porcelain --follow-tags" in
  reps <- repositories self ;;
  for_each reps (fun rep =>
    let dire := expand_path self rep in
    is_git <- is_git_repository self dire ;;
    if is_git then
      commit <- commit_repository self rep ;;
      if Git_bool commit then
        (if negb (Py.eqb (git_output commit) [])
         then rep_message self rep ("commit" ++ Py.nl ++ git_output commit)
                true None
         else ret tt) ;;
        push <- Git_init rep "push" (options ++ " --dry-run") ;;
        if Git_bool push then
          if Py.contains "[up to date]" (git_output push) then
            rep_message self rep "up to date" true None
          else if negb (dry_run self) then
            push <- Git_init rep "push" options ;;
            if Git_bool push then report_push self rep commit push else ret tt
          else ret tt
        else ret tt
      else ret tt
    else rep_message self rep "not on system" true None).

(** Reading the name [rep] in [remove]: the function never assigns it,
    the module defines no global of that name, and it is not a builtin. *)
Definition load_global_rep : Run str := raise (NameError "rep").

(** [remove] *)
Definition remove (self : GitCat) : Run GitCat :=
  dire <- resolve_directory self ;;
  rep <- load_global_rep ;;
  ok <- (if Dict.mem rep (catalogue self)
         then is_git_repository self dire else ret false) ;;
  (if negb ok then error_message ("unknown repository " ++ dire) else ret tt) ;;
  let self := set_catalogue self (Dict.del rep (catalogue self)) in
  message self ("Removing " ++ dire ++ " from the catalogue") None ;;
  save_catalogue self ;;
  everything <- getattr (options self) "git_everything" ;;
  (if truthy everything then
     message self ("Removing directory " ++ dire) None ;;
     rmtree dire ;;
     let catdir := os_path_dirname (gitcatrc self) in
     is_git <- is_git_repository self catdir ;;
     if is_git
     then Git_init dire "commit"
            ("--all --message " ++ Py.dq ++ "Removing " ++ dire
             ++ " from gitcatrc" ++ Py.dq) ;; ret tt
     else ret tt
   else ret tt) ;;
  ret self.

(** [status] *)
Definition status (self : GitCat) : Run unit :=
  let status_options := process_options self "--porcelain --short --branch" in
  let diff_options : str := "--shortstat --no-color" in
  reps <- repositories self ;;
  for_each reps (fun rep =>
    let dire := expand_path self rep in
    is_git <- is_git_repository self dire ;;
    if is_git then
      git_local <- getattr (options self) "git_local" ;;
      remote <- (if truthy git_local then ret true
                 else g <- Git_init rep "remote" "update" ;; ret (Git_bool g)) ;;
      if remote then
        status <- Git_init rep "status" status_options ;;
        if Git_bool status then
          let changes : str :=
            match re_search ahead_behind (git_output status) with
            | None => []
            | Some m => removelast (tl (group0 m))
            end in
          let status_output : str :=
            match Py.index Py.nl (git_output status) with
            | Some i => skipn (i + 1) (git_output status)
            | None => if Py.startswith "  ##" (git_output status) then []
                      else git_output status
            end in
          diff <- Git_init rep "diff" diff_options ;;
          let changed : str :=
            if Git_bool diff then
              match re_search files_changed (git_output diff) with
              | None => []
              | Some m => "uncommitted changes in " ++ nth 0 (groups m) []
              end
            else [] in
          let changed : str :=
            if negb (Py.eqb changes [])
            then changed ++ (if Py.eqb changed [] then changes
                             else ", " ++ changes)
            else changed in
          if negb (Py.eqb status_output []) then
            rep_message self rep (changed ++ Py.nl ++ status_output) false None
          else if negb (Py.eqb changed []) then
            rep_message self rep changed false None
          else rep_message self rep "up to date" true None
        else ret tt
      else ret tt
    else rep_message self rep "not on system" true None).

(** *** [GitCat.__init__] and [main] *)

(** [getattr(self, options.command)()] *)
Definition run_command (self : GitCat) : Run GitCat :=
  let command := opt_command (options self) in
  if Py.eqb command "add" then add self
  else if Py.eqb command "branch" then branch self ;; ret self
  else if Py.eqb command "ls" then ls self ;; ret self
  else if Py.eqb command "commit" then commit self ;; ret self
  else if Py.eqb command "diff" then diff self ;; ret self
  else if Py.eqb command "fetch" then fetch self ;; ret self
  else if Py.eqb command "install" then install self ;; ret self
  else if Py.eqb command "pull" then pull self ;; ret self
  else if Py.eqb command "push" then push self ;; ret self
  else if Py.eqb command "remove" then remove self
  else if Py.eqb command "status" then status self ;; ret self
  else if Py.eqb command "git" then raise TypeError
  else raise (AttributeError command).

Definition GitCat_new (options : Options) : GitCat :=
  let dry_run := false in
  let dry_run := match lookup_attr "dry_run" (opt_attrs options) with
                 | Some v => truthy v
                 | None => dry_run
                 end in
  let dry_run := match lookup_attr "git_dry_run" (opt_attrs options) with
                 | Some v => dry_run || truthy v
                 | None => dry_run
                 end in
  let quiet := opt_quiet options in
  let quiet := match lookup_attr "git_quiet" (opt_attrs options) with
               | Some v => quiet || truthy v
               | None => quiet
               end in
  {| gitcatrc := opt_catalogue options; options := options;
     prefix := opt_prefix options; dry_run := dry_run; quiet := quiet;
     catalogue := []; max := 0 |}.

Definition GitCat_init (options : Options) : Run GitCat :=
  self <- read_catalogue (GitCat_new options) ;;
  run_command self.

(** [main], once the command line is parsed and a command is present. *)
Definition main (options : Options) : Run unit :=
  GitCat_init options ;; ret tt.

End Program.

Arguments error_message {W} {A} err s.
Arguments load_global_rep {W} s.

(** ** A scripted host, for the examples

    Directories are a list of paths, every subprocess answers from a table
    of command lines (exit status 0 and no output when the line is not in
    the table), and [re] is cut down to the patterns without
    metacharacters, which search for themselves.  Of the patterns this
    stand-in rejects, ["("] is one that [re.compile] rejects as well. *)

Module Sample.

Record World : Type :=
  { cwd : str; dirs : list str; replies : list (str * CompletedProcess) }.

Definition done : CompletedProcess :=
  {| returncode := 0; stdout := []; stderr := [] |}.

Fixpoint reply (cmd : str) (t : list (str * CompletedProcess))
  : CompletedProcess :=
  match t with
  | [] => done
  | (c, r) :: t' => if Py.eqb cmd c then r else reply cmd t'
  end.

Definition is_dir (path : str) (w : World) : bool :=
  existsb (Py.eqb path) (dirs w).

Definition join (a b : str) : str :=
  if Py.startswith "/" b then b
  else if Py.eqb a [] || Py.endswith "/" a then a ++ b
  else a ++ "/" ++ b.

Definition dirname (p : str) : str :=
  match Py.partition "/" (rev p) with
  | Some (_, b) => rev b
  | None => []
  end.

Definition basename (p : str) : str :=
  match Py.partition "/" (rev p) with
  | Some (a, _) => rev a
  | None => p
  end.

Definition metachar (c : ascii) : bool :=
  existsb (Ascii.eqb c) (list_ascii_of_string ".^$*+?{}[]\|()").

Definition compiles (p : str) : bool := forallb (fun c => negb (metachar c)) p.

Definition search (p s : str) : option Match :=
  if Py.contains p s then Some {| group0 := p; groups := [] |} else None.

#[global] Instance host : Host World :=
  {| subprocess_run := fun cmd w => (reply cmd (replies w), w);
     os_path_isdir := is_dir;
     os_path_exists := is_dir;
     os_chdir := fun p w =>
       {| cwd := p; dirs := dirs w; replies := replies w |};
     os_makedirs := fun p w =>
       {| cwd := cwd w; dirs := p :: dirs w; replies := replies w |};
     os_getcwd := cwd;
     shutil_rmtree := fun p w =>
       {| cwd := cwd w;
          dirs := filter (fun d => negb (Py.eqb d p)) (dirs w);
          replies := replies w |};
     os_path_join := join;
     os_path_dirname := dirname;
     os_path_basename := basename;
     os_path_expanduser := fun p => p;
     re_compiles := compiles;
     re_search := search |}.

(** The catalogue of the examples, the options of a command without
    arguments, and a start state whose catalogue file holds [text]. *)
Definition home : str := "/home/u".
Definition rc : str := "/home/u/.gitcatrc".

Definition opts (command : str) (attrs : list (str * OptVal)) : Options :=
  {| opt_catalogue := rc; opt_prefix := home; opt_quiet := false;
     opt_command := command; opt_attrs := attrs |}.

Definition start (text : str) (ds : list str)
           (t : list (str * CompletedProcess)) : State World :=
  {| world := {| cwd := home; dirs := ds; replies := t |};
     files := [(rc, text)];
     log := [] |}.

Definition cat1 : Dict.t := [("Code/Prog1" : str, "git@host:org/prog1.git" : str)].

Definition gitcat (command : str) (attrs : list (str * OptVal)) (dry : bool)
           (c : Dict.t) : GitCat :=
  {| gitcatrc := rc; options := opts command attrs; prefix := home;
     dry_run := dry; quiet := false; catalogue := c; max := 11 |}.

End Sample.

(** ** Vocabulary of the properties *)

(** The separator of the catalogue file. *)
Definition sep : str := " = ".

(** How a line of the catalogue file reads, by the first occurrence of the
    separator: no separator at all; the texts on both sides, trimmed, when
    no further separator follows; or the separator more than once. *)
Inductive LineKind : Type :=
| NoEntry
| Entry (directory remote : str)
| Several.

Definition line_kind (line : str) : LineKind :=
  match Py.partition sep line with
  | None => NoEntry
  | Some (d, r) =>
      if Py.contains sep r then Several else Entry (Py.strip d) (Py.strip r)
  end.

Definition well_formed (line : str) : bool :=
  match line_kind line with
  | Several => false
  | _ => true
  end.

(** The entries written on the lines of a file, in order. *)
Definition entries (lines : list str) : Dict.t :=
  flat_map (fun line => match line_kind line with
                        | Entry d r => [(d, r)]
                        | _ => []
                        end) lines.

(** A text without line terminators. *)
Definition newline_free (s : str) : bool :=
  forallb (fun c => negb (Ascii.eqb c Py.LF || Ascii.eqb c Py.CR)) s.

(** A text that [strip] leaves as it is. *)
Definition trimmed (s : str) : bool := Py.eqb (Py.strip s) s.

(** A directory key that the catalogue file can hold: trimmed, on one
    line, without the separator inside and not ending in [" ="]. *)
Definition storable_key (k : str) : bool :=
  trimmed k && newline_free k && negb (Py.contains sep (k ++ " ")).

(** A remote that the catalogue file can hold. *)
Definition storable_remote (r : str) : bool :=
  trimmed r && newline_free r && negb (Py.contains sep r).

Definition storable (c : Dict.t) : bool :=
  forallb (fun e => storable_key (fst e) && storable_remote (snd e)) c.

(** What [save_settings] adds to a reloaded catalogue. *)
Definition settings_entries (st : Settings) : Dict.t :=
  if Py.eqb (settings_prefix st) (environ_HOME st) then []
  else [("prefix" : str, settings_prefix st)].

(** Two spaces after every line break of a text. *)
Definition indent (s : str) : str :=
  flat_map (fun c => if Ascii.eqb c Py.LF || Ascii.eqb c Py.CR
                     then Py.nl ++ "  " else [c]) s.

(** The line that [error_message] prints for a repeated directory key. *)
Definition duplicate_diagnostic (dire : str) : Event :=
  EvPrint (("git cat error: " ++ dire
            ++ " appears in the catalogue more than once!") ++ Py.nl).

(** The line of [list_catalogue(listing=True)] for an entry, and the text
    that [save_catalogue] leaves in the file when no filter is set. *)
Definition entry_line (self : GitCat) (e : str * str) : str :=
  list_line self (fst e) "=" (snd e).

Definition saved_text (settings : Settings) (self : GitCat) : str :=
  (("# List of git repositories to sync using gitcat" ++ Py.nl ++ Py.nl)
   ++ save_settings settings)
  ++ (Py.join Py.nl (map (entry_line self) (catalogue self)) ++ Py.nl).

(** Settings whose prefix line, when one is written, reads back as an
    entry. *)
Definition storable_settings (st : Settings) : bool :=
  Py.eqb (settings_prefix st) (environ_HOME st)
  || storable_remote (settings_prefix st).

(** The lines of the saved file, without their terminators; an empty
    catalogue leaves one empty line. *)
Definition catalogue_lines (self : GitCat) : list str :=
  match catalogue self with
  | [] => [[]]
  | _ :: _ => map (entry_line self) (catalogue self)
  end.

Definition saved_lines (settings : Settings) (self : GitCat) : list str :=
  [("# List of git repositories to sync using gitcat" : str); []]
  ++ (if Py.eqb (settings_prefix settings) (environ_HOME settings) then []
      else ["prefix = " ++ settings_prefix settings])
  ++ catalogue_lines self.

(** Two catalogue files of the examples: one that names a directory
    twice, and one whose first line holds the separator twice. *)
Definition twice_text : str :=
  "Code/Prog1 = git@host:one.git" ++ Py.nl
  ++ "Code/Prog1 = git@host:two.git" ++ Py.nl.

Definition several_text : str :=
  "a = b = c" ++ Py.nl ++ twice_text.

(** A file that names a directory twice and then holds a line with the
    separator twice. *)
Definition twice_then_several_text : str :=
  twice_text ++ "a = b = c" ++ Py.nl.




(** ** Vocabulary of the properties of the commands *)

(** The mutating calls of the tool: a clone, a commit that is not a
    [--porcelain] dry run, a push that is not a [--dry-run]. *)
Definition mutating (e : Event) : bool :=
  match e with
  | EvGit _ command options _ =>
      Py.eqb command "clone"
      || (Py.eqb command "commit" && negb (Py.endswith " --porcelain" options))
      || (Py.eqb command "push" && negb (Py.endswith " --dry-run" options))
  | _ => false
  end.

Section Probes.

Context {W : Type} {host : Host W}.



(** The calls of the tool that [diff] makes: the probe [rev-parse] and the
    sub-command [diffoptions] without options. *)
Definition diff_call (e : Event) : Prop :=
  match e with
  | EvGit _ command options _ =>
      command = ("rev-parse" : str)
      \/ (command = ("diffoptions" : str) /\ options = [])
  | _ => True
  end.


(** A computation that returns, whatever the host answers, and only adds
    to the log. *)
Definition grows (s s' : State W) : Prop := exists new, log s' = new ++ log s.

Definition total {A : Type} (m : M (State W) A) : Prop :=
  forall s, exists a s', m s = (Ok a, s') /\ grows s s'.


End Probes.

(** What a run printed, and the calls of the tool it made, oldest first. *)
Definition printed {W : Type} (s : State W) : list str :=
  flat_map (fun e => match e with EvPrint text => [text] | _ => [] end)
    (rev (log s)).

Definition calls {W : Type} (s : State W) : list (str * str * str) :=
  flat_map (fun e => match e with
                     | EvGit rep command options _ => [(rep, command, options)]
                     | _ => []
                     end)
    (rev (log s)).

(** The commands that run over the selected repositories. *)
Definition multi_commands : list str :=
  [("branch" : str); ("ls" : str); ("commit" : str); ("diff" : str);
   ("fetch" : str); ("install" : str); ("pull" : str); ("push" : str);
   ("status" : str)].

(** More of the examples: a working copy of [Code/Prog1] in which
    [rev-parse] answers [true], a tool that refuses the unknown
    sub-command [diffoptions], and a tool whose [fetch] fails. *)
Module Examples.

Definition prog1 : str := "/home/u/Code/Prog1".

Definition rev_parse : str * CompletedProcess :=
  ("git rev-parse --is-inside-work-tree" : str,
   {| returncode := 0; stdout := "true"; stderr := [] |}).

Definition no_such_command : str * CompletedProcess :=
  ("git diffoptions" : str,
   {| returncode := 1; stdout := [];
      stderr := "git: 'diffoptions' is not a git command. See 'git --help'." |}).

Definition fetch_fails : str * CompletedProcess :=
  ("git fetch -q --progress" : str,
   {| returncode := 128; stdout := [];
      stderr := "fatal: unable to access the remote" ++ Py.nl ++ "try again" |}).

Definition entry1 : str := "Code/Prog1 = git@host:org/prog1.git" ++ Py.nl.

(** A library whose [re.compile] refuses a pattern because a repeat count
    in it has too many digits. *)
Definition long_repeat : Faults Sample.World :=
  {| stdout_invalid := fun _ _ => false;
     stderr_invalid := fun _ _ => false;
     os_chdir_fails := fun _ _ => false;
     os_makedirs_fails := fun _ _ => false;
     re_compile_error :=
       fun _ => TooManyDigits "Exceeds the limit for integer string conversion" |}.


(** A run in which the bytes that [git fetch] writes on [stderr] are not
    UTF-8. *)
Definition garbled_fetch : Faults Sample.World :=
  {| stdout_invalid := fun _ _ => false;
     stderr_invalid := fun line _ => Py.eqb line "git fetch -q --progress";
     os_chdir_fails := fun _ _ => false;
     os_makedirs_fails := fun _ _ => false;
     re_compile_error := fun _ => NotAnExpression |}.

Definition prog2 : str := "/home/u/Code/Prog2".

Definition nothing_to_push : str * CompletedProcess :=
  ("git push --porcelain --follow-tags --dry-run" : str,
   {| returncode := 0;
      stdout := "To git@host:org/prog1.git" ++ Py.nl
                ++ "= refs/heads/master:refs/heads/master [up to date]"
                ++ Py.nl ++ "Done";
      stderr := [] |}).

(** A working copy with one changed file, whose push would send it. *)
Definition changed : str * CompletedProcess :=
  ("git diff-index --name-only HEAD" : str,
   {| returncode := 0; stdout := "README"; stderr := [] |}).

Definition push_probe : str * CompletedProcess :=
  ("git push --porcelain --follow-tags --dry-run" : str,
   {| returncode := 0; stdout := "To git@host:org/prog1.git" ++ Py.nl ++ "Done";
      stderr := [] |}).

Definition ahead : State Sample.World :=
  Sample.start entry1 [prog1] [rev_parse; changed; push_probe].

(** The catalogue file holds [Code/Prog1], a working copy, and the current
    directory is inside it. *)
Definition inside_prog1 : State Sample.World :=
  {| world := {| Sample.cwd := prog1; Sample.dirs := [prog1];
                 Sample.replies := [rev_parse] |};
     files := [(Sample.rc, entry1)];
     log := [] |}.

Definition entry2 : str := "Code/Prog2 = git@host:org/prog2.git" ++ Py.nl.

End Examples.

(** ** More of [Settings]: the settings file and the version

    [Settings.__init__] reads the settings file with [read_init_file] and
    the option tables with [read_git_options].  The first is embedded
    here.  [read_git_options] hands the text of the options file to
    [eval], and [add_git_options] and [setup_command_line_parser] build
    [argparse] objects: they stay outside. *)

(** [s.lower()] on code points below 256: the capital letters of ASCII and
    of Latin-1 (U+00C0 to U+00DE without the multiplication sign). *)
Definition lower_char (c : ascii) : ascii :=
  let n := nat_of_ascii c in
  if (((65 <=? n) && (n <=? 90)) || ((192 <=? n) && (n <=? 214))
      || ((216 <=? n) && (n <=? 222)))%nat
  then ascii_of_nat (n + 32)
  else c.

Definition lower (s : str) : str := map lower_char s.

(** What [read_init_file] leaves in the [settings] object: the dictionary
    [git_defaults], a dictionary of dictionaries, and the attributes that
    [setattr] has set. *)
Record IniSettings : Type :=
  { git_defaults : list (str * Dict.t);
    attributes : Dict.t }.

(** [Settings.__init__] starts with [self.git_defaults = {}]. *)
Definition IniSettings_init : IniSettings :=
  {| git_defaults := []; attributes := [] |}.

(** [command in d], [d[command]] and [d[command] = v] on [git_defaults]. *)
Fixpoint defaults_mem (k : str) (d : list (str * Dict.t)) : bool :=
  match d with
  | [] => false
  | (k', _) :: d' => Py.eqb k k' || defaults_mem k d'
  end.

Fixpoint defaults_get (k : str) (d : list (str * Dict.t)) : option Dict.t :=
  match d with
  | [] => None
  | (k', v) :: d' => if Py.eqb k k' then Some v else defaults_get k d'
  end.

Fixpoint defaults_set (k : str) (v : Dict.t) (d : list (str * Dict.t))
  : list (str * Dict.t) :=
  match d with
  | [] => [(k, v)]
  | (k', v') :: d' =>
      if Py.eqb k k' then (k', v) :: d' else (k', v') :: defaults_set k v d'
  end.

(** [setattr(self, name, val)] with a string value.  The names that an
    instance of a [dict] subclass does not store as they come are
    [__class__] and [__dict__], which take no string, and [__weakref__],
    which cannot be written. *)
Definition setattr (st : IniSettings) (name val : str) : Outcome IniSettings :=
  if Py.eqb name "__class__" || Py.eqb name "__dict__" then Raise TypeError
  else if Py.eqb name "__weakref__" then Raise (AttributeError name)
  else Ok {| git_defaults := git_defaults st;
             attributes := Dict.set name val (attributes st) |}.

(** The body of the loop of [read_init_file] for one line.  The unpacking
    [key, val = [w.strip() for w in line.split('=')]] needs exactly two
    items, and so does [command, option = key.split('.')]. *)
Definition read_init_line (st : IniSettings) (line : str)
  : Outcome IniSettings :=
  match map Py.strip (Py.split "=" line) with
  | [key; val] =>
      if negb (Py.eqb key []) then
        if Py.contains "." key then
          match Py.split "." key with
          | [command; option] =>
              let defaults :=
                if negb (defaults_mem command (git_defaults st))
                then defaults_set command [] (git_defaults st)
                else git_defaults st in
              match defaults_get command defaults with
              | Some inner =>
                  Ok {| git_defaults :=
                          defaults_set command (Dict.set option val inner)
                            defaults;
                        attributes := attributes st |}
              | None => Raise (KeyError command)
              end
          | _ => Raise (ValueError "too many values to unpack (expected 2)")
          end
        else setattr st ("_" ++ lower key) val
      else Ok st
  | [_] => Raise (ValueError "not enough values to unpack (expected 2, got 1)")
  | _ => Raise (ValueError "too many values to unpack (expected 2)")
  end.

(** [for line in ini: ...] *)
Fixpoint read_init_lines (lines : list str) (st : IniSettings)
  : Outcome IniSettings :=
  match lines with
  | [] => Ok st
  | line :: rest =>
      match read_init_line st line with
      | Ok st' => read_init_lines rest st'
      | Raise e => Raise e
      end
  end.

(** [read_init_file], on the text of the settings file once it is open. *)
Definition read_init_file (text : str) (st : IniSettings)
  : Outcome IniSettings :=
  read_init_lines (Py.readlines text) st.

(** [Settings.version] *)
Definition version (st : IniSettings) : Outcome str :=
  match Dict.get "_version" (attributes st) with
  | Some v => Ok ("git cat version " ++ v)
  | None => Raise (AttributeError "_version")
  end.

Section GitMethod.

Context {W : Type} {host : Host W} {faults : Faults W}.

(** [GitCat.git]: the call [Git(git_command)] lacks the argument
    [command] of [Git.__init__]. *)
Definition git (self : GitCat) (commands : list str) : M (State W) unit :=
  let git_command := Py.join " " commands in
  reps <- repositories self ;;
  for_each reps (fun rep =>
    let dire := expand_path self rep in
    is_git <- is_git_repository self dire ;;
    if is_git then
      print ("Repository = " ++ rep ++ ", command = " ++ git_command) None ;;
      raise TypeError
    else ret tt).

End GitMethod.

(** ** Vocabulary of the further properties *)

(** The key that a line of the settings file sets, when it has one [=]:
    the text before it, trimmed. *)
Definition ini_key (line : str) : option str :=
  match Py.split "=" line with
  | [key; _] => Some (Py.strip key)
  | _ => None
  end.

(** An attribute of a sub-command that [process_options] hands to the
    tool: its name starts with [git_] and its value is [True], a string or
    a list. *)
Definition passed (attr : str * OptVal) : bool :=
  Py.startswith "git_" (fst attr)
  && match snd attr with
     | VBool true | VStr _ | VList _ => true
     | _ => false
     end.

(** The name of the tool's option for an attribute [git_...]. *)
Definition option_name (attr : str) : str :=
  Py.replace "_" "-" (skipn 4 attr).

(** An event that prints. *)
Definition is_print (e : Event) : bool :=
  match e with
  | EvPrint _ => true
  | _ => false
  end.

(** The probe [rev-parse] answered by a working copy: the condition of
    [is_git_repository] on the call. *)
Definition working_copy_found (e : Event) : bool :=
  match e with
  | EvGit rep command options cp =>
      Py.eqb command "rev-parse"
      && (Z.eqb (git_returncode (Git_of rep command options cp)) 0
          && Py.contains "true" (git_output (Git_of rep command options cp)))
  | _ => false
  end.

(** An event that neither prints nor is such an answer. *)
Definition silent (e : Event) : Prop :=
  is_print e = false /\ working_copy_found e = false.

(** An event that opens a file for writing or writes to it. *)
Definition writes_file (e : Event) : bool :=
  match e with
  | EvOpenW _ | EvWrite _ _ => true
  | _ => false
  end.

(** A computation that, however it ends, only adds to the log, and adds no
    event that writes a file. *)
Definition writes_nothing {W A : Type} (m : M (State W) A) : Prop :=
  forall s, exists new,
    log (snd (m s)) = new ++ log s
    /\ Forall (fun e => writes_file e = false) new.

(** An event that calls the tool with a sub-command among [cmds]. *)
Definition calls_among (cmds : list str) (e : Event) : Prop :=
  match e with
  | EvGit _ command _ _ => In command cmds
  | _ => True
  end.

(** The calls of the tool that [status] makes when it is told to stay
    local: the probe [rev-parse], [status] with the options of
    [process_options], and [diff] with its fixed options. *)
Definition status_call (self : GitCat) (e : Event) : Prop :=
  match e with
  | EvGit _ command options _ =>
      command = ("rev-parse" : str)
      \/ (command = ("status" : str)
          /\ options = process_options self "--porcelain --short --branch")
      \/ (command = ("diff" : str)
          /\ options = ("--shortstat --no-color" : str))
  | _ => True
  end.

(** The paths that a log asked [os.path.isdir] about, oldest first. *)
Definition probes (l : list Event) : list str :=
  flat_map (fun e => match e with EvIsDir path _ => [path] | _ => [] end)
    (rev l).

(** * Facts about the string primitives *)

Unset Implicit Arguments.

Lemma eqb_refl (a : str) : Py.eqb a a = true.
Proof.
  induction a as [|x a IH]; simpl; [reflexivity|].
  now rewrite Ascii.eqb_refl.
Qed.

Lemma eqb_eq (a b : str) : Py.eqb a b = true <-> a = b.
Proof.
  split.
  - revert b; induction a as [|x a IH]; intros [|y b] H; simpl in H;
      try discriminate; [reflexivity|].
    apply andb_true_iff in H as [Hx Hab].
    apply Ascii.eqb_eq in Hx. apply IH in Hab. now subst.
  - intros ->. apply eqb_refl.
Qed.

Lemma eqb_neq (a b : str) : Py.eqb a b = false <-> a <> b.
Proof.
  split.
  - intros H E. apply eqb_eq in E. congruence.
  - intros H. destruct (Py.eqb a b) eqn:E; [|reflexivity].
    apply eqb_eq in E. contradiction.
Qed.

Lemma startswith_app (p s : str) : Py.startswith p (p ++ s) = true.
Proof.
  induction p as [|x p IH]; simpl; [reflexivity|].
  now rewrite Ascii.eqb_refl.
Qed.

Lemma startswith_inv (p s : str) :
  Py.startswith p s = true -> exists t, s = p ++ t.
Proof.
  revert s; induction p as [|x p IH]; intros s H.
  - now exists s.
  - destruct s as [|y s]; simpl in H; [discriminate|].
    apply andb_true_iff in H as [Hx Hp].
    apply Ascii.eqb_eq in Hx. destruct (IH _ Hp) as [t ->].
    exists t. now subst.
Qed.

Lemma startswith_long (p x y : str) :
  length p <= length x -> Py.startswith p (x ++ y) = Py.startswith p x.
Proof.
  revert x; induction p as [|c p IH]; intros x H; [reflexivity|].
  destruct x as [|d x]; simpl in *; [lia|].
  rewrite IH by lia. reflexivity.
Qed.

Lemma skipn_length_app (p s : str) : skipn (length p) (p ++ s) = s.
Proof. induction p; simpl; auto. Qed.

Lemma contains_cons (sub : str) (c : ascii) (s : str) :
  Py.contains sub (c :: s) = Py.startswith sub (c :: s) || Py.contains sub s.
Proof. simpl. destruct sub; simpl; [reflexivity|]. now destruct (_ && _). Qed.

Lemma contains_app_r (sub a b : str) :
  Py.contains sub b = true -> Py.contains sub (a ++ b) = true.
Proof.
  intros H. induction a as [|c a IH]; [exact H|].
  change ((c :: a) ++ b) with (c :: (a ++ b)).
  rewrite contains_cons, IH. apply orb_true_r.
Qed.

Lemma contains_spec (sub s : str) :
  Py.contains sub s = true <-> exists a b, s = a ++ sub ++ b.
Proof.
  split.
  - induction s as [|c s IH]; intros H.
    + simpl in H. destruct (Py.startswith sub []) eqn:E; [|discriminate].
      apply startswith_inv in E as [t E]. now exists [], t.
    + rewrite contains_cons in H. apply orb_true_iff in H as [H|H].
      * apply startswith_inv in H as [t E]. now exists [], t.
      * destruct (IH H) as (a & b & ->). now exists (c :: a), b.
  - intros (a & b & ->). apply contains_app_r.
    destruct (sub ++ b) eqn:E; simpl; rewrite <- E, startswith_app; reflexivity.
Qed.

Lemma partition_None (sep s : str) :
  Py.partition sep s = None <-> Py.contains sep s = false.
Proof.
  induction s as [|c s IH]; simpl.
  - destruct (Py.startswith sep []); split; congruence.
  - destruct (Py.startswith sep (c :: s)); [split; congruence|].
    destruct (Py.partition sep s) as [[a b]|].
    + split; [discriminate|]. intros H. apply IH in H. discriminate.
    + split; [|reflexivity]. intros _. now apply IH.
Qed.

Lemma startswith_skipn (p s : str) :
  Py.startswith p s = true -> s = p ++ skipn (length p) s.
Proof.
  intros H. apply startswith_inv in H as [t ->].
  now rewrite skipn_length_app.
Qed.

Lemma partition_Some (sep s a b : str) :
  Py.partition sep s = Some (a, b) -> s = a ++ sep ++ b.
Proof.
  revert a; induction s as [|c s IH]; intros a; simpl.
  - destruct (Py.startswith sep []) eqn:E; [|discriminate].
    intros [= <- <-]. now apply startswith_skipn.
  - destruct (Py.startswith sep (c :: s)) eqn:E.
    + intros [= <- <-]. now apply startswith_skipn.
    + destruct (Py.partition sep s) as [[a' b']|]; [|discriminate].
      intros [= <- <-]. simpl. f_equal. now apply IH.
Qed.

Lemma partition_here (sep s : str) :
  Py.startswith sep s = true ->
  Py.partition sep s = Some ([], skipn (length sep) s).
Proof. intros H. destruct s; simpl; now rewrite H. Qed.

(** The first occurrence: when [sep] does not occur in [a] followed by all
    of [sep] but its last character, the cut of [a ++ sep ++ b] is at [a]. *)
Lemma partition_first (s0 : str) (c : ascii) (a b : str) :
  Py.contains (s0 ++ [c]) (a ++ s0) = false ->
  Py.partition (s0 ++ [c]) (a ++ (s0 ++ [c]) ++ b) = Some (a, b).
Proof.
  induction a as [|x a IH]; intros H.
  - cbn [app]. rewrite partition_here by apply startswith_app.
    now rewrite skipn_length_app.
  - change ((x :: a) ++ s0) with (x :: (a ++ s0)) in H.
    rewrite contains_cons in H. apply orb_false_iff in H as [H1 H2].
    change ((x :: a) ++ (s0 ++ [c]) ++ b) with (x :: (a ++ (s0 ++ [c]) ++ b)).
    cbn [Py.partition].
    replace (x :: a ++ (s0 ++ [c]) ++ b) with ((x :: a ++ s0) ++ ([c] ++ b)).
    2:{ simpl. now rewrite <- !app_assoc. }
    rewrite startswith_long, H1.
    2:{ simpl. rewrite !length_app. simpl. lia. }
    replace (a ++ s0 ++ [c] ++ b) with (a ++ (s0 ++ [c]) ++ b)
      by now rewrite <- !app_assoc.
    rewrite (IH H2). reflexivity.
Qed.

Lemma split_none (sep s : str) :
  Py.contains sep s = false -> Py.split sep s = [s].
Proof.
  intros H. apply partition_None in H. unfold Py.split.
  destruct (length s); simpl; [reflexivity|]. now rewrite H.
Qed.

Lemma split_fuel_none (n : nat) (sep s : str) :
  Py.contains sep s = false -> Py.split_fuel n sep s = [s].
Proof.
  intros H. apply partition_None in H.
  destruct n; simpl; [reflexivity|]. now rewrite H.
Qed.

Lemma split_once (sep s a b : str) :
  sep <> [] ->
  Py.partition sep s = Some (a, b) -> Py.contains sep b = false ->
  Py.split sep s = [a; b].
Proof.
  intros Hsep Hp Hb. unfold Py.split.
  pose proof (partition_Some _ _ _ _ Hp) as E.
  destruct (length s) eqn:L.
  - destruct s; [|discriminate]. destruct a; [|discriminate].
    destruct sep; [contradiction|discriminate].
  - simpl. rewrite Hp. now rewrite split_fuel_none.
Qed.

Lemma contains_length (sep s : str) :
  Py.contains sep s = true -> length sep <= length s.
Proof.
  intros H. apply contains_spec in H as (a & b & ->).
  rewrite !length_app. lia.
Qed.

Lemma split_many (sep s a b : str) :
  sep <> [] ->
  Py.partition sep s = Some (a, b) -> Py.contains sep b = true ->
  exists a2 x rest, Py.split sep s = a :: a2 :: x :: rest.
Proof.
  intros Hsep Hp Hb. unfold Py.split.
  pose proof (partition_Some _ _ _ _ Hp) as E.
  pose proof (contains_length _ _ Hb) as L.
  assert (0 < length sep) by (destruct sep; [contradiction|simpl; lia]).
  destruct (length s) as [|[|n]] eqn:Ls.
  - subst s. rewrite !length_app in Ls. lia.
  - subst s. rewrite !length_app in Ls. lia.
  - simpl. rewrite Hp.
    destruct (Py.partition sep b) as [[a2 b2]|] eqn:Hp2.
    + exists a2. destruct n; simpl.
      * now exists b2, [].
      * destruct (Py.partition sep b2) as [[a3 b3]|]; eauto.
    + apply partition_None in Hp2. congruence.
Qed.

(** ** The fuel of [split] and [replace] is enough

    With a non-empty separator the text after a cut is shorter, so any
    fuel from the length of the text on gives the same pieces. *)

Lemma partition_shorter (sep s a b : str) :
  sep <> [] -> Py.partition sep s = Some (a, b) -> length b < length s.
Proof.
  intros Hsep H. apply partition_Some in H. subst s.
  rewrite !length_app. destruct sep; [contradiction|simpl; lia].
Qed.

Lemma partition_nil (sep : str) : sep <> [] -> Py.partition sep [] = None.
Proof. intros H. destruct sep; [contradiction|reflexivity]. Qed.

Lemma split_fuel_enough (sep : str) (n : nat) : forall (m : nat) (s : str),
  sep <> [] -> length s <= n -> length s <= m ->
  Py.split_fuel n sep s = Py.split_fuel m sep s.
Proof.
  induction n as [|n IH]; intros m s Hsep Hn Hm.
  - destruct s; [|simpl in Hn; lia].
    destruct m; [reflexivity|].
    cbn [Py.split_fuel Py.replace_fuel]. now rewrite partition_nil.
  - destruct m as [|m].
    + destruct s; [|simpl in Hm; lia].
      cbn [Py.split_fuel Py.replace_fuel]. now rewrite partition_nil.
    + cbn [Py.split_fuel]. destruct (Py.partition sep s) as [[a b]|] eqn:P; [|reflexivity].
      pose proof (partition_shorter sep s a b Hsep P).
      f_equal. apply IH; [assumption|lia|lia].
Qed.

Lemma split_enough (sep s : str) (n : nat) :
  sep <> [] -> length s <= n -> Py.split_fuel n sep s = Py.split sep s.
Proof. intros Hsep Hn. now apply split_fuel_enough. Qed.

Lemma replace_fuel_enough (old new : str) (n : nat) : forall (m : nat) (s : str),
  old <> [] -> length s <= n -> length s <= m ->
  Py.replace_fuel n old new s = Py.replace_fuel m old new s.
Proof.
  induction n as [|n IH]; intros m s Hold Hn Hm.
  - destruct s; [|simpl in Hn; lia].
    destruct m; [reflexivity|].
    cbn [Py.split_fuel Py.replace_fuel]. now rewrite partition_nil.
  - destruct m as [|m].
    + destruct s; [|simpl in Hm; lia].
      cbn [Py.split_fuel Py.replace_fuel]. now rewrite partition_nil.
    + cbn [Py.replace_fuel]. destruct (Py.partition old s) as [[a b]|] eqn:P; [|reflexivity].
      pose proof (partition_shorter old s a b Hold P).
      do 2 f_equal. apply IH; [assumption|lia|lia].
Qed.

(** ** The primitives on small inputs *)

Example split_at_each :
  Py.split " = " "a = b = c" = [("a" : str); ("b" : str); ("c" : str)].
Proof. reflexivity. Qed.

Example split_no_overlap :
  Py.split " = " "a = = c" = [("a" : str); ("= c" : str)].
Proof. reflexivity. Qed.

Example split_absent : Py.split " = " "# comment" = [("# comment" : str)].
Proof. reflexivity. Qed.

Example strip_both_ends :
  Py.strip ("  Code/Prog1 " ++ Py.nl) = ("Code/Prog1" : str).
Proof. reflexivity. Qed.

Example ljust_pads : Py.ljust 6 "ab" = ("ab    " : str).
Proof. reflexivity. Qed.

Example ljust_long : Py.ljust 1 "abc" = ("abc" : str).
Proof. reflexivity. Qed.

Example readlines_universal :
  Py.readlines ("a" ++ Py.nl ++ "b" ++ Py.cr ++ Py.nl ++ "c" ++ Py.cr ++ "d")
  = ["a" ++ Py.nl; "b" ++ Py.nl; "c" ++ Py.nl; ("d" : str)].
Proof. reflexivity. Qed.

Example replace_all : Py.replace "/home/u/" [] "/home/u/Code" = ("Code" : str).
Proof. reflexivity. Qed.

(** The output of a [Git] object: stdout then stderr, line by line,
    trimmed, without empty lines, two spaces in front. *)
Example Git_output :
  git_output
    (Git_of "Code/Prog1" "status" "--short"
       {| returncode := 0;
          stdout := "## master" ++ Py.nl ++ Py.nl ++ " M README " ++ Py.nl;
          stderr := "warning" ++ Py.cr ++ Py.nl |})
  = "  ## master" ++ Py.nl ++ "  M README" ++ Py.nl ++ "  warning".
Proof. reflexivity. Qed.

(** ** Trimming *)

Lemma lstrip_spaces (ws s : str) :
  forallb Py.isspace ws = true -> Py.lstrip (ws ++ s) = Py.lstrip s.
Proof.
  induction ws as [|c ws IH]; simpl; [reflexivity|].
  intros H. apply andb_true_iff in H as [Hc Hws]. now rewrite Hc, IH.
Qed.

Lemma lstrip_suffix (s : str) :
  exists ws, s = ws ++ Py.lstrip s /\ forallb Py.isspace ws = true.
Proof.
  induction s as [|c s (ws & E & H)]; simpl.
  - now exists [].
  - destruct (Py.isspace c) eqn:Hc.
    + exists (c :: ws). simpl. rewrite Hc, H. split; [now f_equal|reflexivity].
    + now exists [].
Qed.

Lemma length_lstrip (s : str) : length (Py.lstrip s) <= length s.
Proof.
  destruct (lstrip_suffix s) as (ws & E & _). rewrite E at 2.
  rewrite length_app. lia.
Qed.

Lemma length_rstrip (s : str) : length (Py.rstrip s) <= length s.
Proof.
  unfold Py.rstrip. rewrite length_rev.
  etransitivity; [apply length_lstrip|]. now rewrite length_rev.
Qed.

Lemma lstrip_same_length (s : str) :
  length (Py.lstrip s) = length s -> Py.lstrip s = s.
Proof.
  intros L. destruct (lstrip_suffix s) as (ws & E & _).
  rewrite E in L at 2. rewrite length_app in L.
  destruct ws; [exact (eq_sym E)|simpl in L; lia].
Qed.

Lemma strip_fixed (s : str) :
  Py.strip s = s -> Py.lstrip s = s /\ Py.rstrip s = s.
Proof.
  intros H. assert (L : Py.lstrip s = s).
  { apply lstrip_same_length. apply Nat.le_antisymm; [apply length_lstrip|].
    rewrite <- H at 1. apply length_rstrip. }
  split; [exact L|]. unfold Py.strip in H. now rewrite L in H.
Qed.

Lemma rstrip_spaces (s ws : str) :
  forallb Py.isspace ws = true -> Py.rstrip (s ++ ws) = Py.rstrip s.
Proof.
  intros H. unfold Py.rstrip. rewrite rev_app_distr, lstrip_spaces; [reflexivity|].
  rewrite forallb_forall in *. intros c Hc. apply H. now apply in_rev.
Qed.

(** Trailing white space after a trimmed text is trimmed away. *)
Lemma strip_pad (k ws : str) :
  Py.strip k = k -> forallb Py.isspace ws = true -> Py.strip (k ++ ws) = k.
Proof.
  intros Hk Hws. destruct (strip_fixed _ Hk) as [Hl Hr].
  unfold Py.strip. destruct k as [|c k].
  - simpl. replace ws with (ws ++ []) by apply app_nil_r.
    now rewrite lstrip_spaces.
  - simpl in Hl. destruct (Py.isspace c) eqn:Hc.
    + exfalso. pose proof (length_lstrip k) as L. rewrite Hl in L. simpl in L. lia.
    + change ((c :: k) ++ ws) with (c :: (k ++ ws)). cbn [Py.lstrip]. rewrite Hc.
      change (c :: (k ++ ws)) with ((c :: k) ++ ws).
      now rewrite rstrip_spaces.
Qed.

Lemma forallb_isspace_repeat (n : nat) :
  forallb Py.isspace (repeat Py.SP n) = true.
Proof. induction n; simpl; auto. Qed.

(** ** Lines of a text *)

Lemma lines_from_line (cur l rest : str) :
  newline_free l = true ->
  Py.lines_from cur (l ++ Py.LF :: rest)
  = (rev cur ++ l ++ [Py.LF]) :: Py.lines_from [] rest.
Proof.
  revert cur; induction l as [|c l IH]; intros cur H.
  - reflexivity.
  - simpl in H. apply andb_true_iff in H as [Hc Hl].
    apply negb_true_iff, orb_false_iff in Hc as [H1 H2].
    cbn [app Py.lines_from]. rewrite H1, H2, (IH _ Hl).
    simpl. now rewrite <- app_assoc.
Qed.

Lemma readlines_lines (ls : list str) (rest : str) :
  forallb newline_free ls = true ->
  Py.lines_from [] (List.concat (map (fun l => l ++ Py.nl) ls) ++ rest)
  = map (fun l => l ++ Py.nl) ls ++ Py.lines_from [] rest.
Proof.
  induction ls as [|l ls IH]; intros H; [reflexivity|].
  simpl in H. apply andb_true_iff in H as [Hl Hls].
  cbn [map List.concat]. unfold Py.nl at 1. rewrite <- !app_assoc.
  cbn [app]. rewrite lines_from_line by exact Hl.
  cbn [app]. now rewrite IH.
Qed.

Lemma join_nl (ls : list str) :
  ls <> [] ->
  Py.join Py.nl ls ++ Py.nl = List.concat (map (fun l => l ++ Py.nl) ls).
Proof.
  induction ls as [|l [|l' ls] IH]; intros H; [contradiction| |].
  - simpl. now rewrite app_nil_r.
  - change (Py.join Py.nl (l :: l' :: ls))
      with (l ++ Py.nl ++ Py.join Py.nl (l' :: ls)).
    rewrite <- !app_assoc, IH by discriminate.
    cbn [map List.concat]. now rewrite <- !app_assoc.
Qed.

(** ** Dictionaries *)

Lemma mem_In (k : str) (d : Dict.t) :
  Dict.mem k d = true <-> In k (Dict.keys d).
Proof.
  induction d as [|[k' v] d IH]; simpl; [split; [discriminate|tauto]|].
  rewrite orb_true_iff, IH, eqb_eq. split; intros [H|H]; auto.
Qed.

Lemma mem_not_In (k : str) (d : Dict.t) :
  Dict.mem k d = false <-> ~ In k (Dict.keys d).
Proof.
  rewrite <- mem_In. destruct (Dict.mem k d); split; congruence.
Qed.

Lemma set_new (k v : str) (d : Dict.t) :
  Dict.mem k d = false -> Dict.set k v d = d ++ [(k, v)].
Proof.
  induction d as [|[k' v'] d IH]; simpl; [reflexivity|].
  intros H. apply orb_false_iff in H as [H1 H2]. now rewrite H1, IH.
Qed.

Lemma get_In (k v : str) (d : Dict.t) :
  NoDup (Dict.keys d) -> In (k, v) d -> Dict.get k d = Some v.
Proof.
  induction d as [|[k' v'] d IH]; simpl; [tauto|].
  intros N [H|H]; inversion N as [|? ? Hn N']; subst.
  - injection H as -> ->. now rewrite eqb_refl.
  - destruct (Py.eqb k k') eqn:E; [|now apply IH].
    apply eqb_eq in E. subst. exfalso. apply Hn.
    change k' with (fst (k', v)). now apply in_map.
Qed.

Lemma keys_app (a b : Dict.t) : Dict.keys (a ++ b) = Dict.keys a ++ Dict.keys b.
Proof. apply map_app. Qed.

(** * The catalogue file *)

Section Loader.

Context {W : Type}.
Implicit Types (self : GitCat) (s : State W) (line : str).

Lemma set_catalogue_same self : set_catalogue self (catalogue self) = self.
Proof. now destruct self. Qed.

(** What the loop body of [read_catalogue] does with a line, by the kind of
    the line. *)
Lemma read_line_kind self line s :
  read_catalogue_line self line s =
  match line_kind line with
  | NoEntry => (Ok self, s)
  | Entry d r =>
      if Dict.mem d (catalogue self)
      then (Raise (SystemExit 1), emit (duplicate_diagnostic d) s)
      else (Ok (set_catalogue self (Dict.set d r (catalogue self))), s)
  | Several => (Raise (ValueError "too many values to unpack (expected 2)"), s)
  end.
Proof.
  unfold read_catalogue_line, line_kind. fold sep.
  destruct (Py.partition sep line) as [[d r]|] eqn:P.
  - assert (C : Py.contains sep line = true).
    { destruct (Py.contains sep line) eqn:C; [reflexivity|].
      apply partition_None in C. congruence. }
    rewrite C. destruct (Py.contains sep r) eqn:R.
    + destruct (split_many sep line d r) as (a2 & x & rest & ->);
        [discriminate|assumption|assumption|reflexivity].
    + rewrite (split_once sep line d r); [|discriminate|assumption|assumption].
      destruct (Dict.mem (Py.strip d) (catalogue self)); reflexivity.
  - apply partition_None in P. now rewrite P.
Qed.

Lemma line_kind_single (d r : str) :
  Py.contains sep (d ++ " =") = false -> Py.contains sep r = false ->
  line_kind (d ++ sep ++ r) = Entry (Py.strip d) (Py.strip r).
Proof.
  intros Hd Hr. unfold line_kind.
  change sep with ((" =" : str) ++ [" "%char]) at 1 2.
  rewrite partition_first by exact Hd. fold sep. now rewrite Hr.
Qed.

Lemma line_kind_none line :
  Py.contains sep line = false <-> line_kind line = NoEntry.
Proof.
  unfold line_kind. rewrite <- partition_None.
  destruct (Py.partition sep line) as [[d r]|]; [|tauto].
  destruct (Py.contains sep r); split; congruence.
Qed.

Lemma entries_cons line (lines : list str) :
  entries (line :: lines)
  = match line_kind line with Entry d r => [(d, r)] | _ => [] end
    ++ entries lines.
Proof. reflexivity. Qed.

(** A file whose lines are well formed and whose keys are all different
    loads, entry after entry. *)
Lemma load_ok (lines : list str) : forall self s,
  forallb well_formed lines = true ->
  NoDup (Dict.keys (catalogue self ++ entries lines)) ->
  for_fold lines read_catalogue_line self s
  = (Ok (set_catalogue self (catalogue self ++ entries lines)), s).
Proof.
  induction lines as [|l ls IH]; intros self s Hwf Hnd.
  - simpl. now rewrite app_nil_r, set_catalogue_same.
  - simpl in Hwf. apply andb_true_iff in Hwf as [Hl Hls].
    cbn [for_fold]. unfold bind. rewrite read_line_kind.
    rewrite entries_cons in *. unfold well_formed in Hl.
    destruct (line_kind l) as [|d r|]; [| |discriminate].
    + now apply IH.
    + cbn [app] in *.
      assert (Hd : Dict.mem d (catalogue self) = false).
      { apply mem_not_In. intros Hin. rewrite keys_app in Hnd.
        apply NoDup_remove_2 in Hnd. apply Hnd, in_or_app. now left. }
      rewrite Hd, set_new by exact Hd.
      rewrite IH; [|exact Hls|]; cbn [catalogue set_catalogue].
      * now rewrite <- app_assoc.
      * now rewrite <- app_assoc.
Qed.

(** Conversely, a load that returns has read well-formed lines with keys
    all different, changed neither the state nor the prefix, and holds
    exactly the entries of the lines. *)
Lemma load_inv (lines : list str) : forall self s self' s',
  for_fold lines read_catalogue_line self s = (Ok self', s') ->
  s' = s /\ forallb well_formed lines = true
  /\ self' = set_catalogue self (catalogue self ++ entries lines)
  /\ (forall k, In k (Dict.keys (entries lines)) ->
                ~ In k (Dict.keys (catalogue self)))
  /\ NoDup (Dict.keys (entries lines)).
Proof.
  induction lines as [|l ls IH]; intros self s self' s' H.
  - simpl in H. injection H as <- <-.
    rewrite app_nil_r, set_catalogue_same. repeat split; auto; constructor.
  - cbn [for_fold] in H. unfold bind in H. rewrite read_line_kind in H.
    rewrite entries_cons. cbn [forallb]. unfold well_formed at 1.
    destruct (line_kind l) as [|d r|]; [| |discriminate].
    + now apply IH.
    + destruct (Dict.mem d (catalogue self)) eqn:Hd; [discriminate|].
      apply IH in H as (-> & Hwf & -> & Hnew & Hnd).
      cbn [catalogue set_catalogue] in *. rewrite set_new in * by exact Hd.
      apply mem_not_In in Hd.
      repeat split; auto.
      * now rewrite <- app_assoc.
      * intros k [<-|Hk]; [exact Hd|].
        intros Hin. apply (Hnew k Hk). rewrite keys_app. apply in_or_app. now left.
      * cbn [app Dict.keys map fst]. constructor; [|exact Hnd].
        intros Hin. apply (Hnew d Hin). rewrite keys_app. apply in_or_app.
        right. now left.
Qed.

(** A well-formed file in which a key comes back stops at the first line
    that repeats a key, with the diagnostic for that key. *)
Lemma load_duplicate (lines : list str) : forall self s,
  forallb well_formed lines = true ->
  NoDup (Dict.keys (catalogue self)) ->
  ~ NoDup (Dict.keys (catalogue self ++ entries lines)) ->
  exists pre line post k r,
    lines = pre ++ line :: post
    /\ line_kind line = Entry k r
    /\ NoDup (Dict.keys (catalogue self ++ entries pre))
    /\ In k (Dict.keys (catalogue self ++ entries pre))
    /\ for_fold lines read_catalogue_line self s
       = (Raise (SystemExit 1), emit (duplicate_diagnostic k) s).
Proof.
  induction lines as [|l ls IH]; intros self s Hwf Hnd Hdup.
  - exfalso. apply Hdup. simpl. now rewrite app_nil_r.
  - simpl in Hwf. apply andb_true_iff in Hwf as [Hl Hls].
    cbn [for_fold]. unfold bind. rewrite read_line_kind.
    rewrite entries_cons in *. unfold well_formed in Hl.
    destruct (line_kind l) as [|d r|] eqn:K; [| |discriminate].
    + destruct (IH self s Hls Hnd Hdup)
        as (pre & line & post & k & r & -> & Hk & Hn & Hin & E).
      exists (l :: pre), line, post, k, r.
      rewrite entries_cons, K. repeat split; auto.
    + destruct (Dict.mem d (catalogue self)) eqn:Hd.
      * exists [], l, ls, d, r. simpl. rewrite app_nil_r.
        repeat split; auto. now apply mem_In.
      * destruct (IH (set_catalogue self (Dict.set d r (catalogue self))) s)
          as (pre & line & post & k & r' & -> & Hk & Hn & Hin & E); auto.
        -- cbn [catalogue set_catalogue]. rewrite set_new by exact Hd.
           rewrite keys_app. apply mem_not_In in Hd.
           apply NoDup_app; [exact Hnd|repeat constructor; simpl; tauto|].
           intros x Hx [<-|[]]. contradiction.
        -- cbn [catalogue set_catalogue]. rewrite set_new by exact Hd.
           now rewrite <- app_assoc.
        -- exists (l :: pre), line, post, k, r'.
           rewrite entries_cons, K.
           cbn [catalogue set_catalogue] in Hin, Hn.
           rewrite set_new in Hin, Hn by exact Hd.
           rewrite <- app_assoc in Hin, Hn. repeat split; auto.
Qed.

(** A loop over two lists in a row. *)
Lemma for_fold_app {A B : Type} (body : B -> A -> M (State W) B)
      (l1 l2 : list A) : forall (b : B) s,
  for_fold (l1 ++ l2) body b s
  = match for_fold l1 body b s with
    | (Ok b', s') => for_fold l2 body b' s'
    | (Raise e, s') => (Raise e, s')
    end.
Proof.
  induction l1 as [|x l1 IH]; intros b s; [reflexivity|].
  cbn [app for_fold]. unfold bind.
  destruct (body b x s) as [[b'|e] s']; [apply IH|reflexivity].
Qed.

(** The load stops at the first line that repeats a key, whatever comes
    after it: the lines before it are well formed and their keys all
    different. *)
Lemma load_stops (pre post : list str) line (k r : str) self s :
  forallb well_formed pre = true ->
  NoDup (Dict.keys (catalogue self ++ entries pre)) ->
  line_kind line = Entry k r ->
  In k (Dict.keys (catalogue self ++ entries pre)) ->
  for_fold (pre ++ line :: post) read_catalogue_line self s
  = (Raise (SystemExit 1), emit (duplicate_diagnostic k) s).
Proof.
  intros Hwf Hnd Hk Hin. rewrite for_fold_app, load_ok by assumption.
  cbn [for_fold]. unfold bind. rewrite read_line_kind, Hk.
  cbn [catalogue set_catalogue].
  now rewrite (proj2 (mem_In k _) Hin).
Qed.

(** Conversely, a load that ends with [SystemExit] has stopped at such a
    line, with status 1 and the diagnostic for its key. *)
Lemma load_exit_inv (lines : list str) : forall self s n s',
  NoDup (Dict.keys (catalogue self)) ->
  for_fold lines read_catalogue_line self s = (Raise (SystemExit n), s') ->
  exists pre line post k r,
    lines = pre ++ line :: post
    /\ forallb well_formed pre = true
    /\ NoDup (Dict.keys (catalogue self ++ entries pre))
    /\ line_kind line = Entry k r
    /\ In k (Dict.keys (catalogue self ++ entries pre))
    /\ n = 1%Z /\ s' = emit (duplicate_diagnostic k) s.
Proof.
  induction lines as [|l ls IH]; intros self s n s' Hnd H; [discriminate|].
  cbn [for_fold] in H. unfold bind in H. rewrite read_line_kind in H.
  destruct (line_kind l) as [|d r|] eqn:K; [| |discriminate].
  - destruct (IH self s n s' Hnd H)
      as (pre & line & post & k & r & -> & Hwf & Hn & Hk & Hin & -> & ->).
    exists (l :: pre), line, post, k, r. rewrite entries_cons, K.
    cbn [forallb]. unfold well_formed at 1. rewrite K. repeat split; auto.
  - destruct (Dict.mem d (catalogue self)) eqn:Hd.
    + injection H as <- <-. exists [], l, ls, d, r. simpl. rewrite app_nil_r.
      repeat split; auto. now apply mem_In.
    + destruct (IH (set_catalogue self (Dict.set d r (catalogue self))) s n s')
        as (pre & line & post & k & r' & -> & Hwf & Hn & Hk & Hin & -> & ->);
        auto.
      * cbn [catalogue set_catalogue]. rewrite set_new by exact Hd.
        rewrite keys_app. apply mem_not_In in Hd.
        apply NoDup_app; [exact Hnd|repeat constructor; simpl; tauto|].
        intros x Hx [<-|[]]. contradiction.
      * exists (l :: pre), line, post, k, r'. rewrite entries_cons, K.
        cbn [catalogue set_catalogue] in Hin, Hn.
        rewrite set_new in Hin, Hn by exact Hd.
        rewrite <- app_assoc in Hin, Hn.
        cbn [forallb]. unfold well_formed at 1. rewrite K. repeat split; auto.
Qed.

End Loader.

(** ** Where the separator can occur *)

Lemma contains_In (s0 : str) (c : ascii) (s1 t : str) :
  Py.contains (s0 ++ c :: s1) t = true -> In c t.
Proof.
  intros H. apply contains_spec in H as (a & b & ->).
  apply in_or_app. right. apply in_or_app. left. apply in_or_app. right. now left.
Qed.

Lemma startswith_length (p s : str) :
  Py.startswith p s = true -> length p <= length s.
Proof.
  intros H. apply startswith_inv in H as [t ->]. rewrite length_app. lia.
Qed.

(** Text appended after [x] adds no occurrence of a separator whose last
    character it lacks. *)
Lemma contains_app_foreign (s0 : str) (c : ascii) (x t : str) :
  ~ In c t ->
  Py.contains (s0 ++ [c]) (x ++ t) = Py.contains (s0 ++ [c]) x.
Proof.
  intros Hc. induction x as [|a x IH].
  - simpl. destruct (Py.contains (s0 ++ [c]) t) eqn:E.
    + apply (contains_In s0 c []) in E. contradiction.
    + destruct s0; reflexivity.
  - change ((a :: x) ++ t) with (a :: (x ++ t)). rewrite !contains_cons, IH.
    f_equal. change (a :: (x ++ t)) with ((a :: x) ++ t).
    destruct (Nat.le_gt_cases (length (s0 ++ [c])) (length (a :: x))) as [L|L].
    + now apply startswith_long.
    + destruct (Py.startswith (s0 ++ [c]) ((a :: x) ++ t)) eqn:E1.
      * exfalso. apply startswith_inv in E1 as [u E1]. apply Hc.
        assert (N : nth_error ((a :: x) ++ t) (length s0) = Some c).
        { rewrite E1, <- app_assoc, nth_error_app2 by lia.
          now rewrite Nat.sub_diag. }
        rewrite length_app in L. simpl in L.
        rewrite nth_error_app2 in N by (simpl; lia).
        now apply nth_error_In in N.
      * destruct (Py.startswith (s0 ++ [c]) (a :: x)) eqn:E2; [|reflexivity].
        apply startswith_length in E2. lia.
Qed.

Lemma contains_sep_spaces (n : nat) : Py.contains sep (repeat Py.SP n) = false.
Proof.
  destruct (Py.contains sep (repeat Py.SP n)) eqn:E; [|reflexivity].
  apply (contains_In [Py.SP] "="%char [Py.SP]) in E.
  apply repeat_spec in E. discriminate.
Qed.

(** More spaces after one trailing space add no occurrence. *)
Lemma contains_sep_pad (y : str) (m : nat) :
  Py.contains sep (y ++ Py.SP :: repeat Py.SP m) = Py.contains sep (y ++ [Py.SP]).
Proof.
  induction y as [|a y IH].
  - change ([] ++ Py.SP :: repeat Py.SP m) with (repeat Py.SP (S m)).
    now rewrite contains_sep_spaces.
  - change ((a :: y) ++ Py.SP :: repeat Py.SP m)
      with (a :: (y ++ Py.SP :: repeat Py.SP m)).
    change ((a :: y) ++ [Py.SP]) with (a :: (y ++ [Py.SP])).
    rewrite !contains_cons, IH. f_equal.
    destruct y as [|b [|c y]].
    + simpl. now rewrite !andb_false_r.
    + change (a :: [b] ++ Py.SP :: repeat Py.SP m)
        with ([a; b; Py.SP] ++ repeat Py.SP m).
      now rewrite startswith_long by (simpl; lia).
    + change (a :: (b :: c :: y) ++ Py.SP :: repeat Py.SP m)
        with ([a; b; c] ++ (y ++ Py.SP :: repeat Py.SP m)).
      change (a :: (b :: c :: y) ++ [Py.SP]) with ([a; b; c] ++ (y ++ [Py.SP])).
      now rewrite !startswith_long by (simpl; lia).
Qed.

(** The padded key of a saved line, up to the equals sign, holds no
    separator. *)
Lemma contains_sep_ljust (w : nat) (k : str) :
  Py.contains sep (k ++ " ") = false ->
  Py.contains sep (Py.ljust w k ++ " =") = false.
Proof.
  intros H. unfold Py.ljust.
  replace ((k ++ repeat Py.SP (w - length k)) ++ " =")
    with ((k ++ repeat Py.SP (w - length k) ++ [Py.SP]) ++ ["="%char])
    by (now rewrite <- !app_assoc).
  change sep with (([Py.SP; "="%char] : str) ++ [Py.SP]) at 1.
  rewrite contains_app_foreign.
  2:{ intros [E|[]]. discriminate. }
  change (([Py.SP; "="%char] : str) ++ [Py.SP]) with sep.
  replace (repeat Py.SP (w - length k) ++ [Py.SP])
    with (Py.SP :: repeat Py.SP (w - length k)).
  2:{ apply repeat_cons. }
  rewrite contains_sep_pad. exact H.
Qed.

Lemma contains_sep_nl (r : str) :
  Py.contains sep (r ++ Py.nl) = Py.contains sep r.
Proof.
  change sep with (([Py.SP; "="%char] : str) ++ [Py.SP]).
  apply contains_app_foreign. intros [E|[]]. discriminate.
Qed.

(** ** A directory read from a line of a file is on one line *)

Lemma newline_free_rev (s : str) : newline_free (rev s) = newline_free s.
Proof.
  unfold newline_free. induction s as [|c s IH]; [reflexivity|].
  simpl. rewrite forallb_app, IH. simpl. rewrite andb_true_r. apply andb_comm.
Qed.

Lemma newline_free_lstrip (s : str) :
  newline_free s = true -> newline_free (Py.lstrip s) = true.
Proof.
  intros H. destruct (lstrip_suffix s) as (ws & E & _).
  rewrite E in H. unfold newline_free in *. rewrite forallb_app in H.
  now apply andb_true_iff in H.
Qed.

Lemma newline_free_strip (s : str) :
  newline_free s = true -> newline_free (Py.strip s) = true.
Proof.
  intros H. unfold Py.strip, Py.rstrip.
  rewrite newline_free_rev. apply newline_free_lstrip.
  rewrite newline_free_rev. now apply newline_free_lstrip.
Qed.

(** Each line that a file object yields is free of line terminators but
    for a final LF. *)
Lemma lines_from_shape (n : nat) : forall (s cur line : str),
  length s <= n -> newline_free cur = true ->
  In line (Py.lines_from cur s) ->
  exists body, newline_free body = true
               /\ (line = body ++ [Py.LF] \/ line = body).
Proof.
  induction n as [|n IH]; intros s cur line L Hcur Hin.
  - destruct s; [|simpl in L; lia]. simpl in Hin.
    destruct cur; [contradiction|]. destruct Hin as [<-|[]].
    exists (rev (a :: cur)). rewrite newline_free_rev. auto.
  - destruct s as [|c s].
    + simpl in Hin. destruct cur; [contradiction|]. destruct Hin as [<-|[]].
      exists (rev (a :: cur)). rewrite newline_free_rev. auto.
    + simpl in L. cbn [Py.lines_from] in Hin.
      assert (Hend : exists body, newline_free body = true
                       /\ (rev (Py.LF :: cur) = body ++ [Py.LF]
                           \/ rev (Py.LF :: cur) = body)).
      { exists (rev cur). rewrite newline_free_rev. auto. }
      destruct (Ascii.eqb c Py.LF) eqn:E1.
      * destruct Hin as [<-|Hin]; [exact Hend|].
        apply (IH s [] line); [lia|reflexivity|exact Hin].
      * destruct (Ascii.eqb c Py.CR) eqn:E2.
        -- destruct s as [|c' s].
           ++ destruct Hin as [<-|[]]. exact Hend.
           ++ simpl in L. destruct (Ascii.eqb c' Py.LF).
              ** destruct Hin as [<-|Hin]; [exact Hend|].
                 apply (IH s [] line); [lia|reflexivity|exact Hin].
              ** destruct Hin as [<-|Hin]; [exact Hend|].
                 apply (IH (c' :: s) [] line); [simpl; lia|reflexivity|exact Hin].
        -- apply (IH s (c :: cur) line); [lia| |exact Hin].
           simpl. now rewrite E1, E2.
Qed.

Lemma readlines_shape (text line : str) :
  In line (Py.readlines text) ->
  exists body, newline_free body = true
               /\ (line = body ++ [Py.LF] \/ line = body).
Proof. apply (lines_from_shape (length text)); auto. Qed.

(** The directory of an entry line of a file holds no line terminator. *)
Lemma entry_key_one_line (text line k r : str) :
  In line (Py.readlines text) -> line_kind line = Entry k r ->
  newline_free k = true.
Proof.
  intros Hin Hk. unfold line_kind in Hk.
  destruct (Py.partition sep line) as [[d r0]|] eqn:P; [|discriminate].
  destruct (Py.contains sep r0); [discriminate|]. injection Hk as <- _.
  apply partition_Some in P. apply newline_free_strip.
  destruct (readlines_shape text line Hin) as (body & Hb & [E|E]).
  - rewrite P in E. destruct (exists_last (l := r0)) as (r' & x & ->).
    { intros ->. rewrite app_nil_r in E.
      change (d ++ sep) with (d ++ ([Py.SP; "="%char] ++ [Py.SP])) in E.
      rewrite !app_assoc in E. apply app_inj_tail in E as [_ E]. discriminate. }
    rewrite !app_assoc in E. apply app_inj_tail in E as [E _].
    rewrite <- E in Hb. rewrite <- !app_assoc in Hb.
    unfold newline_free in Hb. rewrite forallb_app in Hb.
    now apply andb_true_iff in Hb.
  - rewrite <- E, P in Hb. unfold newline_free in Hb.
    rewrite forallb_app in Hb. now apply andb_true_iff in Hb.
Qed.

(** ** Saving and reloading *)

Section SaveLoad.

Context {W : Type} {host : Host W} {faults : Faults W}.
Variable settings : Settings.
Implicit Types (self : GitCat) (s : State W).

(** [read_catalogue] by the outcome of its two [try] blocks. *)
Lemma read_catalogue_unfold self s :
  read_catalogue self s
  = match read_catalogue_file (set_catalogue self []) s with
    | (Ok self1, s1) =>
        match repositories self1 s1 with
        | (Ok [], s2) => (Ok (set_max self1 0), s2)
        | (Ok reps, s2) =>
            (Ok (set_max self1 (list_max (map (@length ascii) reps) + 1)), s2)
        | (Raise (ValueError _), s2) => (Ok (set_max self1 0), s2)
        | (Raise UnicodeDecodeError, s2) => (Ok (set_max self1 0), s2)
        | (Raise e, s2) => (Raise e, s2)
        end
    | (Raise e, s1) => (Raise e, s1)
    end.
Proof.
  unfold read_catalogue, bind at 1.
  destruct (read_catalogue_file (set_catalogue self []) s) as [[self1|e] s1];
    [|reflexivity].
  unfold except_ValueError, bind.
  destruct (repositories self1 s1) as [[[|k reps]|e] s2]; try reflexivity.
  now destruct e.
Qed.

Lemma file_lookup_store (p t : str) (fs : list (str * str)) :
  file_lookup p (file_store p t fs) = Some t.
Proof.
  induction fs as [|[q u] fs IH]; simpl.
  - now rewrite eqb_refl.
  - destruct (Py.eqb p q) eqn:E; simpl; rewrite E; [reflexivity|exact IH].
Qed.

Lemma file_store_store (p t1 t2 : str) (fs : list (str * str)) :
  file_store p t2 (file_store p t1 fs) = file_store p t2 fs.
Proof.
  induction fs as [|[q u] fs IH]; simpl.
  - now rewrite eqb_refl.
  - destruct (Py.eqb p q) eqn:E; simpl; rewrite E; [reflexivity|now rewrite IH].
Qed.

Lemma repositories_all self s :
  hasattr (options self) "repositories" = false ->
  repositories self s = (Ok (Dict.keys (catalogue self)), s).
Proof. intros H. unfold repositories. now rewrite H. Qed.

Lemma for_map_lines self s (c : Dict.t) :
  (forall e, In e c -> Dict.get (fst e) (catalogue self) = Some (snd e)) ->
  for_map (Dict.keys c)
    (fun dire =>
       rep <- catalogue_item self dire ;;
       is_git <- ret true ;;
       ret (list_line self dire (if is_git then "=" else "!") rep)) s
  = (Ok (map (entry_line self) c), s).
Proof.
  induction c as [|[k r] c IH]; intros H; [reflexivity|].
  pose proof (H (k, r) (or_introl eq_refl)) as Hk. cbn [fst snd] in Hk.
  cbn [Dict.keys map fst for_map]. fold (Dict.keys c).
  unfold bind at 1 2. unfold catalogue_item at 1. rewrite Hk.
  cbn [bind ret]. unfold bind at 1. rewrite IH; [reflexivity|].
  intros e He. apply H. now right.
Qed.

Lemma list_catalogue_listing self s :
  hasattr (options self) "repositories" = false ->
  NoDup (Dict.keys (catalogue self)) ->
  list_catalogue self true s
  = (Ok (Py.join Py.nl (map (entry_line self) (catalogue self))), s).
Proof.
  intros Hf Hn. unfold list_catalogue, bind at 1.
  rewrite repositories_all by exact Hf. unfold bind at 1.
  rewrite for_map_lines; [reflexivity|].
  intros [k r] He. now apply get_In.
Qed.

(** [save_catalogue] without a filter leaves [saved_text] in the file. *)
Lemma save_catalogue_text self s :
  hasattr (options self) "repositories" = false ->
  NoDup (Dict.keys (catalogue self)) ->
  exists new,
    save_catalogue settings self s
    = (Ok tt, {| world := world s;
                 files := file_store (gitcatrc self) (saved_text settings self)
                            (files s);
                 log := new ++ log s |}).
Proof.
  intros Hf Hn. unfold save_catalogue, bind, open_w, file_write, emit.
  cbn [files world log]. rewrite !file_lookup_store, !file_store_store.
  rewrite list_catalogue_listing by assumption.
  cbn [files world log]. rewrite !file_lookup_store, !file_store_store.
  eexists [_; _; _; _]. reflexivity.
Qed.

(** The same, with the four events that [save_catalogue] adds to the
    log: the file is opened for writing and written to three times. *)
Lemma save_catalogue_events self s :
  hasattr (options self) "repositories" = false ->
  NoDup (Dict.keys (catalogue self)) ->
  save_catalogue settings self s
  = (Ok tt,
     {| world := world s;
        files := file_store (gitcatrc self) (saved_text settings self)
                   (files s);
        log := EvWrite (gitcatrc self)
                 (Py.join Py.nl (map (entry_line self) (catalogue self))
                  ++ Py.nl)
               :: EvWrite (gitcatrc self) (save_settings settings)
               :: EvWrite (gitcatrc self)
                    ("# List of git repositories to sync using gitcat"
                     ++ Py.nl ++ Py.nl)
               :: EvOpenW (gitcatrc self) :: log s |}).
Proof.
  intros Hf Hn. unfold save_catalogue, bind, open_w, file_write, emit.
  cbn [files world log]. rewrite !file_lookup_store, !file_store_store.
  rewrite list_catalogue_listing by assumption.
  cbn [files world log]. rewrite !file_lookup_store, !file_store_store.
  reflexivity.
Qed.

Lemma saved_text_lines self :
  saved_text settings self
  = List.concat (map (fun l => l ++ Py.nl) (saved_lines settings self)).
Proof.
  unfold saved_text, saved_lines, save_settings, catalogue_lines.
  rewrite !map_app, !concat_app. cbn [map List.concat].
  repeat (rewrite <- app_assoc; cbn [app]).
  destruct (Py.eqb (settings_prefix settings) (environ_HOME settings));
    cbn [negb map List.concat app];
    repeat (rewrite <- app_assoc; cbn [app]);
    (destruct (catalogue self) as [|e c] eqn:E; [reflexivity|]);
    now rewrite (join_nl (map (entry_line self) (e :: c))) by discriminate.
Qed.

Lemma newline_free_app (a b : str) :
  newline_free (a ++ b) = newline_free a && newline_free b.
Proof. apply forallb_app. Qed.

Lemma newline_free_spaces (n : nat) : newline_free (repeat Py.SP n) = true.
Proof. induction n; simpl; auto. Qed.

Lemma entry_line_sep self (k r : str) :
  entry_line self (k, r) = Py.ljust (max self) k ++ sep ++ r.
Proof. reflexivity. Qed.

Lemma line_kind_entry_line self (k r : str) :
  storable_key k = true -> storable_remote r = true ->
  line_kind (entry_line self (k, r) ++ Py.nl) = Entry k r.
Proof.
  unfold storable_key, storable_remote, trimmed. intros Hk Hr.
  apply andb_true_iff in Hk as [Hk Hk3]. apply andb_true_iff in Hk as [Hk1 Hk2].
  apply andb_true_iff in Hr as [Hr Hr3]. apply andb_true_iff in Hr as [Hr1 Hr2].
  apply eqb_eq in Hk1, Hr1. apply negb_true_iff in Hk3, Hr3.
  rewrite entry_line_sep, <- !app_assoc.
  rewrite line_kind_single.
  - unfold Py.ljust. rewrite strip_pad by auto using forallb_isspace_repeat.
    now rewrite strip_pad.
  - now apply contains_sep_ljust.
  - now rewrite contains_sep_nl.
Qed.

Lemma newline_free_entry_line self (k r : str) :
  storable_key k = true -> storable_remote r = true ->
  newline_free (entry_line self (k, r)) = true.
Proof.
  unfold storable_key, storable_remote. intros Hk Hr.
  apply andb_true_iff in Hk as [Hk _]. apply andb_true_iff in Hk as [_ Hk].
  apply andb_true_iff in Hr as [Hr _]. apply andb_true_iff in Hr as [_ Hr].
  rewrite entry_line_sep. unfold Py.ljust.
  now rewrite !newline_free_app, Hk, Hr, newline_free_spaces.
Qed.

Lemma entries_app (a b : list str) : entries (a ++ b) = entries a ++ entries b.
Proof. apply flat_map_app. Qed.

Lemma saved_entry_lines self (c : Dict.t) :
  storable c = true ->
  forallb newline_free (map (entry_line self) c) = true
  /\ forallb well_formed (map (fun l => l ++ Py.nl) (map (entry_line self) c)) = true
  /\ entries (map (fun l => l ++ Py.nl) (map (entry_line self) c)) = c.
Proof.
  induction c as [|[k r] c IH]; intros H; [repeat split|].
  simpl in H. apply andb_true_iff in H as [H Hc].
  apply andb_true_iff in H as [Hk Hr].
  destruct (IH Hc) as (I1 & I2 & I3).
  cbn [map forallb]. rewrite entries_cons. unfold well_formed at 1.
  rewrite line_kind_entry_line, newline_free_entry_line, I1, I2, I3 by assumption.
  repeat split.
Qed.

(** The saved file, line by line: terminator-free lines, all well formed,
    whose entries are the settings line, if any, and the catalogue. *)
Lemma saved_lines_entries self :
  storable (catalogue self) = true -> storable_settings settings = true ->
  forallb newline_free (saved_lines settings self) = true
  /\ forallb well_formed (map (fun l => l ++ Py.nl) (saved_lines settings self))
     = true
  /\ entries (map (fun l => l ++ Py.nl) (saved_lines settings self))
     = settings_entries settings ++ catalogue self.
Proof.
  intros Hc Hs. unfold saved_lines, settings_entries, storable_settings in *.
  assert (T : forallb newline_free (catalogue_lines self) = true
              /\ forallb well_formed
                   (map (fun l => l ++ Py.nl) (catalogue_lines self)) = true
              /\ entries (map (fun l => l ++ Py.nl) (catalogue_lines self))
                 = catalogue self).
  { unfold catalogue_lines.
    destruct (catalogue self) as [|e c] eqn:E; [repeat split|].
    now apply saved_entry_lines. }
  destruct T as (T1 & T2 & T3). unfold str in *.
  rewrite !map_app, !forallb_app, !entries_app, T1, T2, T3.
  destruct (Py.eqb (settings_prefix settings) (environ_HOME settings)).
  - repeat split.
  - simpl in Hs. unfold storable_remote, trimmed in Hs.
    apply andb_true_iff in Hs as [Hs Hs3]. apply andb_true_iff in Hs as [Hs1 Hs2].
    apply eqb_eq in Hs1. apply negb_true_iff in Hs3.
    assert (K : line_kind (("prefix = " ++ settings_prefix settings) ++ Py.nl)
                = Entry "prefix" (settings_prefix settings)).
    { change (("prefix = " ++ settings_prefix settings) ++ Py.nl)
        with (("prefix" : str) ++ sep ++ (settings_prefix settings ++ Py.nl)).
      rewrite line_kind_single; [|reflexivity|now rewrite contains_sep_nl].
      now rewrite strip_pad. }
    cbn [map forallb entries flat_map]. unfold well_formed.
    rewrite K, newline_free_app, Hs2. repeat split.
Qed.

Lemma readlines_saved self :
  storable (catalogue self) = true -> storable_settings settings = true ->
  Py.readlines (saved_text settings self)
  = map (fun l => l ++ Py.nl) (saved_lines settings self).
Proof.
  intros Hc Hs. destruct (saved_lines_entries self Hc Hs) as (H & _).
  unfold Py.readlines. rewrite saved_text_lines.
  rewrite <- (app_nil_r (List.concat _)), readlines_lines by exact H.
  apply app_nil_r.
Qed.

(** Loading a file that holds [saved_text]. *)
Lemma read_saved self s :
  hasattr (options self) "repositories" = false ->
  storable (catalogue self) = true -> storable_settings settings = true ->
  NoDup (Dict.keys (settings_entries settings ++ catalogue self)) ->
  file_lookup (gitcatrc self) (files s) = Some (saved_text settings self) ->
  exists m,
    read_catalogue self s
    = (Ok (set_max (set_catalogue self
                      (settings_entries settings ++ catalogue self)) m), s).
Proof.
  intros Hf Hc Hs Hn Hfile.
  destruct (saved_lines_entries self Hc Hs) as (_ & Hwf & He).
  rewrite read_catalogue_unfold. unfold read_catalogue_file.
  cbn [gitcatrc set_catalogue files]. rewrite Hfile, readlines_saved by assumption.
  rewrite load_ok; cbn [catalogue set_catalogue app]; rewrite ?He; auto.
  rewrite repositories_all by exact Hf.
  cbn [catalogue set_catalogue].
  destruct (Dict.keys (settings_entries settings ++ catalogue self));
    eexists; reflexivity.
Qed.

End SaveLoad.

(** * The claims about the catalogue file *)

(** [repositories] reads the state and leaves it alone. *)
Lemma repositories_state {W : Type} {host : Host W} {faults : Faults W}
      (self : GitCat) (s : State W) :
  snd (repositories self s) = s.
Proof.
  unfold repositories.
  destruct (negb _); [reflexivity|]. unfold bind, getattr_str, getattr.
  destruct (lookup_attr _ _) as [[| | |p|]|]; try reflexivity.
  cbn. now destruct (re_compiles p).
Qed.

Lemma read_catalogue_inv {W : Type} {host : Host W} {faults : Faults W}
      (self self' : GitCat) (s s' : State W) (text : str) :
  file_lookup (gitcatrc self) (files s) = Some text ->
  read_catalogue self s = (Ok self', s') ->
  s' = s /\ prefix self' = prefix self
  /\ catalogue self' = entries (Py.readlines text)
  /\ forallb well_formed (Py.readlines text) = true
  /\ NoDup (Dict.keys (entries (Py.readlines text))).
Proof.
  intros Hfile H. rewrite read_catalogue_unfold in H.
  unfold read_catalogue_file in H.
  cbn [gitcatrc set_catalogue files] in H. rewrite Hfile in H.
  destruct (for_fold _ _ _ s) as [[self1|e] s1] eqn:F; [|discriminate].
  apply load_inv in F as (-> & Hwf & -> & _ & Hnd).
  cbn [catalogue set_catalogue app] in H.
  pose proof (repositories_state
                (set_catalogue (set_catalogue self [])
                   (entries (Py.readlines text))) s) as Hs.
  destruct (repositories _ s) as [[reps|e] s2] eqn:R; cbn [snd] in Hs; subst s2.
  - destruct reps; injection H as <- <-; repeat split; auto.
  - destruct e; try discriminate; injection H as <- <-; repeat split; auto.
Qed.


(** C1 (amended).  Saving a catalogue and loading the saved file gives the
    catalogue back, entries and order, when no filter is set, the settings
    prefix is the default one, the directory keys are all different, and
    every key and remote is storable: trimmed, free of line terminators,
    without the separator [" = "] inside, and, for a key, not ending in
    [" ="]. *)
Theorem save_then_read_catalogue :
  forall (W : Type) (host : Host W) (faults : Faults W) (settings : Settings)
         (self : GitCat) (s : State W),
    settings_prefix settings = environ_HOME settings ->
    hasattr (options self) "repositories" = false ->
    NoDup (Dict.keys (catalogue self)) ->
    storable (catalogue self) = true ->
    exists s1 self',
      save_catalogue settings self s = (Ok tt, s1)
      /\ read_catalogue self s1 = (Ok self', s1)
      /\ catalogue self' = catalogue self.
Proof.
  intros W host faults settings self s Hp Hf Hn Hc.
  destruct (save_catalogue_text settings self s Hf Hn) as [new Hs].
  assert (E : Py.eqb (settings_prefix settings) (environ_HOME settings) = true)
    by now apply eqb_eq.
  destruct (read_saved settings self
              {| world := world s;
                 files := file_store (gitcatrc self) (saved_text settings self)
                            (files s);
                 log := new ++ log s |}) as [m Hr]; auto.
  - unfold storable_settings. now rewrite E.
  - unfold settings_entries. now rewrite E.
  - apply file_lookup_store.
  - eexists _, _. split; [exact Hs|]. split; [exact Hr|].
    unfold settings_entries. now rewrite E.
Qed.

Lemma save_then_read_catalogue_witness :
  exists s1 self',
    save_catalogue (Settings_init Sample.home)
      (Sample.gitcat "add" [] false Sample.cat1) (Sample.start [] [] [])
    = (Ok tt, s1)
    /\ read_catalogue (Sample.gitcat "add" [] false Sample.cat1) s1 = (Ok self', s1)
    /\ catalogue self' = catalogue (Sample.gitcat "add" [] false Sample.cat1).
Proof.
  apply save_then_read_catalogue; try reflexivity.
  repeat constructor. simpl. tauto.
Defined.

(** C1 as stated fails: a catalogue with one key and a newline-free remote
    that holds the separator is saved as a line with two separators, and
    loading that file raises [ValueError], as it does for a key that ends
    in [" ="]; a key with a leading space comes back without it. *)
Lemma save_then_read_catalogue_counterexample :
  (let self := Sample.gitcat "add" [] false [("a" : str, "x = y" : str)] in
   let saved := save_catalogue (Settings_init Sample.home) self
                  (Sample.start [] [] []) in
   NoDup (Dict.keys (catalogue self))
   /\ forallb (fun e => newline_free (fst e) && newline_free (snd e))
        (catalogue self) = true
   /\ fst saved = Ok tt
   /\ fst (read_catalogue self (snd saved))
      = Raise (ValueError "too many values to unpack (expected 2)"))
  /\ (let self := Sample.gitcat "add" [] false [("a =" : str, "r" : str)] in
      let saved := save_catalogue (Settings_init Sample.home) self
                     (Sample.start [] [] []) in
      fst saved = Ok tt
      /\ fst (read_catalogue self (snd saved))
         = Raise (ValueError "too many values to unpack (expected 2)"))
  /\ (let self := Sample.gitcat "add" [] false [(" a" : str, "r" : str)] in
      let saved := save_catalogue (Settings_init Sample.home) self
                     (Sample.start [] [] []) in
      NoDup (Dict.keys (catalogue self))
      /\ forallb (fun e => newline_free (fst e) && newline_free (snd e))
           (catalogue self) = true
      /\ fst saved = Ok tt
      /\ exists self', fst (read_catalogue self (snd saved)) = Ok self'
                       /\ catalogue self' = [("a" : str, "r" : str)]
                       /\ catalogue self' <> catalogue self).
Proof.
  split; [|split]; cbv zeta.
  - repeat split; try reflexivity. repeat constructor. simpl. tauto.
  - split; reflexivity.
  - repeat split; try reflexivity; [repeat constructor; simpl; tauto|].
    eexists. split; [vm_compute; reflexivity|]. split; [reflexivity|].
    discriminate.
Qed.

(** C5 (amended).  A line of the catalogue file is ignored exactly when it
    does not hold the separator [" = "].  A line that holds it once, as
    [d ++ " = " ++ r], is an entry: its directory is [d] trimmed and its
    remote [r] trimmed, entered in the catalogue (or refused as a duplicate
    when the directory is already there). *)
Theorem read_catalogue_line_cases :
  forall (W : Type) (self : GitCat) (line : str) (s : State W),
    (read_catalogue_line self line s = (Ok self, s)
     <-> Py.contains sep line = false)
    /\ (forall d r,
          line = d ++ sep ++ r ->
          Py.contains sep (d ++ " =") = false ->
          Py.contains sep r = false ->
          read_catalogue_line self line s
          = if Dict.mem (Py.strip d) (catalogue self)
            then (Raise (SystemExit 1),
                  emit (duplicate_diagnostic (Py.strip d)) s)
            else (Ok (set_catalogue self
                        (Dict.set (Py.strip d) (Py.strip r) (catalogue self))),
                  s)).
Proof.
  intros W self line s. split.
  - rewrite read_line_kind, line_kind_none.
    destruct (line_kind line) as [|d r|]; split; try congruence.
    destruct (Dict.mem d (catalogue self)) eqn:M; [discriminate|].
    intros [= E]. exfalso.
    apply (f_equal catalogue) in E. cbn [catalogue set_catalogue] in E.
    rewrite set_new in E by exact M.
    apply (f_equal (@length _)) in E. rewrite length_app in E. simpl in E. lia.
  - intros d r -> Hd Hr. now rewrite read_line_kind, line_kind_single.
Qed.

Lemma read_catalogue_line_cases_witness :
  read_catalogue_line (Sample.gitcat "ls" [] false []) "Code/Prog1 = git@host"
    (Sample.start [] [] [])
  = (Ok (set_catalogue (Sample.gitcat "ls" [] false [])
           [("Code/Prog1" : str, "git@host" : str)]),
     Sample.start [] [] []).
Proof.
  exact (proj2 (read_catalogue_line_cases Sample.World
                  (Sample.gitcat "ls" [] false []) "Code/Prog1 = git@host"
                  (Sample.start [] [] []))
           "Code/Prog1" "git@host" eq_refl eq_refl eq_refl).
Defined.

(** C5 as stated fails: a line whose remote holds a further separator is
    not split once at the first one; the unpacking of the three pieces
    raises [ValueError] and nothing is entered. *)
Lemma read_catalogue_line_counterexample :
  Py.split sep "a = b = c" = [("a" : str); ("b" : str); ("c" : str)]
  /\ read_catalogue_line (Sample.gitcat "ls" [] false []) "a = b = c"
       (Sample.start [] [] [])
     = (Raise (ValueError "too many values to unpack (expected 2)"),
        Sample.start [] [] [])
  /\ fst (read_catalogue_line (Sample.gitcat "ls" [] false []) "a = b = c"
            (Sample.start [] [] []))
     <> Ok (set_catalogue (Sample.gitcat "ls" [] false [])
              [("a" : str, "b = c" : str)]).
Proof. repeat split. discriminate. Qed.
(** [repositories] never ends with [SystemExit]. *)
Lemma repositories_no_exit {W : Type} {host : Host W} {faults : Faults W}
      (self : GitCat) (s : State W) (n : Z) :
  fst (repositories self s) <> Raise (SystemExit n).
Proof.
  unfold repositories.
  destruct (negb _); [discriminate|]. unfold bind, getattr_str, getattr.
  destruct (lookup_attr _ _) as [[| | |p|]|]; try discriminate.
  cbn. destruct (re_compiles p); [discriminate|].
  cbn. unfold compile_exception. destruct (re_compile_error p); discriminate.
Qed.

(** C8 (amended).  The load of a catalogue file stops at the first entry
    line whose directory key has been read before, whatever the lines after
    it, when none of the lines before it holds the separator more than
    once: [error_message] prints the one line [git cat error: <key>
    appears in the catalogue more than once!] for that key, which holds no
    line terminator, and exits with status 1.  So does every file whose
    lines all hold the separator at most once and in which a key comes
    back.  Conversely a load of a file that can be opened ends with
    [SystemExit] only in this way.  And whatever the file, a load that
    returns has read keys that are all different: no entry is ever
    replaced by a later one. *)
Theorem read_catalogue_duplicate :
  forall (W : Type) (host : Host W) (faults : Faults W) (self : GitCat)
         (s : State W) (text : str),
    file_lookup (gitcatrc self) (files s) = Some text ->
    (forall pre line post k r,
        Py.readlines text = pre ++ line :: post ->
        forallb well_formed pre = true ->
        NoDup (Dict.keys (entries pre)) ->
        line_kind line = Entry k r ->
        In k (Dict.keys (entries pre)) ->
        newline_free k = true
        /\ read_catalogue self s
           = (Raise (SystemExit 1), emit (duplicate_diagnostic k) s)
        /\ exit_status (fst (read_catalogue self s)) = 1%Z)
    /\ (forallb well_formed (Py.readlines text) = true ->
        ~ NoDup (Dict.keys (entries (Py.readlines text))) ->
        exists pre line post k r,
          Py.readlines text = pre ++ line :: post
          /\ line_kind line = Entry k r
          /\ NoDup (Dict.keys (entries pre))
          /\ In k (Dict.keys (entries pre))
          /\ newline_free k = true
          /\ read_catalogue self s
             = (Raise (SystemExit 1), emit (duplicate_diagnostic k) s)
          /\ exit_status (fst (read_catalogue self s)) = 1%Z)
    /\ (forall n s',
          read_catalogue self s = (Raise (SystemExit n), s') ->
          exists pre line post k r,
            Py.readlines text = pre ++ line :: post
            /\ forallb well_formed pre = true
            /\ NoDup (Dict.keys (entries pre))
            /\ line_kind line = Entry k r
            /\ In k (Dict.keys (entries pre))
            /\ n = 1%Z /\ s' = emit (duplicate_diagnostic k) s)
    /\ (forall self' s',
          read_catalogue self s = (Ok self', s') ->
          NoDup (Dict.keys (entries (Py.readlines text)))
          /\ catalogue self' = entries (Py.readlines text)).
Proof.
  intros W host faults self s text Hfile.
  assert (R : forall k,
             for_fold (Py.readlines text) read_catalogue_line
               (set_catalogue self []) s
             = (Raise (SystemExit 1), emit (duplicate_diagnostic k) s) ->
             read_catalogue self s
             = (Raise (SystemExit 1), emit (duplicate_diagnostic k) s)).
  { intros k F. rewrite read_catalogue_unfold. unfold read_catalogue_file.
    cbn [gitcatrc set_catalogue files]. now rewrite Hfile, F. }
  split; [|split; [|split]].
  - intros pre line post k r E Hwf Hn Hk Hin.
    assert (R' := R k). rewrite E in R'.
    rewrite R' by (apply (load_stops pre post line k r); assumption).
    repeat split.
    apply (entry_key_one_line text line k r); [|exact Hk].
    rewrite E. apply in_or_app. right. now left.
  - intros Hwf Hdup.
    destruct (load_duplicate (Py.readlines text) (set_catalogue self []) s)
      as (pre & line & post & k & r & E & Hk & Hn & Hin & F); auto.
    { constructor. }
    exists pre, line, post, k, r. rewrite (R k F).
    repeat split; auto.
    apply (entry_key_one_line text line k r); [|exact Hk].
    rewrite E. apply in_or_app. right. now left.
  - intros n s' H. rewrite read_catalogue_unfold in H.
    unfold read_catalogue_file in H.
    cbn [gitcatrc set_catalogue files] in H. rewrite Hfile in H.
    destruct (for_fold _ _ _ s) as [[self1|e] s1] eqn:F.
    + exfalso. pose proof (repositories_no_exit self1 s1 n) as Hr.
      destruct (repositories self1 s1) as [[[|? ?]|e] s2]; try discriminate.
      destruct e; try discriminate. apply Hr. cbn [fst]. congruence.
    + injection H as -> ->.
      apply load_exit_inv in F; [|constructor].
      destruct F as (pre & line & post & k & r & E & Hwf & Hn & Hk & Hin & Hs).
      exists pre, line, post, k, r. repeat split; auto; apply Hs.
  - intros self' s' H.
    destruct (read_catalogue_inv self self' s s' text Hfile H)
      as (_ & _ & Hc & _ & Hn).
    now split.
Qed.

Lemma read_catalogue_duplicate_witness :
  newline_free "Code/Prog1" = true
  /\ read_catalogue (Sample.gitcat "ls" [] false [])
       (Sample.start twice_then_several_text [] [])
     = (Raise (SystemExit 1),
        emit (duplicate_diagnostic "Code/Prog1")
          (Sample.start twice_then_several_text [] []))
  /\ exit_status (fst (read_catalogue (Sample.gitcat "ls" [] false [])
                         (Sample.start twice_then_several_text [] []))) = 1%Z.
Proof.
  apply (proj1 (read_catalogue_duplicate Sample.World Sample.host
                  (no_faults Sample.World)
                  (Sample.gitcat "ls" [] false [])
                  (Sample.start twice_then_several_text [] [])
                  twice_then_several_text eq_refl)
           [("Code/Prog1 = git@host:one.git" ++ Py.nl)%list]
           ("Code/Prog1 = git@host:two.git" ++ Py.nl)%list
           [("a = b = c" ++ Py.nl)%list]
           "Code/Prog1" "git@host:two.git").
  - reflexivity.
  - reflexivity.
  - repeat constructor. simpl. tauto.
  - reflexivity.
  - now left.
Defined.

(** C8 as stated fails: in a file whose first line holds the separator
    twice and whose next two lines name the same directory, the load ends
    with the [ValueError] of the first line; no diagnostic is printed and
    the duplicate is never reported. *)
Lemma read_catalogue_duplicate_counterexample :
  ~ NoDup (Dict.keys (entries (Py.readlines several_text)))
  /\ read_catalogue (Sample.gitcat "ls" [] false [])
       (Sample.start several_text [] [])
     = (Raise (ValueError "too many values to unpack (expected 2)"),
        Sample.start several_text [] [])
  /\ (forall k,
        read_catalogue (Sample.gitcat "ls" [] false [])
          (Sample.start several_text [] [])
        <> (Raise (SystemExit 1),
            emit (duplicate_diagnostic k) (Sample.start several_text [] []))).
Proof.
  split; [|split].
  - vm_compute. intros H. inversion H as [|? ? Hn _]. apply Hn. now left.
  - reflexivity.
  - intros k. discriminate.
Qed.




(** * The executor *)

Lemma partition_char (c : ascii) (s : str) :
  match Py.partition [c] s with
  | None => ~ In c s
  | Some (a, b) => s = a ++ c :: b /\ ~ In c a
  end.
Proof.
  induction s as [|x s IH]; simpl; [tauto|].
  destruct (Ascii.eqb c x) eqn:E; simpl.
  - apply Ascii.eqb_eq in E. subst. split; [reflexivity|tauto].
  - apply Ascii.eqb_neq in E.
    destruct (Py.partition [c] s) as [[a b]|].
    + destruct IH as [-> Ha]. split; [reflexivity|]. intros [H|H]; auto.
    + intros [H|H]; auto.
Qed.

Lemma flat_map_foreign (c : ascii) (new a : str) :
  ~ In c a -> flat_map (fun x => if Ascii.eqb x c then new else [x]) a = a.
Proof.
  induction a as [|x a IH]; intros H; [reflexivity|].
  simpl. destruct (Ascii.eqb x c) eqn:E.
  - apply Ascii.eqb_eq in E. subst. exfalso. apply H. now left.
  - simpl. f_equal. apply IH. intros Hin. apply H. now right.
Qed.

(** Replacing one character is a character-by-character substitution,
    with any fuel that covers the string. *)
Lemma replace_fuel_char (c : ascii) (new : str) (n : nat) : forall s,
  length s <= n ->
  Py.replace_fuel n [c] new s
  = flat_map (fun x => if Ascii.eqb x c then new else [x]) s.
Proof.
  induction n as [|n IH]; intros s L.
  - destruct s; [reflexivity|simpl in L; lia].
  - simpl. pose proof (partition_char c s) as P.
    destruct (Py.partition [c] s) as [[a b]|].
    + destruct P as [-> Ha]. rewrite flat_map_app. cbn [flat_map].
      rewrite Ascii.eqb_refl, flat_map_foreign by exact Ha.
      rewrite IH; [reflexivity|]. rewrite length_app in L. simpl in L. lia.
    + now rewrite flat_map_foreign.
Qed.

Lemma replace_char (c : ascii) (new s : str) :
  Py.replace [c] new s
  = flat_map (fun x => if Ascii.eqb x c then new else [x]) s.
Proof. apply replace_fuel_char. reflexivity. Qed.

(** The two replacements of [Git.__init__] indent the text. *)
Lemma replace_indent (t : str) :
  Py.replace Py.cr (Py.nl ++ "  ") (Py.replace Py.nl (Py.nl ++ "  ") t)
  = indent t.
Proof.
  unfold Py.cr, Py.nl. rewrite !replace_char. unfold indent.
  induction t as [|x t IH]; [reflexivity|].
  cbn [flat_map]. rewrite flat_map_app, IH. f_equal.
  destruct (Ascii.eqb x Py.LF) eqn:E1.
  - reflexivity.
  - destruct (Ascii.eqb x Py.CR) eqn:E2; cbn; now rewrite ?E2.
Qed.

Section Executor.

Context {W : Type} {host : Host W} {faults : Faults W}.

(** [Git.__init__] by the streams of the subprocess: it raises when one
    of them does not decode, and builds the object otherwise; the
    subprocess has run in both cases. *)
Lemma Git_init_cases (rep command options : str) (s : State W) :
  Git_init rep command options s
  = let line := Py.strip ("git " ++ command ++ " " ++ options) in
    let '(git, w) := subprocess_run line (world s) in
    (if stdout_invalid line (world s) || stderr_invalid line (world s)
     then Raise UnicodeDecodeError
     else Ok (Git_of rep command options git),
     emit (EvGit rep command options git) (set_world w s)).
Proof.
  unfold Git_init. cbv zeta.
  destruct (subprocess_run _ (world s)) as [git w].
  unfold bind, decode, ret, raise.
  destruct (negb (returncode git =? 0)%Z), (stdout_invalid _ (world s)),
    (stderr_invalid _ (world s)); reflexivity.
Qed.

Lemma Git_init_decoded (rep command options : str) (s : State W) :
  stdout_invalid (Py.strip ("git " ++ command ++ " " ++ options)) (world s)
  = false ->
  stderr_invalid (Py.strip ("git " ++ command ++ " " ++ options)) (world s)
  = false ->
  Git_init rep command options s
  = let '(git, w) :=
      subprocess_run (Py.strip ("git " ++ command ++ " " ++ options))
        (world s) in
    (Ok (Git_of rep command options git),
     emit (EvGit rep command options git) (set_world w s)).
Proof. intros H1 H2. rewrite Git_init_cases. cbv zeta. now rewrite H1, H2. Qed.

End Executor.

(** In a run without faults the constructor returns. *)
Lemma Git_init_plain {W : Type} {host : Host W} (rep command options : str)
      (s : State W) :
  Git_init rep command options s
  = let '(git, w) :=
      subprocess_run (Py.strip ("git " ++ command ++ " " ++ options))
        (world s) in
    (Ok (Git_of rep command options git),
     emit (EvGit rep command options git) (set_world w s)).
Proof. now apply Git_init_decoded. Qed.

(** C4 (amended).  When the streams of the tool decode, [Git(rep,
    command, options)] returns an object whatever the exit status; when
    the status is not 0 the object is false as a condition ([__bool__] is
    [git_command_ok], which is [False]) and carries the diagnostic made of
    the repository key, the sub-command, the options and the trimmed,
    indented stderr text.  When the bytes of one of the streams are not
    UTF-8, the constructor raises [UnicodeDecodeError] once the tool has
    run, whatever the exit status. *)
Theorem Git_nonzero_exit :
  forall (W : Type) (host : Host W) (faults : Faults W)
         (rep command options : str) (s : State W),
    returncode
      (fst (subprocess_run (Py.strip ("git " ++ command ++ " " ++ options))
              (world s))) <> 0%Z ->
    (stdout_invalid (Py.strip ("git " ++ command ++ " " ++ options)) (world s)
     = false ->
     stderr_invalid (Py.strip ("git " ++ command ++ " " ++ options)) (world s)
     = false ->
     exists g s',
       Git_init rep command options s = (Ok g, s')
       /\ git_command_ok g = false
       /\ Git_bool g = git_command_ok g
       /\ git_error_message g
          = Some (rep ++ ": there was an error using git " ++ command ++ " "
                  ++ options ++ Py.nl ++ "  "
                  ++ indent
                       (Py.strip
                          (stderr
                             (fst (subprocess_run
                                     (Py.strip
                                        ("git " ++ command ++ " " ++ options))
                                     (world s)))))
                  ++ Py.nl))
    /\ (stdout_invalid (Py.strip ("git " ++ command ++ " " ++ options))
          (world s)
        || stderr_invalid (Py.strip ("git " ++ command ++ " " ++ options))
             (world s) = true ->
        Git_init rep command options s
        = (Raise UnicodeDecodeError,
           emit (EvGit rep command options
                   (fst (subprocess_run
                           (Py.strip ("git " ++ command ++ " " ++ options))
                           (world s))))
             (set_world
                (snd (subprocess_run
                        (Py.strip ("git " ++ command ++ " " ++ options))
                        (world s))) s))).
Proof.
  intros W host faults rep command options s H. split.
  - intros H1 H2. rewrite Git_init_decoded by assumption.
    destruct (subprocess_run _ (world s)) as [git w]. cbn [fst] in *.
    eexists _, _. split; [reflexivity|].
    apply Z.eqb_neq in H. unfold Git_bool, Git_of.
    cbn [git_command_ok git_error_message]. rewrite H, replace_indent.
    repeat split.
  - intros Hbad. rewrite Git_init_cases. cbv zeta.
    destruct (subprocess_run _ (world s)) as [git w]. cbn [fst snd].
    now rewrite Hbad.
Qed.

Lemma Git_nonzero_exit_witness :
  exists g s',
    Git_init "Code/Prog1" "fetch" "-q --progress"
      (Sample.start [] [] [Examples.fetch_fails]) = (Ok g, s')
    /\ git_command_ok g = false
    /\ Git_bool g = git_command_ok g
    /\ git_error_message g
       = Some ("Code/Prog1: there was an error using git fetch -q --progress"
               ++ Py.nl ++ "  fatal: unable to access the remote"
               ++ Py.nl ++ "  try again" ++ Py.nl).
Proof.
  apply (proj1 (Git_nonzero_exit Sample.World Sample.host
                  (no_faults Sample.World) "Code/Prog1" "fetch"
                  "-q --progress" (Sample.start [] [] [Examples.fetch_fails])
                  ltac:(discriminate))); reflexivity.
Defined.

(** C4 as stated fails: when [git fetch] exits with status 128 and the
    bytes on its [stderr] are not UTF-8, [Git.__init__] raises
    [UnicodeDecodeError] in the branch of the non-zero status, where it
    decodes [stderr] for the diagnostic; no object is built. *)
Lemma Git_nonzero_exit_counterexample :
  returncode
    (fst (subprocess_run (Py.strip ("git " ++ "fetch" ++ " " ++ "-q --progress"))
            (world (Sample.start [] [] [Examples.fetch_fails])))) = 128%Z
  /\ Git_init (faults := Examples.garbled_fetch) "Code/Prog1" "fetch"
       "-q --progress" (Sample.start [] [] [Examples.fetch_fails])
     = (Raise UnicodeDecodeError,
        emit (EvGit "Code/Prog1" "fetch" "-q --progress"
                (snd Examples.fetch_fails))
          (Sample.start [] [] [Examples.fetch_fails]))
  /\ forall g s',
       Git_init (faults := Examples.garbled_fetch) "Code/Prog1" "fetch"
         "-q --progress" (Sample.start [] [] [Examples.fetch_fails])
       <> (Ok g, s').
Proof. split; [reflexivity|]. split; [reflexivity|]. discriminate. Qed.

(** * [remove], [diff] and the filter *)

Section Commands.

Context {W : Type} {host : Host W} {faults : Faults W}.
Variable settings : Settings.
Implicit Types (self : GitCat) (s : State W).

Lemma resolve_directory_state self s :
  snd (resolve_directory self s) = s.
Proof.
  unfold resolve_directory, bind, getattr_str, getattr, getcwd, ret, raise.
  destruct (lookup_attr "git_directory" _) as [v|]; [|reflexivity].
  destruct v; try reflexivity;
    (destruct (lookup_attr "repository" _) as [[| | |p|]|]; reflexivity).
Qed.

(** [remove] never gets past the read of [rep]: it raises, changes
    nothing, and the exception is not the [SystemExit] of
    [error_message]. *)
Lemma remove_raises self s :
  exists e, remove settings self s = (Raise e, s)
            /\ (forall n, e <> SystemExit n)
            /\ (lookup_attr "git_directory" (opt_attrs (options self)) = Some VNone
                -> e = NameError "rep").
Proof.
  unfold remove, bind at 1.
  pose proof (resolve_directory_state self s) as E.
  destruct (resolve_directory self s) as [[dire|e] s1] eqn:R; cbn [snd] in E; subst s1.
  - exists (NameError "rep"). repeat split. discriminate.
  - exists e. split; [reflexivity|].
    unfold resolve_directory, bind, getattr_str, getattr, getcwd, ret, raise in R.
    destruct (lookup_attr "git_directory" _) as [v|].
    + split.
      * intros n ->.
        destruct v; try discriminate;
          (destruct (lookup_attr "repository" _) as [[| | |p|]|]; discriminate).
      * intros [= ->]. discriminate.
    + split; [|discriminate]. injection R as <-. discriminate.
Qed.

Lemma repositories_invalid self (pattern : str) s :
  lookup_attr "repositories" (opt_attrs (options self)) = Some (VStr pattern) ->
  re_compiles pattern = false ->
  repositories self s = (Raise (compile_exception pattern), s).
Proof.
  intros Ha Hc. unfold repositories, hasattr, bind, getattr_str, getattr.
  rewrite Ha. cbn. now rewrite Hc.
Qed.

(** The exception of [re.compile] is never the [SystemExit] of
    [error_message]. *)
Lemma compile_exception_kind (pattern : str) :
  (compile_exception pattern = ReError pattern
   \/ (exists msg, compile_exception pattern = ValueError msg)
   \/ compile_exception pattern = OverflowError
   \/ compile_exception pattern = RecursionError)
  /\ forall n, compile_exception pattern <> SystemExit n.
Proof.
  unfold compile_exception. destruct (re_compile_error pattern); split;
    try discriminate; eauto.
Qed.

(** A command that runs over the selected repositories asks for them
    first: when [repositories] raises, so does the command, at once. *)
Lemma run_command_select self s (e : Exn) :
  In (opt_command (options self)) multi_commands ->
  repositories self s = (Raise e, s) ->
  run_command settings self s = (Raise e, s).
Proof.
  intros Hin R. unfold run_command.
  repeat (destruct Hin as [<-|Hin]; [cbn [Py.eqb]|]); try contradiction;
    cbn;
    unfold branch, ls, list_catalogue, commit, diff, fetch, install, pull,
      push, status, bind; now rewrite R.
Qed.

Lemma read_catalogue_file_state self self' s s' :
  read_catalogue_file self s = (Ok self', s') ->
  s' = s /\ options self' = options self.
Proof.
  unfold read_catalogue_file. destruct (file_lookup _ _) as [text|].
  - intros H. apply load_inv in H as (-> & _ & -> & _). now split.
  - discriminate.
Qed.

End Commands.

(** C6 (what the code does).  [remove] never removes anything: on every
    input it raises before the catalogue is looked at, with the state as it
    was and with an exception that is not the [SystemExit] of
    [error_message]; when no directory is given the exception is the
    [NameError] of the name [rep].  At the failing input, with
    [Code/Prog1] catalogued, the current directory inside it and no
    directory argument, the invocation ends with that [NameError]: the
    entry stays, nothing is written and nothing is printed. *)
Theorem remove_never_removes :
  (forall (W : Type) (host : Host W) (faults : Faults W)
          (settings : Settings) (self : GitCat) (s : State W),
      exists e,
        remove settings self s = (Raise e, s)
        /\ (forall n, e <> SystemExit n)
        /\ (lookup_attr "git_directory" (opt_attrs (options self)) = Some VNone
            -> e = NameError "rep"))
  /\ main (Settings_init Sample.home)
       (Sample.opts "remove" [("git_directory" : str, VNone);
                              ("git_everything" : str, VBool false)])
       Examples.inside_prog1
     = (Raise (NameError "rep"), Examples.inside_prog1).
Proof.
  split; [|reflexivity].
  intros W host faults settings self s. apply remove_raises.
Qed.

(** C9 (amended).  When [re.compile] refuses the filter, [repositories]
    raises the exception of [re.compile], which is [re.error],
    [ValueError], [OverflowError] or [RecursionError] and never the
    [SystemExit] of [error_message].  An exception that is not a
    [ValueError] is caught nowhere: as soon as the catalogue file has been
    read, the invocation ends with it, whatever the command.  A
    [ValueError] is taken by the handler of [read_catalogue], which sets
    the key width to 0 and goes on to the command.  A command that runs
    over the selected repositories ends with the exception in both cases,
    before any repository is looked at; the state is as it was, so no
    diagnostic line has been printed. *)
Theorem filter_pattern_error_uncaught :
  forall (W : Type) (host : Host W) (faults : Faults W) (settings : Settings)
         (o : Options) (pattern : str) (s : State W) (self1 : GitCat)
         (s1 : State W),
    lookup_attr "repositories" (opt_attrs o) = Some (VStr pattern) ->
    re_compiles pattern = false ->
    read_catalogue_file (set_catalogue (GitCat_new o) []) s = (Ok self1, s1) ->
    (forall self s',
        options self = o ->
        repositories self s' = (Raise (compile_exception pattern), s'))
    /\ (compile_exception pattern = ReError pattern
        \/ (exists msg, compile_exception pattern = ValueError msg)
        \/ compile_exception pattern = OverflowError
        \/ compile_exception pattern = RecursionError)
    /\ (forall n, compile_exception pattern <> SystemExit n)
    /\ ((forall msg, compile_exception pattern <> ValueError msg) ->
        read_catalogue (GitCat_new o) s = (Raise (compile_exception pattern), s)
        /\ main settings o s = (Raise (compile_exception pattern), s))
    /\ (forall msg,
          compile_exception pattern = ValueError msg ->
          read_catalogue (GitCat_new o) s = (Ok (set_max self1 0), s)
          /\ main settings o s
             = (run_command settings (set_max self1 0) ;; ret tt)%py s)
    /\ (In (opt_command o) multi_commands ->
        main settings o s = (Raise (compile_exception pattern), s)
        /\ log (snd (main settings o s)) = log s).
Proof.
  intros W host faults settings o pattern s self1 s1 Ha Hc Hr.
  destruct (read_catalogue_file_state _ _ _ _ Hr) as [-> Ho].
  assert (R : forall self s',
             options self = o ->
             repositories self s' = (Raise (compile_exception pattern), s')).
  { intros self s' E. apply repositories_invalid; [|exact Hc]. now rewrite E. }
  destruct (compile_exception_kind pattern) as [Hk Hn].
  assert (C1 : (forall msg, compile_exception pattern <> ValueError msg) ->
               read_catalogue (GitCat_new o) s
               = (Raise (compile_exception pattern), s)).
  { intros Hv. rewrite read_catalogue_unfold, Hr, (R self1 s Ho).
    destruct Hk as [E|[[msg E]|[E|E]]]; rewrite E in *; try reflexivity.
    now destruct (Hv msg). }
  assert (C2 : forall msg, compile_exception pattern = ValueError msg ->
               read_catalogue (GitCat_new o) s = (Ok (set_max self1 0), s)).
  { intros msg E. rewrite read_catalogue_unfold, Hr, (R self1 s Ho).
    now rewrite E. }
  assert (C3 : In (opt_command o) multi_commands ->
               main settings o s = (Raise (compile_exception pattern), s)).
  { intros Hin. unfold main, GitCat_init, bind at 1 2.
    destruct Hk as [E|[[msg E]|[E|E]]];
      try (rewrite C1 by (intros msg; rewrite E; discriminate); reflexivity).
    rewrite (C2 msg E).
    rewrite (run_command_select settings (set_max self1 0) s
               (compile_exception pattern)); [reflexivity| |].
    - cbn [options set_max]. now rewrite Ho.
    - apply R. cbn [options set_max]. exact Ho. }
  split; [exact R|]. split; [exact Hk|]. split; [exact Hn|].
  split; [|split].
  - intros Hv. split; [now apply C1|].
    unfold main, GitCat_init, bind at 1 2. now rewrite C1.
  - intros msg E. split; [now apply (C2 msg)|].
    unfold main, GitCat_init, bind. now rewrite (C2 msg E).
  - intros Hin. rewrite (C3 Hin). now split.
Qed.

Lemma filter_pattern_error_uncaught_witness :
  main (Settings_init Sample.home)
    (Sample.opts "status" [("repositories" : str, VStr "(")])
    (Sample.start Examples.entry1 [] [])
  = (Raise (ReError "("), Sample.start Examples.entry1 [] [])
  /\ log (snd (main (Settings_init Sample.home)
                 (Sample.opts "status" [("repositories" : str, VStr "(")])
                 (Sample.start Examples.entry1 [] []))) = [].
Proof.
  pose proof (filter_pattern_error_uncaught Sample.World Sample.host
                (no_faults Sample.World) (Settings_init Sample.home)
                (Sample.opts "status" [("repositories" : str, VStr "(")]) "("
                (Sample.start Examples.entry1 [] []) _
                (Sample.start Examples.entry1 [] [])
                eq_refl eq_refl eq_refl) as (_ & _ & _ & _ & _ & H).
  apply H. do 8 right. now left.
Defined.

(** The same filter when [re.compile] refuses it with a [ValueError]:
    [read_catalogue] takes the exception, and [status] ends with it. *)
Example filter_pattern_ValueError :
  read_catalogue (faults := Examples.long_repeat)
    (GitCat_new (Sample.opts "status" [("repositories" : str, VStr "(")]))
    (Sample.start Examples.entry1 [] [])
  = (Ok (set_max
           (set_catalogue
              (GitCat_new (Sample.opts "status"
                             [("repositories" : str, VStr "(")]))
              [("Code/Prog1" : str, "git@host:org/prog1.git" : str)]) 0),
     Sample.start Examples.entry1 [] [])
  /\ main (faults := Examples.long_repeat) (Settings_init Sample.home)
       (Sample.opts "status" [("repositories" : str, VStr "(")])
       (Sample.start Examples.entry1 [] [])
     = (Raise (ValueError "Exceeds the limit for integer string conversion"),
        Sample.start Examples.entry1 [] []).
Proof. split; reflexivity. Qed.

(** C9 as stated fails: with the filter ["("] the invocation ends with the
    uncaught error of [re]; [error_message] is not reached, so there is no
    [git cat error] line and no [SystemExit]. *)
Lemma filter_pattern_error_counterexample :
  re_compiles (Host := Sample.host) "(" = false
  /\ main (Settings_init Sample.home)
       (Sample.opts "status" [("repositories" : str, VStr "(")])
       (Sample.start Examples.entry1 [] [])
     = (Raise (ReError "("), Sample.start Examples.entry1 [] [])
  /\ log (snd (main (Settings_init Sample.home)
                 (Sample.opts "status" [("repositories" : str, VStr "(")])
                 (Sample.start Examples.entry1 [] []))) = []
  /\ (forall n,
        fst (main (Settings_init Sample.home)
               (Sample.opts "status" [("repositories" : str, VStr "(")])
               (Sample.start Examples.entry1 [] []))
        <> Raise (SystemExit n)).
Proof. repeat split. discriminate. Qed.

(** * Failures stay with their repository *)

Lemma no_faults_faultless (W : Type) : faultless (no_faults W).
Proof. repeat split. Qed.

Section Totality.

Context {W : Type} {host : Host W} {faults : Faults W}.
Hypothesis Hfaults : faultless faults.
Implicit Types (self : GitCat) (s : State W).

Lemma grows_refl s : grows s s.
Proof. now exists []. Qed.

Lemma grows_trans s1 s2 s3 : grows s1 s2 -> grows s2 s3 -> grows s1 s3.
Proof.
  intros [n1 E1] [n2 E2]. exists (n2 ++ n1). now rewrite E2, E1, app_assoc.
Qed.



Lemma total_ret {A : Type} (a : A) : total (W := W) (ret a).
Proof. intros s. exists a, s. split; [reflexivity|apply grows_refl]. Qed.

Lemma total_bind {A B : Type} (m : M (State W) A) (k : A -> M (State W) B) :
  total m -> (forall a, total (k a)) -> total (bind m k).
Proof.
  intros Hm Hk s. destruct (Hm s) as (a & s1 & E1 & G1).
  destruct (Hk a s1) as (b & s2 & E2 & G2).
  exists b, s2. unfold bind. rewrite E1. split; [exact E2|].
  eapply grows_trans; eassumption.
Qed.









Lemma total_for_each {A : Type} (body : A -> M (State W) unit) (l : list A) :
  (forall x, In x l -> total (body x)) -> total (for_each l body).
Proof.
  induction l as [|x l IH]; intros H; [apply total_ret|].
  cbn [for_each]. apply total_bind; [apply H; now left|].
  intros _. apply IH. intros y Hy. apply H. now right.
Qed.

Lemma total_for_map {A B : Type} (f : A -> M (State W) B) (l : list A) :
  (forall x, In x l -> total (f x)) -> total (for_map l f).
Proof.
  induction l as [|x l IH]; intros H; [apply total_ret|].
  cbn [for_map]. apply total_bind; [apply H; now left|].
  intros b. apply total_bind; [|intros; apply total_ret].
  apply IH. intros y Hy. apply H. now right.
Qed.

Lemma get_keys (k : str) (d : Dict.t) :
  In k (Dict.keys d) -> exists v, Dict.get k d = Some v.
Proof.
  induction d as [|[k' v'] d IH]; simpl; [tauto|].
  intros [H|H].
  - subst. rewrite eqb_refl. eauto.
  - destruct (Py.eqb k k'); eauto.
Qed.


Lemma repositories_keys self s (keys : list str) (s' : State W) :
  repositories self s = (Ok keys, s') ->
  s' = s /\ incl keys (Dict.keys (catalogue self)).
Proof.
  unfold repositories. destruct (negb _).
  - intros [= <- <-]. split; [reflexivity|apply incl_refl].
  - unfold bind, getattr_str, getattr.
    destruct (lookup_attr _ _) as [[| | |p|]|]; try discriminate.
    cbn. destruct (re_compiles p); [|discriminate].
    intros [= <- <-]. split; [reflexivity|].
    intros k Hk. now apply filter_In in Hk.
Qed.

End Totality.


Section Probing.

Context {W : Type} {host : Host W} {faults : Faults W}.
Hypothesis Hfaults : faultless faults.
Implicit Types (self : GitCat) (s : State W).











End Probing.


Section Contained.

Context {W : Type} {host : Host W} {faults : Faults W}.
Hypothesis Hfaults : faultless faults.
Variable settings : Settings.
Implicit Types (self : GitCat) (s : State W).













Lemma read_catalogue_options self self' s s' :
  read_catalogue self s = (Ok self', s') -> options self' = options self.
Proof.
  rewrite read_catalogue_unfold.
  destruct (read_catalogue_file _ s) as [[self1|e] s1] eqn:F; [|discriminate].
  apply read_catalogue_file_state in F as [-> Ho].
  destruct (repositories self1 s) as [[reps|e] s2].
  - destruct reps; intros [= <- _]; exact Ho.
  - destruct e; try discriminate; intros [= <- _]; exact Ho.
Qed.


End Contained.




(** * Do no harm *)



Lemma ext_nil (l0 : list Event) : l0 = [] ++ l0.
Proof. reflexivity. Qed.

Lemma ext_cons (e : Event) (l new l0 : list Event) :
  l = new ++ l0 -> e :: l = (e :: new) ++ l0.
Proof. now intros ->. Qed.




Section Harmless.

Context {W : Type} {host : Host W}.
Implicit Types (self : GitCat) (s : State W).







(** A property of the new events that holds of no event and of the events
    of two runs one after the other holds of a loop when it holds of each
    run of the body. *)
Lemma for_each_log (P : list Event -> Prop) (body : str -> M (State W) unit)
      (l : list str) :
  P [] -> (forall a b, P a -> P b -> P (a ++ b)) ->
  (forall x s, exists new, log (snd (body x s)) = new ++ log s /\ P new) ->
  forall s, exists new,
    log (snd (for_each l body s)) = new ++ log s /\ P new.
Proof.
  intros Pnil Papp H. induction l as [|x l IH]; intros s.
  - exists []. now split.
  - cbn [for_each]. unfold bind. destruct (H x s) as (n1 & E1 & H1).
    destruct (body x s) as [[[]|e] s1]; cbn [snd] in *.
    + destruct (IH s1) as (n2 & E2 & H2). exists (n2 ++ n1).
      rewrite E2, E1, app_assoc. split; [reflexivity|now apply Papp].
    + now exists n1.
Qed.

End Harmless.

Ltac exec :=
  unfold rep_message, message;
  unfold bind, ret, print, isdir, exists_, chdir, makedirs, emit, set_world;
  repeat
    (cbn [fst snd log world files negb andb orb stdout_invalid stderr_invalid
          os_chdir_fails os_makedirs_fails no_faults] ||
     match goal with
     | |- context [@Git_init ?W ?h ?f ?r ?c ?o ?s] =>
         rewrite (@Git_init_cases W h f r c o s); cbv zeta;
         unfold emit, set_world
     | |- context [subprocess_run ?c ?w] =>
         destruct (subprocess_run c w) as [? ?] eqn:?
     | |- context [if ?c then _ else _] => destruct c eqn:?
     end).






Section Bodies.

Context {W : Type} {host : Host W} {faults : Faults W}.
Implicit Types (self : GitCat) (s : State W).

Lemma loop_log self (P : list Event -> Prop) (body : str -> M (State W) unit) s :
  P [] -> (forall a b, P a -> P b -> P (a ++ b)) ->
  (forall x s, exists new, log (snd (body x s)) = new ++ log s /\ P new) ->
  exists new,
    log (snd ((reps <- repositories self ;; for_each reps body) s))
    = new ++ log s
    /\ P new.
Proof.
  intros Pnil Papp H. unfold bind at 1.
  pose proof (repositories_state self s) as E.
  destruct (repositories self s) as [[keys|e] s1]; cbn [snd] in E; subst s1.
  - now apply for_each_log.
  - exists []. now split.
Qed.


(** Every call of the tool that [diff] makes is the probe [rev-parse] or
    the sub-command [diffoptions] without options. *)
Lemma diff_calls self s :
  exists new,
    log (snd (diff self s)) = new ++ log s /\ Forall diff_call new.
Proof.
  apply loop_log;
    [apply Forall_nil|intros a b Ha Hb; apply Forall_app; now split|].
  intros rep s'. unfold is_git_repository, rep_message.
  destruct (quiet self) eqn:Hq; exec;
    (eexists; split; [repeat (eapply ext_cons); apply ext_nil|]);
    repeat (apply Forall_cons;
            [cbn; first [exact I|left; reflexivity|right; split; reflexivity]|]);
    apply Forall_nil.
Qed.




End Bodies.



(** The run of the example does commit and push, and under the dry-run
    toggle the same run issues the two probes and the [--porcelain]
    commit only. *)
Lemma push_example :
  filter mutating
    (rev (log (snd (push (Sample.gitcat "push" [] false Sample.cat1)
                      Examples.ahead))))
  = [EvGit "Code/Prog1" "commit"
       ("--all --message=" ++ Py.dq ++ "git cat: updating   README" ++ Py.dq)
       Sample.done;
     EvGit "Code/Prog1" "push" "--porcelain --follow-tags" Sample.done]
  /\ filter mutating
       (rev (log (snd (push (Sample.gitcat "push" [] true Sample.cat1)
                         Examples.ahead))))
     = [].
Proof. split; reflexivity. Qed.

(** C7 (what the code does).  On every host, and with or without
    faults, the calls of the tool that
    [diff] makes are the probe [rev-parse] and the sub-command
    [diffoptions] without options: it never runs [diff], with [HEAD] or
    without.  At the failing input, the working copy [Code/Prog1], the
    tool refuses the unknown sub-command and nothing is reported for the
    repository. *)
Theorem diff_never_runs_diff :
  (forall (W : Type) (host : Host W) (faults : Faults W) (self : GitCat)
          (s : State W),
      exists new,
        log (snd (diff self s)) = new ++ log s
        /\ Forall diff_call new
        /\ forall rep options cp, ~ In (EvGit rep "diff" options cp) new)
  /\ rev (log (snd (main (Settings_init Sample.home) (Sample.opts "diff" [])
                      (Sample.start Examples.entry1 [Examples.prog1]
                         [Examples.rev_parse; Examples.no_such_command]))))
     = [EvIsDir Examples.prog1 true;
        EvChdir Examples.prog1;
        EvGit "Code/Prog1" "rev-parse" "--is-inside-work-tree"
          (snd Examples.rev_parse);
        EvGit "Code/Prog1" "diffoptions" [] (snd Examples.no_such_command)].
Proof.
  split; [|reflexivity].
  intros W host faults self s. destruct (diff_calls self s) as (new & E & H).
  exists new. split; [exact E|]. split; [exact H|].
  intros rep options cp Hin. rewrite Forall_forall in H.
  apply H in Hin. cbn in Hin. destruct Hin as [Hc|[Hc _]]; discriminate Hc.
Qed.

(** * Runs of the commands on the scripted host *)

(** [status] of a working copy with nothing to report. *)
Example status_up_to_date :
  let s := snd (main (Settings_init Sample.home)
                  (Sample.opts "status" [("git_local" : str, VBool false)])
                  (Sample.start Examples.entry1 [Examples.prog1]
                     [Examples.rev_parse])) in
  printed s = ["Code/Prog1  up to date" ++ Py.nl]
  /\ calls s
     = [("Code/Prog1" : str, "rev-parse" : str, "--is-inside-work-tree" : str);
        ("Code/Prog1" : str, "remote" : str, "update" : str);
        ("Code/Prog1" : str, "status" : str,
         "--porcelain --short --branch" : str);
        ("Code/Prog1" : str, "diff" : str, "--shortstat --no-color" : str)].
Proof. split; reflexivity. Qed.

(** [pull] when the directory is missing: one line, and no call of the
    tool. *)
Example pull_not_installed :
  let s := snd (main (Settings_init Sample.home) (Sample.opts "pull" [])
                  (Sample.start Examples.entry1 [] [])) in
  printed s = ["Code/Prog1  repository not installed" ++ Py.nl]
  /\ calls s = [].
Proof. split; reflexivity. Qed.

(** [push] with no changed file and a dry run that reports up to date:
    the two probes and no real push. *)
Example push_up_to_date :
  let s := snd (main (Settings_init Sample.home) (Sample.opts "push" [])
                  (Sample.start Examples.entry1 [Examples.prog1]
                     [Examples.rev_parse; Examples.nothing_to_push])) in
  printed s = ["Code/Prog1  up to date" ++ Py.nl]
  /\ calls s
     = [("Code/Prog1" : str, "rev-parse" : str, "--is-inside-work-tree" : str);
        ("Code/Prog1" : str, "diff-index" : str, "--name-only HEAD" : str);
        ("Code/Prog1" : str, "push" : str,
         "--porcelain --follow-tags --dry-run" : str)].
Proof. split; reflexivity. Qed.

(** [install] of a missing repository: a clone, and none under the
    dry-run toggle. *)
Example install_clones :
  calls (snd (main (Settings_init Sample.home) (Sample.opts "install" [])
                (Sample.start Examples.entry1 [] [])))
  = [("Code/Prog1" : str, "clone" : str,
      "--quiet git@host:org/prog1.git Prog1" : str)]
  /\ calls (snd (main (Settings_init Sample.home)
                   (Sample.opts "install" [("dry_run" : str, VBool true)])
                   (Sample.start Examples.entry1 [] [])))
     = [].
Proof. split; reflexivity. Qed.

(** [fetch] over two working copies when the tool fails in both: both are
    visited and the run returns. *)
Example fetch_fails_twice :
  let r := main (Settings_init Sample.home) (Sample.opts "fetch" [])
             (Sample.start (Examples.entry1 ++ Examples.entry2)
                [Examples.prog1; Examples.prog2]
                [Examples.rev_parse; Examples.fetch_fails]) in
  fst r = Ok tt
  /\ calls (snd r)
     = [("Code/Prog1" : str, "rev-parse" : str, "--is-inside-work-tree" : str);
        ("Code/Prog1" : str, "fetch" : str, "-q --progress" : str);
        ("Code/Prog2" : str, "rev-parse" : str, "--is-inside-work-tree" : str);
        ("Code/Prog2" : str, "fetch" : str, "-q --progress" : str)].
Proof. split; reflexivity. Qed.

(** [ls] marks the catalogued directory that is not a working copy. *)
Example ls_marks_missing :
  printed (snd (main (Settings_init Sample.home) (Sample.opts "ls" [])
                  (Sample.start (Examples.entry1 ++ Examples.entry2)
                     [Examples.prog1] [Examples.rev_parse])))
  = ["Code/Prog1  = git@host:org/prog1.git" ++ Py.nl
     ++ "Code/Prog2  ! git@host:org/prog2.git" ++ Py.nl].
Proof. reflexivity. Qed.

(** * The output of the executor *)

(** ** More on trimming *)

Lemma lstrip_head (s : str) (c : ascii) (t : str) :
  Py.lstrip s = c :: t -> Py.isspace c = false.
Proof.
  induction s as [|x s IH]; simpl; [discriminate|].
  destruct (Py.isspace x) eqn:Hx; [exact IH|].
  now intros [= <- _].
Qed.

Lemma lstrip_snoc (x : str) (c : ascii) :
  Py.isspace c = false -> exists l, Py.lstrip (x ++ [c]) = l ++ [c].
Proof.
  intros Hc. induction x as [|y x [l IH]]; simpl.
  - rewrite Hc. now exists [].
  - destruct (Py.isspace y); [now exists l|]. now exists (y :: x).
Qed.

Lemma rstrip_head (c : ascii) (t : str) :
  Py.isspace c = false -> exists t', Py.rstrip (c :: t) = c :: t'.
Proof.
  intros Hc. unfold Py.rstrip. simpl.
  destruct (lstrip_snoc (rev t) c Hc) as [l ->].
  rewrite rev_app_distr. simpl. now exists (rev l).
Qed.

Lemma lstrip_idem (s : str) : Py.lstrip (Py.lstrip s) = Py.lstrip s.
Proof.
  destruct (Py.lstrip s) as [|c t] eqn:E; [reflexivity|].
  simpl. now rewrite (lstrip_head _ _ _ E).
Qed.

Lemma rstrip_idem (s : str) : Py.rstrip (Py.rstrip s) = Py.rstrip s.
Proof. unfold Py.rstrip. now rewrite rev_involutive, lstrip_idem. Qed.

(** Trimming a trimmed text changes nothing. *)
Lemma strip_idem (s : str) : Py.strip (Py.strip s) = Py.strip s.
Proof.
  unfold Py.strip. destruct (Py.lstrip s) as [|c t] eqn:E; [reflexivity|].
  pose proof (lstrip_head _ _ _ E) as Hc.
  destruct (rstrip_head c t Hc) as [t' R].
  assert (L : Py.lstrip (Py.rstrip (c :: t)) = Py.rstrip (c :: t)).
  { rewrite R. simpl. now rewrite Hc. }
  now rewrite L, rstrip_idem.
Qed.

Lemma trimmed_strip (s : str) : trimmed (Py.strip s) = true.
Proof. unfold trimmed. rewrite strip_idem. apply eqb_refl. Qed.

Lemma lstrip_nil (s : str) : Py.lstrip s = [] <-> forallb Py.isspace s = true.
Proof.
  induction s as [|c s IH]; simpl; [tauto|].
  destruct (Py.isspace c); simpl; [exact IH|]. split; discriminate.
Qed.

(** A text trims to nothing exactly when it is white space only. *)
Lemma strip_nil (s : str) : Py.strip s = [] <-> forallb Py.isspace s = true.
Proof.
  rewrite <- lstrip_nil. unfold Py.strip. split.
  - destruct (Py.lstrip s) as [|c t] eqn:E; [reflexivity|].
    destruct (rstrip_head c t (lstrip_head _ _ _ E)) as [t' ->]. discriminate.
  - now intros ->.
Qed.

Lemma strip_head (s : str) (c : ascii) (t : str) :
  Py.strip s = c :: t -> Py.isspace c = false.
Proof.
  unfold Py.strip. destruct (Py.lstrip s) as [|x u] eqn:E; [discriminate|].
  pose proof (lstrip_head _ _ _ E) as Hx.
  destruct (rstrip_head x u Hx) as [u' ->]. now intros [= <- _].
Qed.

Lemma In_lstrip (c : ascii) (s : str) : In c (Py.lstrip s) -> In c s.
Proof.
  intros H. destruct (lstrip_suffix s) as (ws & E & _). rewrite E.
  apply in_or_app. now right.
Qed.

Lemma In_strip (c : ascii) (s : str) : In c (Py.strip s) -> In c s.
Proof.
  unfold Py.strip, Py.rstrip. intros H. apply in_rev, In_lstrip, in_rev in H.
  now apply In_lstrip.
Qed.

(** ** Cutting at line breaks *)

Lemma not_In_contains (c : ascii) (s : str) :
  ~ In c s -> Py.contains [c] s = false.
Proof.
  intros H. destruct (Py.contains [c] s) eqn:E; [|reflexivity].
  exfalso. apply H. exact (contains_In [] c [] s E).
Qed.

Lemma split_fuel_pieces (c : ascii) (n : nat) : forall (s : str),
  length s <= n ->
  Forall (fun l => ~ In c l /\ forall x, In x l -> In x s)
    (Py.split_fuel n [c] s).
Proof.
  induction n as [|n IH]; intros s L.
  - destruct s; [|simpl in L; lia]. repeat constructor; auto.
  - cbn [Py.split_fuel]. pose proof (partition_char c s) as P.
    destruct (Py.partition [c] s) as [[a b]|] eqn:E.
    + destruct P as [-> Ha]. constructor.
      * split; [exact Ha|]. intros x Hx. apply in_or_app. now left.
      * assert (Lb : length b <= n).
        { rewrite length_app in L. simpl in L. lia. }
        eapply Forall_impl; [|apply (IH b Lb)].
        intros l [Hl Hs]. split; [exact Hl|].
        intros x Hx. apply in_or_app. right. right. now apply Hs.
    + repeat constructor; auto.
Qed.

Lemma split_pieces (c : ascii) (s : str) :
  Forall (fun l => ~ In c l /\ forall x, In x l -> In x s) (Py.split [c] s).
Proof. now apply split_fuel_pieces. Qed.

(** Cutting a joined text at the line breaks gives the lines back. *)
Lemma split_join (c : ascii) (ls : list str) :
  ls <> [] -> Forall (fun l => ~ In c l) ls ->
  Py.split [c] (Py.join [c] ls) = ls.
Proof.
  induction ls as [|x ls IH]; intros Hne H; [contradiction|].
  inversion H as [|? ? Hx Hls]; subst.
  destruct ls as [|y ls].
  - simpl. apply split_none. now apply not_In_contains.
  - change (Py.join [c] (x :: y :: ls)) with (x ++ [c] ++ Py.join [c] (y :: ls)).
    unfold Py.split at 1. rewrite length_app. cbn [length app].
    rewrite Nat.add_succ_r. cbn [Py.split_fuel].
    pose proof (partition_first [] c x (Py.join [c] (y :: ls))) as P.
    cbn [app] in P. rewrite app_nil_r in P. rewrite P by now apply not_In_contains.
    f_equal. rewrite split_enough; [|discriminate|lia].
    apply IH; [discriminate|exact Hls].
Qed.

Lemma split_head (c x : ascii) (t : str) :
  x <> c -> exists a rest, Py.split [c] (x :: t) = (x :: a) :: rest.
Proof.
  intros Hx. unfold Py.split. cbn [length Py.split_fuel Py.partition Py.startswith].
  destruct (Ascii.eqb c x) eqn:E; [apply Ascii.eqb_eq in E; congruence|].
  cbn [andb]. destruct (Py.partition [c] t) as [[a b]|]; eauto.
Qed.

Lemma join_nil (sep0 : str) (x : str) (ls : list str) :
  x <> [] -> Py.join sep0 (x :: ls) <> [].
Proof.
  intros Hx. destruct ls; simpl; [exact Hx|].
  destruct x; [contradiction|discriminate].
Qed.

(** ** The two streams, cleaned *)

Lemma isspace_CR : Py.isspace Py.CR = true.
Proof. reflexivity. Qed.

Lemma isspace_LF : Py.isspace Py.LF = true.
Proof. reflexivity. Qed.

Lemma replace_cr_spaces (s : str) :
  forallb Py.isspace (Py.replace Py.cr Py.nl s) = forallb Py.isspace s.
Proof.
  unfold Py.cr. rewrite replace_char.
  induction s as [|x s IH]; [reflexivity|].
  cbn [flat_map]. rewrite forallb_app, IH. cbn [forallb]. f_equal.
  destruct (Ascii.eqb x Py.CR) eqn:E.
  - apply Ascii.eqb_eq in E. subst. reflexivity.
  - cbn. apply andb_true_r.
Qed.

Lemma replace_cr_free (s : str) : ~ In Py.CR (Py.replace Py.cr Py.nl s).
Proof.
  unfold Py.cr. rewrite replace_char. rewrite in_flat_map.
  intros (x & _ & H). destruct (Ascii.eqb x Py.CR) eqn:E.
  - destruct H as [H|[]]. discriminate.
  - destruct H as [H|[]]. subst. now rewrite Ascii.eqb_refl in E.
Qed.

(** The lines of a cleaned stream hold no line terminator. *)
Lemma stream_lines (s : str) :
  Forall (fun l => newline_free l = true)
    (Py.split Py.nl (Py.strip (Py.replace Py.cr Py.nl s))).
Proof.
  eapply Forall_impl; [|apply split_pieces].
  intros l [Hlf Hsub]. unfold newline_free. apply forallb_forall.
  intros x Hx. apply negb_true_iff, orb_false_iff. split.
  - apply Ascii.eqb_neq. intros ->. contradiction.
  - apply Ascii.eqb_neq. intros ->.
    apply (replace_cr_free s). now apply In_strip, Hsub.
Qed.

Lemma stream_blank (s : str) :
  Py.strip (Py.replace Py.cr Py.nl s) = [] <-> Py.strip s = [].
Proof. now rewrite !strip_nil, replace_cr_spaces. Qed.

Lemma stream_first (s : str) :
  Py.strip (Py.replace Py.cr Py.nl s) <> [] ->
  exists x a rest,
    Py.split Py.nl (Py.strip (Py.replace Py.cr Py.nl s)) = (x :: a) :: rest.
Proof.
  intros H. destruct (Py.strip _) as [|x t] eqn:E; [contradiction|].
  apply strip_head in E.
  destruct (split_head Py.LF x t) as (a & rest & R).
  - intros ->. discriminate.
  - now exists x, a, rest.
Qed.

Lemma newline_free_no_LF (l : str) : newline_free l = true -> ~ In Py.LF l.
Proof.
  unfold newline_free. rewrite forallb_forall. intros H Hin.
  apply H in Hin. discriminate.
Qed.

(** The lines that [Git.__init__] joins into [output]. *)
Lemma output_lines (rep command options : str) (cp : CompletedProcess) :
  exists ls,
    git_output (Git_of rep command options cp) = Py.join Py.nl ls
    /\ Forall (fun lin => exists t, lin = "  " ++ t /\ trimmed t = true
                                    /\ newline_free lin = true) ls.
Proof.
  eexists. split; [reflexivity|].
  apply Forall_forall. intros lin Hin.
  apply in_map_iff in Hin as (l & <- & Hl).
  apply filter_In in Hl as [Hl _].
  exists (Py.strip l). split; [reflexivity|]. split; [apply trimmed_strip|].
  change (newline_free ("  " ++ Py.strip l)) with (newline_free (Py.strip l)).
  apply newline_free_strip.
  apply in_app_or in Hl as [Hl|Hl];
    eapply Forall_forall in Hl; try apply stream_lines; exact Hl.
Qed.

(** X1.  The [output] of a run of the tool, when it is not empty, is made
    of lines that each start with the two spaces of the indentation,
    followed by a trimmed text, and that hold no carriage return: cutting
    [output] at the line feeds gives such lines only, whatever the tool
    wrote on its two streams. *)
Theorem Git_output_indented :
  forall (rep command options : str) (cp : CompletedProcess),
    git_output (Git_of rep command options cp) <> [] ->
    Forall (fun lin => exists t, lin = "  " ++ t /\ trimmed t = true
                                 /\ newline_free lin = true)
      (Py.split Py.nl (git_output (Git_of rep command options cp))).
Proof.
  intros rep command options cp Hne.
  destruct (output_lines rep command options cp) as (ls & E & H).
  rewrite E in *. unfold Py.nl. rewrite split_join; [exact H| |].
  - intros ->. now apply Hne.
  - eapply Forall_impl; [|exact H].
    intros l (t & _ & _ & Hl). now apply newline_free_no_LF.
Qed.

Lemma Git_output_indented_witness :
  Forall (fun lin => exists t, lin = "  " ++ t /\ trimmed t = true
                               /\ newline_free lin = true)
    (Py.split Py.nl
       (git_output
          (Git_of "Code/Prog1" "status" "--short"
             {| returncode := 0;
                stdout := "## master" ++ Py.nl ++ Py.nl ++ " M README " ++ Py.nl;
                stderr := "warning" ++ Py.cr ++ Py.nl |}))).
Proof.
  apply (Git_output_indented "Code/Prog1" "status" "--short"
           {| returncode := 0;
              stdout := "## master" ++ Py.nl ++ Py.nl ++ " M README " ++ Py.nl;
              stderr := "warning" ++ Py.cr ++ Py.nl |}).
  vm_compute. discriminate.
Defined.

(** X2.  The [output] of a run of the tool is empty exactly when the tool
    wrote nothing but white space on both its streams; the commands report
    [already up to date] on that condition. *)
Theorem Git_output_empty :
  forall (rep command options : str) (cp : CompletedProcess),
    git_output (Git_of rep command options cp) = []
    <-> Py.strip (stdout cp) = [] /\ Py.strip (stderr cp) = [].
Proof.
  intros rep command options cp. cbn [git_output Git_of].
  rewrite <- (stream_blank (stdout cp)), <- (stream_blank (stderr cp)).
  split.
  - intros H.
    destruct (Py.strip (Py.replace Py.cr Py.nl (stdout cp))) as [|x t] eqn:A.
    + split; [reflexivity|].
      destruct (Py.strip (Py.replace Py.cr Py.nl (stderr cp))) as [|y u] eqn:B;
        [reflexivity|].
      exfalso. revert H. rewrite <- B.
      destruct (stream_first (stderr cp)) as (z & a & rest & ->);
        [rewrite B; discriminate|].
      change (Py.split Py.nl []) with [([] : str)]. cbn [app filter Py.eqb negb map].
      apply join_nil. discriminate.
    + exfalso. revert H. rewrite <- A.
      destruct (stream_first (stdout cp)) as (z & a & rest & ->);
        [rewrite A; discriminate|].
      cbn [app filter Py.eqb negb map]. apply join_nil. discriminate.
  - intros [-> ->]. reflexivity.
Qed.

(** * The options handed to the tool, and the paths *)

Lemma contains_app_l (sub a b : str) :
  Py.contains sub a = true -> Py.contains sub (a ++ b) = true.
Proof.
  rewrite !contains_spec. intros (x & y & ->). exists x, (y ++ b).
  now rewrite <- !app_assoc.
Qed.

Lemma contains_suffix (a sub : str) : Py.contains sub (a ++ sub) = true.
Proof. apply contains_spec. exists a, []. now rewrite app_nil_r. Qed.

(** The text that [process_options] adds does not depend on the default
    options, which come first. *)
Lemma process_options_app (self : GitCat) (d x : str) :
  process_options self (d ++ x) = d ++ process_options self x.
Proof.
  unfold process_options. generalize (opt_attrs (options self)) as l.
  intros l. revert x. induction l as [|[n v] l IH]; intros x; [reflexivity|].
  cbn [fold_left]. destruct (Py.startswith "git_" n); [|apply IH].
  destruct v as [|[|]| | |]; rewrite <- ?app_assoc; apply IH.
Qed.

(** X3.  The options that a command hands to the tool are its default
    options followed by a text that does not depend on them, and that
    text is decided by the attributes that are passed alone, in their
    order: the attributes whose name does not start with [git_], and those
    set to [False], [None] or a number, add nothing. *)
Theorem process_options_passed :
  forall (self self' : GitCat) (d : str),
    process_options self d = d ++ process_options self []
    /\ (filter passed (opt_attrs (options self))
        = filter passed (opt_attrs (options self')) ->
        process_options self d = process_options self' d).
Proof.
  intros self self' d. split.
  - rewrite <- process_options_app. now rewrite app_nil_r.
  - unfold process_options.
    generalize (opt_attrs (options self)) as l.
    generalize (opt_attrs (options self')) as l'. intros l' l E.
    match goal with
    | |- fold_left ?f _ _ = _ =>
        assert (F : forall l d, fold_left f l d = fold_left f (filter passed l) d)
    end.
    { clear. induction l as [|[n v] l IH]; intros d; [reflexivity|].
      cbn [fold_left filter]. unfold passed at 1. cbn [fst snd].
      destruct (Py.startswith "git_" n) eqn:Hn; cbn [andb]; [|apply IH].
      destruct v as [|[|]| | |]; cbn [fold_left]; try rewrite Hn; apply IH. }
    now rewrite F, (F l'), E.
Qed.

Lemma process_options_passed_witness :
  process_options
    (Sample.gitcat "status"
       [("repositories" : str, VStr "Code"); ("git_local" : str, VBool false);
        ("git_branch" : str, VBool true)] false Sample.cat1)
    "--porcelain"
  = process_options
      (Sample.gitcat "status" [("git_branch" : str, VBool true)] false [])
      "--porcelain".
Proof.
  apply (process_options_passed
           (Sample.gitcat "status"
              [("repositories" : str, VStr "Code");
               ("git_local" : str, VBool false);
               ("git_branch" : str, VBool true)] false Sample.cat1)
           (Sample.gitcat "status" [("git_branch" : str, VBool true)] false [])
           "--porcelain").
  reflexivity.
Defined.

(** X4.  Every attribute [git_<name>] of the sub-command that is set to
    [True] reaches the tool as [ --<name>], with the underscores of the
    name turned into hyphens, whatever the command: the toggles that the
    program reads for itself ([git_local], [git_dry_run], [git_quiet])
    are handed on like the others. *)
Theorem process_options_flags :
  forall (self : GitCat) (d name : str),
    In (name, VBool true) (opt_attrs (options self)) ->
    Py.startswith "git_" name = true ->
    Py.contains (" --" ++ option_name name) (process_options self d) = true.
Proof.
  intros self d name Hin Hn. unfold process_options.
  revert Hin. generalize (opt_attrs (options self)) as l. intros l.
  assert (K : forall l acc,
             Py.contains (" --" ++ option_name name) acc = true ->
             Py.contains (" --" ++ option_name name)
               (fold_left
                  (fun (options : str) (attr : str * OptVal) =>
                     let '(option, val) := attr in
                     if Py.startswith "git_" option then
                       let opt := Py.replace "_" "-" (skipn 4 option) in
                       match val with
                       | VBool true => options ++ " --" ++ opt
                       | VList l => options ++ " --" ++ opt ++ "=" ++ Py.join "," l
                       | VStr v => options ++ " --" ++ opt ++ "=" ++ v
                       | _ => options
                       end
                     else options) l acc) = true).
  { clear. induction l as [|[n v] l IH]; intros acc H; [exact H|].
    cbn [fold_left]. apply IH. destruct (Py.startswith "git_" n); [|exact H].
    destruct v as [|[|]| | |]; try exact H; now apply contains_app_l. }
  revert d. induction l as [|[n v] l IH]; intros d Hin; [contradiction|].
  cbn [fold_left]. destruct Hin as [[= -> ->]|Hin]; [|now apply IH].
  rewrite Hn. apply K. unfold option_name. apply contains_suffix.
Qed.

Lemma process_options_flags_witness :
  Py.contains (" --" ++ option_name "git_local")
    (process_options
       (Sample.gitcat "status" [("git_local" : str, VBool true)] false
          Sample.cat1)
       "--porcelain --short --branch") = true.
Proof.
  apply (process_options_flags
           (Sample.gitcat "status" [("git_local" : str, VBool true)] false
              Sample.cat1)
           "--porcelain --short --branch" "git_local").
  - left. reflexivity.
  - reflexivity.
Defined.

(** ** Paths below the prefix *)

Lemma skipn_prefix_slash (p : str) (c : ascii) (rest : str) :
  skipn (length p + 1) (p ++ c :: rest) = rest.
Proof.
  rewrite Nat.add_comm. induction p as [|x p IH]; [reflexivity|exact IH].
Qed.

Lemma startswith_cons_false (dire : str) :
  Py.startswith "/" dire = false ->
  forall rest, dire <> "/" ++ rest.
Proof. intros H rest ->. discriminate. Qed.

(** X5.  A key of the catalogue that is a relative path is found again
    from its full path: where [os.path.join] puts a slash between the
    prefix and the key, [short_path] undoes [expand_path]. *)
Theorem short_path_expand_path :
  forall (W : Type) (host : Host W) (self : GitCat) (dire : str),
    Py.startswith "/" dire = false ->
    os_path_join (prefix self) dire = prefix self ++ "/" ++ dire ->
    short_path self (expand_path self dire) = dire.
Proof.
  intros W host self dire Hrel Hjoin. unfold expand_path, short_path.
  rewrite Hrel, Hjoin, startswith_app. apply skipn_prefix_slash.
Qed.

Lemma short_path_expand_path_witness :
  short_path (Sample.gitcat "add" [] false [])
    (expand_path (Sample.gitcat "add" [] false []) "Code/Prog1")
  = ("Code/Prog1" : str).
Proof.
  apply (short_path_expand_path Sample.World Sample.host
           (Sample.gitcat "add" [] false []) "Code/Prog1");
    reflexivity.
Defined.

(** X6.  Without a directory argument, [add] and [remove] work on the
    current directory itself when it is an absolute path outside the
    prefix, or a path [prefix/rest] that [os.path.join] builds back from
    the prefix and [rest]; nothing is asked of the host but the current
    directory. *)
Theorem resolve_directory_cwd :
  forall (W : Type) (host : Host W) (self : GitCat) (s : State W),
    lookup_attr "git_directory" (opt_attrs (options self)) = Some VNone ->
    (Py.startswith "/" (os_getcwd (world s)) = true
     /\ Py.startswith (prefix self) (os_getcwd (world s)) = false)
    \/ (exists rest,
          os_getcwd (world s) = prefix self ++ "/" ++ rest
          /\ Py.startswith "/" rest = false
          /\ os_path_join (prefix self) rest = prefix self ++ "/" ++ rest) ->
    resolve_directory self s = (Ok (os_getcwd (world s)), s).
Proof.
  intros W host self s Hattr Hcwd.
  unfold resolve_directory, bind, getattr, getcwd, ret. rewrite Hattr.
  unfold short_path, expand_path.
  destruct Hcwd as [[Habs Hout]|(rest & E & Hrel & Hjoin)].
  - now rewrite Hout, Habs.
  - rewrite E, startswith_app.
    change (prefix self ++ "/" ++ rest) with (prefix self ++ "/"%char :: rest).
    rewrite skipn_prefix_slash, Hrel. now rewrite Hjoin.
Qed.

Lemma resolve_directory_cwd_witness :
  resolve_directory
    (Sample.gitcat "add" [("git_directory" : str, VNone)] false [])
    Examples.inside_prog1
  = (Ok Examples.prog1, Examples.inside_prog1).
Proof.
  apply (resolve_directory_cwd Sample.World Sample.host
           (Sample.gitcat "add" [("git_directory" : str, VNone)] false [])
           Examples.inside_prog1).
  - reflexivity.
  - right. exists "Code/Prog1". repeat split.
Defined.

(** X7.  [short_path] cuts the prefix and one more character off every
    path that starts with the text of the prefix, whatever that character
    is.  So in a directory next to the prefix whose name goes on after it
    (prefix [/home/u], directory [/home/user2/x]), [add] and [remove]
    without a directory argument work on another directory than the
    current one: the one that the rest of the path names below the
    prefix. *)
Theorem resolve_directory_sibling :
  forall (W : Type) (host : Host W) (self : GitCat) (s : State W)
         (c : ascii) (rest : str),
    lookup_attr "git_directory" (opt_attrs (options self)) = Some VNone ->
    os_getcwd (world s) = prefix self ++ c :: rest ->
    c <> "/"%char ->
    Py.startswith "/" rest = false ->
    os_path_join (prefix self) rest = prefix self ++ "/" ++ rest ->
    short_path self (os_getcwd (world s)) = rest
    /\ resolve_directory self s = (Ok (prefix self ++ "/" ++ rest), s)
    /\ prefix self ++ "/" ++ rest <> os_getcwd (world s).
Proof.
  intros W host self s c rest Hattr E Hc Hrel Hjoin.
  assert (S : short_path self (os_getcwd (world s)) = rest).
  { unfold short_path. rewrite E.
    change (prefix self ++ c :: rest) with (prefix self ++ [c] ++ rest) at 1.
    rewrite startswith_app. apply skipn_prefix_slash. }
  split; [exact S|]. split.
  - unfold resolve_directory, bind, getattr, getcwd, ret. rewrite Hattr, S.
    unfold expand_path. now rewrite Hrel, Hjoin.
  - rewrite E. intros H. apply app_inv_head in H. injection H as H.
    now apply Hc.
Qed.

Lemma resolve_directory_sibling_witness :
  short_path (Sample.gitcat "add" [("git_directory" : str, VNone)] false [])
    "/home/user2/x" = ("er2/x" : str)
  /\ resolve_directory
       (Sample.gitcat "add" [("git_directory" : str, VNone)] false [])
       {| world := {| Sample.cwd := "/home/user2/x"; Sample.dirs := [];
                      Sample.replies := [] |};
          files := []; log := [] |}
     = (Ok ("/home/u/er2/x" : str),
        {| world := {| Sample.cwd := "/home/user2/x"; Sample.dirs := [];
                       Sample.replies := [] |};
           files := []; log := [] |})
  /\ ("/home/u/er2/x" : str) <> ("/home/user2/x" : str).
Proof.
  apply (resolve_directory_sibling Sample.World Sample.host
           (Sample.gitcat "add" [("git_directory" : str, VNone)] false [])
           {| world := {| Sample.cwd := "/home/user2/x"; Sample.dirs := [];
                          Sample.replies := [] |};
              files := []; log := [] |}
           "s"%char "er2/x").
  - reflexivity.
  - reflexivity.
  - discriminate.
  - reflexivity.
  - reflexivity.
Defined.

(** * The catalogue once loaded *)

Lemma strip_line_end (r : str) :
  forall c, In c (Py.strip (r ++ [Py.LF])) -> In c r.
Proof.
  intros c H. unfold Py.strip in H.
  destruct (lstrip_suffix (r ++ [Py.LF])) as (ws & E & _).
  destruct (exists_last (l := Py.lstrip (r ++ [Py.LF]))) as (y & z & Y).
  - intros N. rewrite N in H. contradiction.
  - rewrite Y in E, H. rewrite app_assoc in E.
    apply app_inj_tail in E as [-> <-].
    rewrite (rstrip_spaces y [Py.LF] eq_refl) in H.
    unfold Py.rstrip in H. apply in_rev, In_lstrip, in_rev in H.
    apply in_or_app. now right.
Qed.

(** The remote of an entry line of a file holds no line terminator. *)
Lemma entry_remote_one_line (text line k r : str) :
  In line (Py.readlines text) -> line_kind line = Entry k r ->
  newline_free r = true.
Proof.
  intros Hin Hk. unfold line_kind in Hk.
  destruct (Py.partition sep line) as [[d r0]|] eqn:P; [|discriminate].
  destruct (Py.contains sep r0); [discriminate|]. injection Hk as _ <-.
  apply partition_Some in P.
  destruct (readlines_shape text line Hin) as (body & Hb & [E|E]).
  - rewrite P in E. destruct (exists_last (l := r0)) as (r' & x & ->).
    { intros ->. rewrite app_nil_r in E.
      change (d ++ sep) with (d ++ ([Py.SP; "="%char] ++ [Py.SP])) in E.
      rewrite !app_assoc in E. apply app_inj_tail in E as [_ E]. discriminate. }
    rewrite !app_assoc in E. apply app_inj_tail in E as [E ->].
    rewrite <- E in Hb. unfold newline_free in Hb. rewrite forallb_app in Hb.
    apply andb_true_iff in Hb as [_ Hr].
    unfold newline_free. apply forallb_forall. intros c Hc.
    apply strip_line_end in Hc. rewrite forallb_forall in Hr. now apply Hr.
  - apply newline_free_strip. rewrite <- E, P in Hb.
    unfold newline_free in Hb. rewrite !forallb_app in Hb.
    apply andb_true_iff in Hb as [_ Hb]. now apply andb_true_iff in Hb as [_ Hb].
Qed.

Lemma entries_inv (lines : list str) (d r : str) :
  In (d, r) (entries lines) ->
  exists line, In line lines /\ line_kind line = Entry d r.
Proof.
  unfold entries. rewrite in_flat_map. intros (line & Hin & H).
  exists line. split; [exact Hin|].
  destruct (line_kind line) as [|d' r'|]; try contradiction.
  destruct H as [[= -> ->]|[]]. reflexivity.
Qed.

Lemma line_kind_trimmed (line d r : str) :
  line_kind line = Entry d r -> trimmed d = true /\ trimmed r = true.
Proof.
  unfold line_kind. destruct (Py.partition sep line) as [[d0 r0]|]; [|discriminate].
  destruct (Py.contains sep r0); [discriminate|]. intros [= <- <-].
  split; apply trimmed_strip.
Qed.

(** X8.  Whatever the catalogue file holds, the entries of a catalogue
    that has been loaded are clean: no directory key and no remote has
    white space at either end, and none holds a line terminator. *)
Theorem read_catalogue_clean :
  forall (W : Type) (host : Host W) (faults : Faults W) (self self' : GitCat)
         (s s' : State W),
    read_catalogue self s = (Ok self', s') ->
    Forall (fun e => trimmed (fst e) = true /\ trimmed (snd e) = true
                     /\ newline_free (fst e) = true
                     /\ newline_free (snd e) = true)
      (catalogue self').
Proof.
  intros W host faults self self' s s' H.
  destruct (file_lookup (gitcatrc self) (files s)) as [text|] eqn:Hfile.
  - destruct (read_catalogue_inv self self' s s' text Hfile H)
      as (_ & _ & -> & _ & _).
    apply Forall_forall. intros [d r] Hin.
    apply entries_inv in Hin as (line & Hline & Hk). cbn [fst snd].
    destruct (line_kind_trimmed _ _ _ Hk) as [Hd Hr].
    repeat split; auto.
    + exact (entry_key_one_line text line d r Hline Hk).
    + exact (entry_remote_one_line text line d r Hline Hk).
  - exfalso. unfold read_catalogue, bind at 1, read_catalogue_file in H.
    cbn [gitcatrc set_catalogue files] in H. rewrite Hfile in H. discriminate.
Qed.

Lemma read_catalogue_clean_witness :
  Forall (fun e => trimmed (fst e) = true /\ trimmed (snd e) = true
                   /\ newline_free (fst e) = true
                   /\ newline_free (snd e) = true)
    [("Code/Prog1" : str, "git@host:org/prog1.git" : str)].
Proof.
  apply (read_catalogue_clean Sample.World Sample.host
           (no_faults Sample.World)
           (Sample.gitcat "ls" [] false [])
           (set_max (set_catalogue (Sample.gitcat "ls" [] false [])
                       [("Code/Prog1" : str, "git@host:org/prog1.git" : str)]) 11)
           (Sample.start ("  Code/Prog1   =  git@host:org/prog1.git " ++ Py.cr
                          ++ Py.nl) [] [])
           (Sample.start ("  Code/Prog1   =  git@host:org/prog1.git " ++ Py.cr
                          ++ Py.nl) [] [])).
  reflexivity.
Defined.

Lemma length_ljust (w : nat) (k : str) :
  length k <= w -> length (Py.ljust w k) = w.
Proof.
  intros H. unfold Py.ljust. rewrite length_app, repeat_length. lia.
Qed.

Lemma repositories_set_max {W : Type} {host : Host W} {faults : Faults W}
      (self : GitCat) (m : nat) (s : State W) :
  repositories (set_max self m) s = repositories self s.
Proof. reflexivity. Qed.

(** The exceptions of [repositories]: the filter is not a string, or
    [re.compile] refuses it. *)
Lemma repositories_raises {W : Type} {host : Host W} {faults : Faults W}
      (self : GitCat) (s s' : State W) (e : Exn) :
  repositories self s = (Raise e, s') ->
  e = TypeError
  \/ exists p, re_compiles p = false /\ e = compile_exception p.
Proof.
  unfold repositories. destruct (negb _) eqn:Ha; [discriminate|].
  unfold bind, getattr_str, getattr. unfold hasattr in Ha.
  destruct (lookup_attr _ _) as [[| | |p|]|]; try discriminate;
    try (intros [= <- _]; now left).
  cbn. destruct (re_compiles p) eqn:Hp; [discriminate|].
  intros [= <- _]. right. now exists p.
Qed.

(** The width that [read_catalogue] leaves, whatever the faults: one
    more than the longest selected key, and 0 when no key is selected or
    when the handler has taken a [ValueError] of [re.compile]. *)
Lemma read_catalogue_width {W : Type} {host : Host W} {faults : Faults W}
      (self self' : GitCat) (s s' : State W) :
  read_catalogue self s = (Ok self', s') ->
  (exists keys,
      repositories self' s' = (Ok keys, s')
      /\ max self' = match keys with
                     | [] => 0
                     | _ :: _ => list_max (map (@length ascii) keys) + 1
                     end
      /\ forall k, In k keys ->
                   length k < max self'
                   /\ length (Py.ljust (max self') k) = max self')
  \/ (exists msg,
        repositories self' s' = (Raise (ValueError msg), s')
        /\ max self' = 0).
Proof.
  intros H. rewrite read_catalogue_unfold in H.
  destruct (read_catalogue_file _ s) as [[self1|e] s1] eqn:F; [|discriminate].
  apply read_catalogue_file_state in F as [-> _].
  pose proof (repositories_state self1 s) as Hs.
  destruct (repositories self1 s) as [[reps|e] s2] eqn:R; cbn [snd] in Hs;
    subst s2.
  - left. exists reps.
    assert (E : s' = s /\ self' = set_max self1
                                    match reps with
                                    | [] => 0
                                    | _ :: _ =>
                                        list_max (map (@length ascii) reps) + 1
                                    end).
    { destruct reps; injection H as <- <-; now split. }
    destruct E as [-> ->]. rewrite repositories_set_max. split; [exact R|].
    split; [reflexivity|]. cbn [max set_max]. intros k Hk.
    assert (L : length k <= list_max (map (@length ascii) reps)).
    { pose proof (proj1 (list_max_le (map (@length ascii) reps) _) (le_n _))
        as A.
      rewrite Forall_forall in A. apply A. now apply in_map. }
    destruct reps as [|x reps]; [contradiction|].
    split; [lia|]. apply length_ljust. lia.
  - destruct (repositories_raises _ _ _ _ R) as [->|(p & _ & ->)];
      [discriminate|].
    unfold compile_exception in *.
    destruct (re_compile_error p) as [|msg| |]; try discriminate.
    right. exists msg. injection H as <- <-.
    rewrite repositories_set_max. now split.
Qed.

(** X9.  The width [max] that [read_catalogue] leaves is one more than
    the longest selected key, and 0 when no key is selected: every
    selected key is shorter than [max], so that padded to [max] all the
    keys end in the same column, where the messages and the remotes
    start.  (The run is one without faults, where [re.compile] refuses a
    filter with [re.error]; [read_catalogue_width] is the statement for
    every run.) *)
Theorem read_catalogue_max :
  forall (W : Type) (host : Host W) (self self' : GitCat) (s s' : State W),
    read_catalogue self s = (Ok self', s') ->
    exists keys,
      repositories self' s' = (Ok keys, s')
      /\ max self' = match keys with
                     | [] => 0
                     | _ :: _ => list_max (map (@length ascii) keys) + 1
                     end
      /\ forall k, In k keys ->
                   length k < max self'
                   /\ length (Py.ljust (max self') k) = max self'.
Proof.
  intros W host self self' s s' H.
  destruct (read_catalogue_width _ _ _ _ H) as [Hk|(msg & R & _)];
    [exact Hk|].
  destruct (repositories_raises _ _ _ _ R) as [E|(p & _ & E)]; discriminate E.
Qed.

Lemma read_catalogue_max_witness :
  exists keys,
    repositories
      (set_max (set_catalogue (Sample.gitcat "ls" [] false [])
                  [("Code/Prog1" : str, "git@host:org/prog1.git" : str);
                   ("Notes" : str, "git@host:org/notes.git" : str)]) 11)
      (Sample.start (Examples.entry1 ++ "Notes = git@host:org/notes.git") [] [])
    = (Ok keys,
       Sample.start (Examples.entry1 ++ "Notes = git@host:org/notes.git") [] [])
    /\ 11 = match keys with
            | [] => 0
            | _ :: _ => list_max (map (@length ascii) keys) + 1
            end
    /\ forall k, In k keys ->
                 length k < 11 /\ length (Py.ljust 11 k) = 11.
Proof.
  apply (read_catalogue_max Sample.World Sample.host
           (Sample.gitcat "ls" [] false [])
           (set_max (set_catalogue (Sample.gitcat "ls" [] false [])
                       [("Code/Prog1" : str, "git@host:org/prog1.git" : str);
                        ("Notes" : str, "git@host:org/notes.git" : str)]) 11)
           (Sample.start (Examples.entry1 ++ "Notes = git@host:org/notes.git")
              [] [])
           (Sample.start (Examples.entry1 ++ "Notes = git@host:org/notes.git")
              [] [])).
  reflexivity.
Defined.

(** X10.  When the catalogue file cannot be opened, every invocation,
    whatever its command, ends at once: [error_message] prints the one
    line [git cat error: there was a problem reading the catalogue file
    <path>], the exit status is 1, and nothing else has happened: no
    probe, no call of the tool, no file written. *)
Theorem main_missing_catalogue :
  forall (W : Type) (host : Host W) (faults : Faults W) (settings : Settings)
         (o : Options) (s : State W),
    file_lookup (opt_catalogue o) (files s) = None ->
    main settings o s
    = (Raise (SystemExit 1),
       emit (EvPrint (("git cat error: "
                       ++ "there was a problem reading the catalogue file "
                       ++ opt_catalogue o) ++ Py.nl)) s)
    /\ exit_status (fst (main settings o s)) = 1%Z.
Proof.
  intros W host faults settings o s Hfile.
  assert (E : main settings o s
              = (Raise (SystemExit 1),
                 emit (EvPrint (("git cat error: "
                                 ++ "there was a problem reading the catalogue file "
                                 ++ opt_catalogue o) ++ Py.nl)) s)).
  { unfold main, GitCat_init, bind at 1 2. rewrite read_catalogue_unfold.
    unfold read_catalogue_file.
    cbn [gitcatrc set_catalogue GitCat_new files]. now rewrite Hfile. }
  now rewrite E.
Qed.

Lemma main_missing_catalogue_witness :
  main (Settings_init Sample.home) (Sample.opts "status" [])
    {| world := {| Sample.cwd := Sample.home; Sample.dirs := [];
                   Sample.replies := [] |};
       files := []; log := [] |}
  = (Raise (SystemExit 1),
     emit (EvPrint (("git cat error: "
                     ++ "there was a problem reading the catalogue file "
                     ++ Sample.rc) ++ Py.nl))
       {| world := {| Sample.cwd := Sample.home; Sample.dirs := [];
                      Sample.replies := [] |};
          files := []; log := [] |})
  /\ exit_status
       (fst (main (Settings_init Sample.home) (Sample.opts "status" [])
               {| world := {| Sample.cwd := Sample.home; Sample.dirs := [];
                              Sample.replies := [] |};
                  files := []; log := [] |})) = 1%Z.
Proof.
  apply (main_missing_catalogue Sample.World Sample.host
           (no_faults Sample.World)
           (Settings_init Sample.home) (Sample.opts "status" [])
           {| world := {| Sample.cwd := Sample.home; Sample.dirs := [];
                          Sample.replies := [] |};
              files := []; log := [] |}).
  reflexivity.
Defined.

(** * What the commands print, call and write *)

Ltac new_log := eexists; split; [repeat (eapply ext_cons); apply ext_nil|].

(** Running a body step by step, along every path. *)
Ltac run :=
  unfold rep_message, message;
  unfold bind, ret, raise, print, isdir, exists_, chdir, makedirs,
    emit, set_world;
  repeat
    (cbn [fst snd log world files negb andb orb stdout_invalid stderr_invalid
          os_chdir_fails os_makedirs_fails no_faults] ||
     match goal with
     | |- context [@Git_init ?W ?h ?f ?r ?c ?o ?s] =>
         rewrite (@Git_init_cases W h f r c o s); cbv zeta;
         unfold emit, set_world
     | |- context [subprocess_run ?c ?w] =>
         destruct (subprocess_run c w) as [? ?] eqn:?
     | |- context [if ?c then _ else _] => destruct c eqn:?
     | |- context [match ?x with Some _ => _ | None => _ end] =>
         destruct x eqn:?
     end).

Section Quiet.

Context {W : Type} {host : Host W} {faults : Faults W}.
Implicit Types (self : GitCat) (s : State W).

Lemma printed_new s s' (new : list Event) :
  log s' = new ++ log s -> Forall (fun e => is_print e = false) new ->
  printed s' = printed s.
Proof.
  intros E H. unfold printed. rewrite E, rev_app_distr, flat_map_app.
  apply Forall_rev in H. induction H as [|e l He _ IH]; [apply app_nil_r|].
  cbn [flat_map]. destruct e; try discriminate He; exact IH.
Qed.

Lemma branch_quiet self s :
  quiet self = true ->
  exists new, log (snd (branch self s)) = new ++ log s
              /\ Forall (fun e => is_print e = false) new.
Proof.
  intros Hq. apply loop_log;
    [apply Forall_nil|intros a b Ha Hb; apply Forall_app; now split|].
  intros rep s'. unfold is_git_repository, rep_message. rewrite Hq.
  run; new_log; repeat constructor.
Qed.

Lemma commit_quiet self s :
  exists new, log (snd (commit self s)) = new ++ log s
              /\ Forall (fun e => is_print e = false) new.
Proof.
  apply loop_log;
    [apply Forall_nil|intros a b Ha Hb; apply Forall_app; now split|].
  intros rep s'. unfold is_git_repository, commit_repository, changed_files.
  run; new_log; repeat constructor.
Qed.

Lemma fetch_quiet self s :
  quiet self = true ->
  exists new, log (snd (fetch self s)) = new ++ log s
              /\ Forall (fun e => is_print e = false) new.
Proof.
  intros Hq. apply loop_log;
    [apply Forall_nil|intros a b Ha Hb; apply Forall_app; now split|].
  intros rep s'. unfold is_git_repository, rep_message. rewrite Hq.
  run; new_log; repeat constructor.
Qed.

Lemma push_quiet self s :
  quiet self = true ->
  exists new, log (snd (push self s)) = new ++ log s
              /\ Forall (fun e => is_print e = false) new.
Proof.
  intros Hq. apply loop_log;
    [apply Forall_nil|intros a b Ha Hb; apply Forall_app; now split|].
  intros rep s'.
  unfold is_git_repository, commit_repository, changed_files, report_push,
    rep_message, message.
  rewrite Hq. run; new_log; repeat constructor.
Qed.

End Quiet.

(** X11.  With the quiet toggle set, [branch], [fetch], [commit] and
    [push] print nothing at all, on every host, whatever the tool
    answers, and with or without faults: their messages are all of the
    kind that the toggle silences, the report of a push that was made
    included. *)
Theorem quiet_prints_nothing :
  forall (W : Type) (host : Host W) (faults : Faults W) (self : GitCat)
         (s : State W) (command : GitCat -> M (State W) unit),
    quiet self = true ->
    In command [branch; fetch; commit; push] ->
    printed (snd (command self s)) = printed s
    /\ exists new,
         log (snd (command self s)) = new ++ log s
         /\ Forall (fun e => is_print e = false) new.
Proof.
  intros W host faults self s command Hq Hin.
  assert (H : exists new, log (snd (command self s)) = new ++ log s
                          /\ Forall (fun e => is_print e = false) new).
  { destruct Hin as [<-|[<-|[<-|[<-|[]]]]].
    - now apply branch_quiet.
    - now apply fetch_quiet.
    - apply commit_quiet.
    - now apply push_quiet. }
  split; [|exact H]. destruct H as (new & E & H).
  exact (printed_new _ _ new E H).
Qed.

Lemma quiet_prints_nothing_witness :
  printed (snd (push {| gitcatrc := Sample.rc; options := Sample.opts "push" [];
                        prefix := Sample.home; dry_run := false; quiet := true;
                        catalogue := Sample.cat1; max := 11 |} Examples.ahead))
  = printed Examples.ahead
  /\ exists new,
       log (snd (push {| gitcatrc := Sample.rc;
                         options := Sample.opts "push" [];
                         prefix := Sample.home; dry_run := false;
                         quiet := true; catalogue := Sample.cat1;
                         max := 11 |} Examples.ahead))
       = new ++ log Examples.ahead
       /\ Forall (fun e => is_print e = false) new.
Proof.
  apply (quiet_prints_nothing Sample.World Sample.host
           (no_faults Sample.World)
           {| gitcatrc := Sample.rc; options := Sample.opts "push" [];
              prefix := Sample.home; dry_run := false; quiet := true;
              catalogue := Sample.cat1; max := 11 |} Examples.ahead push).
  - reflexivity.
  - right. right. right. left. reflexivity.
Defined.

Lemma process_options_flag (self : GitCat) (d name : str) :
  In (name, VBool true) (opt_attrs (options self)) ->
  Py.startswith "git_" name = true ->
  Py.contains (" --" ++ option_name name) (process_options self d) = true.
Proof.
  intros Hin Hn. unfold process_options.
  revert Hin. generalize (opt_attrs (options self)) as l. intros l.
  match goal with
  | |- _ -> Py.contains ?t (fold_left ?f _ _) = true =>
      assert (K : forall l acc, Py.contains t acc = true ->
                                Py.contains t (fold_left f l acc) = true)
  end.
  { clear. induction l as [|[n v] l IH]; intros acc H; [exact H|].
    cbn [fold_left]. apply IH. destruct (Py.startswith "git_" n); [|exact H].
    destruct v as [|[|]| | |]; try exact H; now apply contains_app_l. }
  revert d. induction l as [|[n v] l IH]; intros d Hin; [contradiction|].
  cbn [fold_left]. destruct Hin as [[= -> ->]|Hin]; [|now apply IH].
  rewrite Hn. apply K. unfold option_name. apply contains_suffix.
Qed.

Lemma lookup_attr_In (name : str) (v : OptVal) (l : list (str * OptVal)) :
  lookup_attr name l = Some v -> In (name, v) l.
Proof.
  induction l as [|[n x] l IH]; simpl; [discriminate|].
  destruct (Py.eqb name n) eqn:E.
  - apply eqb_eq in E. intros [= ->]. subst. now left.
  - intros H. right. now apply IH.
Qed.

Section Local.

Context {W : Type} {host : Host W} {faults : Faults W}.
Implicit Types (self : GitCat) (s : State W).

Lemma status_calls self s (v : OptVal) :
  lookup_attr "git_local" (opt_attrs (options self)) = Some v ->
  truthy v = true ->
  exists new, log (snd (status self s)) = new ++ log s
              /\ Forall (status_call self) new.
Proof.
  intros Ha Hv. apply loop_log;
    [apply Forall_nil|intros a b Ha' Hb; apply Forall_app; now split|].
  intros rep s'. unfold is_git_repository, rep_message, getattr.
  rewrite Ha.
  destruct (quiet self) eqn:Hq; run; try congruence; new_log;
    repeat (apply Forall_cons;
            [cbn; first [exact I|left; reflexivity
                        |right; left; split; reflexivity
                        |right; right; split; reflexivity]|]);
    apply Forall_nil.
Qed.

End Local.

(** X12.  With the attribute [git_local] set, [status] never asks the
    remote: on every host, and with or without faults, its calls of the
    tool are the probe [rev-parse], [status] with the options of
    [process_options] and [diff --shortstat --no-color], and
    [remote update] is not among them.
    When the attribute is [True] the options of that [status] call hold
    [ --local], which [process_options] passes on like any other flag. *)
Theorem status_local :
  forall (W : Type) (host : Host W) (faults : Faults W) (self : GitCat)
         (s : State W) (v : OptVal),
    lookup_attr "git_local" (opt_attrs (options self)) = Some v ->
    truthy v = true ->
    (exists new,
        log (snd (status self s)) = new ++ log s
        /\ Forall (status_call self) new
        /\ forall rep options cp, ~ In (EvGit rep "remote" options cp) new)
    /\ (v = VBool true ->
        Py.contains " --local"
          (process_options self "--porcelain --short --branch") = true).
Proof.
  intros W host faults self s v Ha Hv. split.
  - destruct (status_calls self s v Ha Hv) as (new & E & H).
    exists new. split; [exact E|]. split; [exact H|].
    intros rep options cp Hin. rewrite Forall_forall in H.
    apply H in Hin. cbn in Hin.
    destruct Hin as [Hc|[[Hc _]|[Hc _]]]; discriminate Hc.
  - intros ->. apply lookup_attr_In in Ha.
    exact (process_options_flag self _ "git_local" Ha eq_refl).
Qed.

Lemma status_local_witness :
  (exists new,
      log (snd (status (Sample.gitcat "status" [("git_local" : str, VBool true)]
                          false Sample.cat1)
                  (Sample.start Examples.entry1 [Examples.prog1]
                     [Examples.rev_parse])))
      = new ++ log (Sample.start Examples.entry1 [Examples.prog1]
                      [Examples.rev_parse])
      /\ Forall (status_call (Sample.gitcat "status"
                                [("git_local" : str, VBool true)] false
                                Sample.cat1)) new
      /\ forall rep options cp, ~ In (EvGit rep "remote" options cp) new)
  /\ (VBool true = VBool true ->
      Py.contains " --local"
        (process_options
           (Sample.gitcat "status" [("git_local" : str, VBool true)] false
              Sample.cat1)
           "--porcelain --short --branch") = true).
Proof.
  apply (status_local Sample.World Sample.host
           (no_faults Sample.World)
           (Sample.gitcat "status" [("git_local" : str, VBool true)] false
              Sample.cat1)
           (Sample.start Examples.entry1 [Examples.prog1] [Examples.rev_parse])
           (VBool true)).
  - reflexivity.
  - reflexivity.
Defined.
(** ** The commands that write no file *)

Section Frame.

Context {W : Type} {host : Host W} {faults : Faults W}.
Variable settings : Settings.
Implicit Types (self : GitCat) (s : State W).

Lemma writes_nothing_ret {A : Type} (a : A) : writes_nothing (W := W) (ret a).
Proof. intros s. exists []. split; [reflexivity|constructor]. Qed.

Lemma writes_nothing_raise {A : Type} (e : Exn) :
  writes_nothing (W := W) (A := A) (raise e).
Proof. intros s. exists []. split; [reflexivity|constructor]. Qed.

Lemma writes_nothing_bind {A B : Type} (m : M (State W) A)
      (k : A -> M (State W) B) :
  writes_nothing m -> (forall a, writes_nothing (k a)) ->
  writes_nothing (bind m k).
Proof.
  intros Hm Hk s. unfold bind. destruct (Hm s) as (n1 & E1 & H1).
  destruct (m s) as [[a|e] s1]; cbn [snd] in *; [|now exists n1].
  destruct (Hk a s1) as (n2 & E2 & H2). exists (n2 ++ n1).
  rewrite E2, E1, app_assoc. split; [reflexivity|]. apply Forall_app. now split.
Qed.

Lemma writes_nothing_print (text : str) (ending : option str) :
  writes_nothing (print (W := W) text ending).
Proof. intros s. eexists [_]. split; [reflexivity|]. now repeat constructor. Qed.

Lemma writes_nothing_isdir (path : str) : writes_nothing (isdir path).
Proof. intros s. eexists [_]. split; [reflexivity|]. now repeat constructor. Qed.

Lemma writes_nothing_exists (path : str) : writes_nothing (exists_ path).
Proof. intros s. eexists [_]. split; [reflexivity|]. now repeat constructor. Qed.

Lemma writes_nothing_chdir (path : str) : writes_nothing (chdir path).
Proof.
  intros s. unfold chdir. destruct (os_chdir_fails path (world s)).
  - exists []. split; [reflexivity|constructor].
  - eexists [_]. split; [reflexivity|]. now repeat constructor.
Qed.

Lemma writes_nothing_makedirs (path : str) : writes_nothing (makedirs path).
Proof.
  intros s. unfold makedirs. destruct (os_makedirs_fails path (world s)).
  - exists []. split; [reflexivity|constructor].
  - eexists [_]. split; [reflexivity|]. now repeat constructor.
Qed.

Lemma writes_nothing_Git_init (rep command options : str) :
  writes_nothing (Git_init rep command options).
Proof.
  intros s. rewrite Git_init_cases. cbv zeta.
  destruct (subprocess_run _ (world s)) as [git w].
  eexists [_]. split; [reflexivity|]. now repeat constructor.
Qed.

Lemma writes_nothing_error_message {A : Type} (err : str) :
  writes_nothing (W := W) (A := A) (error_message err).
Proof.
  unfold error_message. apply writes_nothing_bind;
    [apply writes_nothing_print|intros _; apply writes_nothing_raise].
Qed.

Lemma writes_nothing_getattr (o : Options) (name : str) :
  writes_nothing (W := W) (getattr o name).
Proof.
  unfold getattr. destruct (lookup_attr _ _);
    [apply writes_nothing_ret|apply writes_nothing_raise].
Qed.

Lemma writes_nothing_catalogue_item self (k : str) :
  writes_nothing (W := W) (catalogue_item self k).
Proof.
  unfold catalogue_item. destruct (Dict.get _ _);
    [apply writes_nothing_ret|apply writes_nothing_raise].
Qed.

Lemma writes_nothing_repositories self : writes_nothing (repositories self).
Proof.
  intros s. exists []. rewrite repositories_state. split; [reflexivity|constructor].
Qed.

Lemma writes_nothing_for_each {A : Type} (body : A -> M (State W) unit)
      (l : list A) :
  (forall x, writes_nothing (body x)) -> writes_nothing (for_each l body).
Proof.
  intros H. induction l as [|x l IH]; [apply writes_nothing_ret|].
  cbn [for_each]. apply writes_nothing_bind; [apply H|]. intros _. exact IH.
Qed.

Lemma writes_nothing_for_map {A B : Type} (f : A -> M (State W) B)
      (l : list A) :
  (forall x, writes_nothing (f x)) -> writes_nothing (for_map l f).
Proof.
  intros H. induction l as [|x l IH]; [apply writes_nothing_ret|].
  cbn [for_map]. apply writes_nothing_bind; [apply H|]. intros y.
  apply writes_nothing_bind; [exact IH|]. intros ys. apply writes_nothing_ret.
Qed.

Lemma writes_nothing_for_fold {A B : Type} (body : B -> A -> M (State W) B)
      (l : list A) :
  (forall b x, writes_nothing (body b x)) ->
  forall b, writes_nothing (for_fold l body b).
Proof.
  intros H. induction l as [|x l IH]; intros b; [apply writes_nothing_ret|].
  cbn [for_fold]. apply writes_nothing_bind; [apply H|]. intros b'. apply IH.
Qed.

End Frame.

(** Steps of the automation: split a computation along its structure. *)
Ltac writes_nothing_step :=
  first
    [ apply writes_nothing_ret
    | apply writes_nothing_raise
    | apply writes_nothing_Git_init
    | apply writes_nothing_isdir
    | apply writes_nothing_exists
    | apply writes_nothing_chdir
    | apply writes_nothing_makedirs
    | apply writes_nothing_print
    | apply writes_nothing_error_message
    | apply writes_nothing_getattr
    | apply writes_nothing_catalogue_item
    | apply writes_nothing_repositories
    | apply writes_nothing_for_each; intro
    | apply writes_nothing_for_map; intro
    | apply writes_nothing_bind; [|intro]
    | progress cbv beta zeta
    | match goal with
      | |- writes_nothing (if ?c then _ else _) => destruct c
      | |- writes_nothing (match ?x with Some _ => _ | None => _ end) =>
          destruct x
      end ].

Section Readers.

Context {W : Type} {host : Host W} {faults : Faults W}.
Variable settings : Settings.
Implicit Types (self : GitCat) (s : State W).

Lemma writes_nothing_read_catalogue self :
  writes_nothing (read_catalogue self).
Proof.
  unfold read_catalogue. apply writes_nothing_bind.
  - intros s. unfold read_catalogue_file.
    destruct (file_lookup _ (files s));
      [|apply writes_nothing_error_message].
    apply writes_nothing_for_fold. clear. intros self line s.
    rewrite read_line_kind. destruct (line_kind line);
      try (exists []; split; [reflexivity|constructor]).
    destruct (Dict.mem _ _);
      [|exists []; split; [reflexivity|constructor]].
    eexists [_]. split; [reflexivity|]. now repeat constructor.
  - intros self1 s. unfold except_ValueError, bind.
    pose proof (repositories_state self1 s) as R.
    destruct (repositories self1 s) as [[[|k reps]|e] s1]; cbn [snd] in R;
      subst s1; try (exists []; split; [reflexivity|constructor]).
    destruct e; exists []; split; try reflexivity; constructor.
Qed.

Lemma writes_nothing_run_command self :
  In (opt_command (options self)) multi_commands ->
  writes_nothing (run_command settings self).
Proof.
  intros Hin. unfold run_command.
  unfold multi_commands in Hin. cbn [In] in Hin.
  repeat (destruct Hin as [Hin|Hin]); try contradiction; rewrite <- Hin;
    cbv [Py.eqb list_ascii_of_string Ascii.eqb Bool.eqb andb];
    unfold branch, ls, list_catalogue, commit, diff, fetch, install, pull,
      push, status, is_git_repository, commit_repository, changed_files,
      report_push, rep_message, message;
    repeat writes_nothing_step.
Qed.

End Readers.

(** X13.  The commands that run over the selected repositories ([branch],
    [ls], [commit], [diff], [fetch], [install], [pull], [push],
    [status]) write no file of their own: whatever the catalogue file
    holds, whatever the host answers, with or without faults and however
    the run ends, the program has opened no file for writing and has
    written to none.  Only [add] and [remove] call [save_catalogue].
    (What the tool does to the files on its side is its own.) *)
Theorem commands_write_no_file :
  forall (W : Type) (host : Host W) (faults : Faults W) (settings : Settings)
         (o : Options) (s : State W),
    In (opt_command o) multi_commands ->
    exists new,
      log (snd (main settings o s)) = new ++ log s
      /\ Forall (fun e => writes_file e = false) new
      /\ forall path text, ~ In (EvOpenW path) new /\ ~ In (EvWrite path text) new.
Proof.
  intros W host faults settings o s Hin.
  assert (H : writes_nothing (main settings o)).
  { unfold main, GitCat_init.
    apply writes_nothing_bind; [|intros _; apply writes_nothing_ret].
    intros s0. unfold bind.
    destruct (writes_nothing_read_catalogue (GitCat_new o) s0) as (n1 & E1 & H1).
    destruct (read_catalogue (GitCat_new o) s0) as [[self|e] s1] eqn:R;
      cbn [snd] in *; [|now exists n1].
    destruct (writes_nothing_run_command settings self) with (s := s1)
      as (n2 & E2 & H2).
    { now rewrite (read_catalogue_options _ _ _ _ R). }
    exists (n2 ++ n1). rewrite E2, E1, app_assoc. split; [reflexivity|].
    apply Forall_app. now split. }
  destruct (H s) as (new & E & F). exists new. split; [exact E|].
  split; [exact F|]. rewrite Forall_forall in F.
  intros path text. split; intros Hi; apply F in Hi; discriminate Hi.
Qed.

Lemma commands_write_no_file_witness :
  exists new,
    log (snd (main (Settings_init Sample.home) (Sample.opts "push" [])
                Examples.ahead))
    = new ++ log Examples.ahead
    /\ Forall (fun e => writes_file e = false) new
    /\ forall path text, ~ In (EvOpenW path) new /\ ~ In (EvWrite path text) new.
Proof.
  apply (commands_write_no_file Sample.World Sample.host
           (no_faults Sample.World)
           (Settings_init Sample.home) (Sample.opts "push" []) Examples.ahead).
  right. right. right. right. right. right. right. left. reflexivity.
Defined.
(** ** The method [git] *)

Lemma probes_app (a b : list Event) : probes (a ++ b) = probes b ++ probes a.
Proof. unfold probes. now rewrite rev_app_distr, flat_map_app. Qed.

Section GitRuns.

Context {W : Type} {host : Host W} {faults : Faults W}.
Implicit Types (self : GitCat) (s : State W).

(** What one run of the body of the loop of [git] leaves in the log, by
    the way it ends. *)
Lemma git_body self (commands : list str) (rep : str) s (m : M (State W) unit) :
  m = (is_git <- is_git_repository self (expand_path self rep) ;;
       if is_git then
         print ("Repository = " ++ rep ++ ", command = "
                ++ Py.join " " commands) None ;;
         raise TypeError
       else ret tt)%py ->
  exists new,
    log (snd (m s)) = new ++ log s
    /\ Forall (calls_among [("rev-parse" : str)]) new
    /\ match fst (m s) with
       | Ok _ =>
           Forall silent new /\ probes new = [expand_path self rep]
       | Raise e =>
           (e = TypeError
            /\ exists cp older,
                 new = EvPrint (("Repository = " ++ rep ++ ", command = "
                                 ++ Py.join " " commands) ++ Py.nl)
                       :: EvGit (Py.replace (prefix self ++ "/") []
                                   (expand_path self rep))
                            "rev-parse" "--is-inside-work-tree" cp
                       :: older
                 /\ working_copy_found
                      (EvGit (Py.replace (prefix self ++ "/") []
                                (expand_path self rep))
                         "rev-parse" "--is-inside-work-tree" cp) = true
                 /\ Forall silent older)
           \/ ((e = UnicodeDecodeError \/ exists p, e = OSError p)
               /\ Forall (fun e => is_print e = false) new)
       end.
Proof.
  intros ->. unfold is_git_repository. run; new_log.
  all: (split;
        [repeat (apply Forall_cons;
                 [cbn; first [exact I|left; reflexivity]|]);
         apply Forall_nil|]).
  all: cbn [fst].
  all: try (right; split;
            [first [left; reflexivity|right; eexists; reflexivity]
            |repeat constructor]).
  all: try (left; split; [reflexivity|]; eexists; eexists;
            split; [reflexivity|]; split;
            [cbn [working_copy_found Py.eqb]; assumption
            |repeat constructor]).
  all: try (split; [|reflexivity]; repeat constructor;
            cbn [working_copy_found Py.eqb]; assumption).
Qed.

(** The loop of [git] over a list of keys, for a body that ends as the
    body of the loop of [git] does. *)
Lemma git_loop self (commands : list str) (body : str -> M (State W) unit) :
  (forall rep s, exists new,
      log (snd (body rep s)) = new ++ log s
      /\ Forall (calls_among [("rev-parse" : str)]) new
      /\ match fst (body rep s) with
         | Ok _ =>
             Forall silent new /\ probes new = [expand_path self rep]
         | Raise e =>
             (e = TypeError
              /\ exists cp older,
                   new = EvPrint (("Repository = " ++ rep ++ ", command = "
                                   ++ Py.join " " commands) ++ Py.nl)
                         :: EvGit (Py.replace (prefix self ++ "/") []
                                     (expand_path self rep))
                              "rev-parse" "--is-inside-work-tree" cp
                         :: older
                   /\ working_copy_found
                        (EvGit (Py.replace (prefix self ++ "/") []
                                  (expand_path self rep))
                           "rev-parse" "--is-inside-work-tree" cp) = true
                   /\ Forall silent older)
             \/ ((e = UnicodeDecodeError \/ exists p, e = OSError p)
                 /\ Forall (fun e => is_print e = false) new)
         end) ->
  forall (keys : list str) s,
  exists new,
    log (snd (for_each keys body s)) = new ++ log s
    /\ Forall (calls_among [("rev-parse" : str)]) new
    /\ match fst (for_each keys body s) with
       | Ok _ =>
           Forall silent new /\ probes new = map (expand_path self) keys
       | Raise e =>
           (e = TypeError
            /\ exists k cp older,
                 In k keys
                 /\ new = EvPrint (("Repository = " ++ k ++ ", command = "
                                    ++ Py.join " " commands) ++ Py.nl)
                          :: EvGit (Py.replace (prefix self ++ "/") []
                                      (expand_path self k))
                               "rev-parse" "--is-inside-work-tree" cp
                          :: older
                 /\ working_copy_found
                      (EvGit (Py.replace (prefix self ++ "/") []
                                (expand_path self k))
                         "rev-parse" "--is-inside-work-tree" cp) = true
                 /\ Forall silent older)
           \/ ((e = UnicodeDecodeError \/ exists p, e = OSError p)
               /\ Forall (fun e => is_print e = false) new)
       end.
Proof.
  intros Hbody. induction keys as [|k keys IH]; intros s.
  - exists []. repeat split; constructor.
  - cbn [for_each]. unfold bind.
    destruct (Hbody k s) as (n1 & E1 & C1 & H1).
    destruct (body k s) as [[[]|e] s1]; cbn [fst snd] in *.
    + destruct (IH s1) as (n2 & E2 & C2 & H2). exists (n2 ++ n1).
      rewrite E2, E1, app_assoc. split; [reflexivity|].
      split; [apply Forall_app; now split|].
      destruct H1 as [Q1 P1].
      destruct (fst (for_each keys body s1)) as [[]|e].
      * destruct H2 as [Q2 P2]. split; [apply Forall_app; now split|].
        rewrite probes_app, P1, P2. reflexivity.
      * destruct H2 as [(-> & k' & cp & older & Hk & -> & Hf & Ho)|[He Hq]].
        -- left. split; [reflexivity|].
           exists k', cp, (older ++ n1). split; [now right|].
           split; [reflexivity|]. split; [exact Hf|].
           apply Forall_app. now split.
        -- right. split; [exact He|]. apply Forall_app. split; [exact Hq|].
           eapply Forall_impl; [|exact Q1]. now intros x [Hx _].
    + exists n1. split; [exact E1|]. split; [exact C1|].
      destruct H1 as [(-> & cp & older & -> & Hf & Ho)|H1]; [left|now right].
      split; [reflexivity|]. exists k, cp, older. split; [now left|].
      now repeat split.
Qed.

End GitRuns.

(** X14.  The method [git] never runs the command it is given: on every
    host, and with or without faults, its only calls of the tool are the
    probes [rev-parse].  It goes through the selected keys in order, and
    at the first one whose probe finds a working copy it prints the line
    [Repository = <key>, command = <command>] and stops with the
    [TypeError] of the call [Git(git_command)], which lacks an argument:
    a run that ends with [TypeError] has that line as its last event,
    right after the probe that found the working copy, and has printed
    nothing before; a run that returns has probed every selected key,
    found no working copy and printed nothing; a run that ends otherwise
    has ended with the exception of a fault and has printed nothing. *)
Theorem git_never_runs :
  forall (W : Type) (host : Host W) (faults : Faults W) (self : GitCat)
         (commands : list str) (s : State W),
    exists new,
      log (snd (git self commands s)) = new ++ log s
      /\ Forall (calls_among [("rev-parse" : str)]) new
      /\ (fst (git self commands s) = Ok tt ->
          Forall (fun e => is_print e = false) new)
      /\ (Exists (fun e => is_print e = true) new ->
          fst (git self commands s) = Raise TypeError)
      /\ forall keys,
           repositories self s = (Ok keys, s) ->
           match fst (git self commands s) with
           | Ok _ =>
               Forall silent new /\ probes new = map (expand_path self) keys
           | Raise e =>
               (e = TypeError
                /\ exists k cp older,
                     In k keys
                     /\ new = EvPrint (("Repository = " ++ k ++ ", command = "
                                        ++ Py.join " " commands) ++ Py.nl)
                              :: EvGit (Py.replace (prefix self ++ "/") []
                                          (expand_path self k))
                                   "rev-parse" "--is-inside-work-tree" cp
                              :: older
                     /\ working_copy_found
                          (EvGit (Py.replace (prefix self ++ "/") []
                                    (expand_path self k))
                             "rev-parse" "--is-inside-work-tree" cp) = true
                     /\ Forall silent older)
               \/ ((e = UnicodeDecodeError \/ exists p, e = OSError p)
                   /\ Forall (fun e => is_print e = false) new)
           end.
Proof.
  intros W host faults self commands s.
  pose proof (repositories_state self s) as R.
  destruct (repositories self s) as [[keys|e] s1] eqn:Hr; cbn [snd] in R;
    subst s1.
  - assert (G : exists body,
               git self commands s = for_each keys body s
               /\ forall rep s0, exists new,
                    log (snd (body rep s0)) = new ++ log s0
                    /\ Forall (calls_among [("rev-parse" : str)]) new
                    /\ match fst (body rep s0) with
                       | Ok _ =>
                           Forall silent new
                           /\ probes new = [expand_path self rep]
                       | Raise e =>
                           (e = TypeError
                            /\ exists cp older,
                                 new = EvPrint (("Repository = " ++ rep
                                                 ++ ", command = "
                                                 ++ Py.join " " commands)
                                                ++ Py.nl)
                                       :: EvGit (Py.replace (prefix self ++ "/")
                                                   [] (expand_path self rep))
                                            "rev-parse" "--is-inside-work-tree"
                                            cp
                                       :: older
                                 /\ working_copy_found
                                      (EvGit (Py.replace (prefix self ++ "/")
                                                [] (expand_path self rep))
                                         "rev-parse" "--is-inside-work-tree"
                                         cp) = true
                                 /\ Forall silent older)
                           \/ ((e = UnicodeDecodeError
                                \/ exists p, e = OSError p)
                               /\ Forall (fun e => is_print e = false) new)
                       end).
    { eexists. split.
      - unfold git, bind at 1. rewrite Hr. reflexivity.
      - intros rep s0. now apply git_body. }
    destruct G as (body & -> & Hbody).
    destruct (git_loop self commands body Hbody keys s) as (new & E & C & H).
    exists new. split; [exact E|]. split; [exact C|].
    destruct (fst (for_each keys body s)) as [[]|e].
    + destruct H as [Q P]. split; [|split].
      * intros _. eapply Forall_impl; [|exact Q]. now intros x [Hx _].
      * intros Hp. exfalso. apply Exists_exists in Hp as (x & Hin & Hx).
        rewrite Forall_forall in Q. pose proof (proj1 (Q x Hin)). congruence.
      * intros keys' [= <-]. now split.
    + split; [discriminate|]. split.
      * intros Hp. destruct H as [(-> & _)|[_ Hq]]; [reflexivity|].
        exfalso. apply Exists_exists in Hp as (x & Hin & Hx).
        rewrite Forall_forall in Hq. specialize (Hq x Hin). congruence.
      * intros keys' [= <-]. exact H.
  - assert (G : git self commands s = (Raise e, s)).
    { unfold git, bind at 1. now rewrite Hr. }
    rewrite G. exists []. cbn [fst snd]. split; [reflexivity|].
    split; [constructor|].
    split; [discriminate|]. split; [|discriminate].
    intros Hp. now apply Exists_nil in Hp.
Qed.

(** The method [git] on the working copy of the examples: the probe, the
    line, and the [TypeError]; no word of the command reaches the tool. *)
Example git_example :
  let r := git (faults := no_faults Sample.World)
             (Sample.gitcat "git" [] false Sample.cat1)
             [("log" : str); ("--oneline" : str)]
             (Sample.start Examples.entry1 [Examples.prog1]
                [Examples.rev_parse]) in
  fst r = Raise TypeError
  /\ printed (snd r)
     = ["Repository = Code/Prog1, command = log --oneline" ++ Py.nl]
  /\ calls (snd r)
     = [("Code/Prog1" : str, "rev-parse" : str,
         "--is-inside-work-tree" : str)].
Proof. repeat split. Qed.

(** ** [install] under the dry-run toggle *)

Lemma calls_app {W : Type} (s s' : State W) (new : list Event) :
  log s' = new ++ log s ->
  calls s'
  = calls s
    ++ flat_map (fun e => match e with
                          | EvGit rep command options _ => [(rep, command, options)]
                          | _ => []
                          end) (rev new).
Proof. intros E. unfold calls. now rewrite E, rev_app_distr, flat_map_app. Qed.

(** X15.  The dry-run toggle does not keep [install] from touching the
    file system.  For a selected key whose directory does not exist,
    [install] under the toggle calls the tool not once, but it still
    creates the parent directory with [os.makedirs] and changes into it.
    (The run is one without faults: the two calls succeed.) *)
Theorem install_dry_run_missing :
  forall (W : Type) (host : Host W) (self : GitCat) (s : State W) (k : str),
    dry_run self = true ->
    repositories self s = (Ok [k], s) ->
    os_path_exists (expand_path self k) (world s) = false ->
    exists s',
      install self s = (Ok tt, s')
      /\ calls s' = calls s
      /\ In (EvMakedirs (os_path_dirname (expand_path self k))) (log s')
      /\ world s'
         = os_chdir (os_path_dirname (expand_path self k))
             (os_makedirs (os_path_dirname (expand_path self k)) (world s)).
Proof.
  intros W host self s k Hdry Hr He.
  unfold install, bind at 1. rewrite Hr. cbn [for_each].
  unfold rep_message. rewrite Hdry.
  unfold bind, ret, exists_, print, makedirs, chdir, emit, set_world.
  cbn [world files log fst snd]. rewrite He. cbn [negb].
  destruct (negb (true && quiet self));
    (eexists; split; [reflexivity|]); cbn [world log];
    (split; [|split; [|reflexivity]]).
  - unfold calls. cbn [log rev app]. rewrite !flat_map_app. cbn [flat_map].
    now rewrite !app_nil_r.
  - right. left. reflexivity.
  - unfold calls. cbn [log rev app]. rewrite !flat_map_app. cbn [flat_map].
    now rewrite !app_nil_r.
  - right. left. reflexivity.
Qed.

Lemma install_dry_run_missing_witness :
  exists s',
    install (Sample.gitcat "install" [] true Sample.cat1)
      (Sample.start Examples.entry1 [] []) = (Ok tt, s')
    /\ calls s' = calls (Sample.start Examples.entry1 [] [])
    /\ In (EvMakedirs "/home/u/Code") (log s')
    /\ world s'
       = {| Sample.cwd := "/home/u/Code"; Sample.dirs := ["/home/u/Code" : str];
            Sample.replies := [] |}.
Proof.
  apply (install_dry_run_missing Sample.World Sample.host
           (Sample.gitcat "install" [] true Sample.cat1)
           (Sample.start Examples.entry1 [] []) "Code/Prog1");
    reflexivity.
Defined.

(** X16.  Nor does the toggle keep [install] from running the tool.  For
    a selected key whose directory exists and holds no [.git], [install]
    under the toggle makes the four calls that initialise a repository,
    [init], [remote add origin <remote>], [fetch origin] and
    [checkout -b master --track origin/master], and no other; it does not
    change into the directory of the key before them.  (The run is one
    without faults: the streams of the four calls decode.) *)
Theorem install_dry_run_existing :
  forall (W : Type) (host : Host W) (self : GitCat) (s : State W) (k : str),
    dry_run self = true ->
    repositories self s = (Ok [k], s) ->
    os_path_exists (expand_path self k) (world s) = true ->
    os_path_exists (os_path_join (expand_path self k) ".git") (world s) = false ->
    exists r s' new,
      Dict.get k (catalogue self) = Some r
      /\ install self s = (Ok tt, s')
      /\ log s' = new ++ log s
      /\ calls s'
         = calls s
           ++ [(k, "init" : str, [] : str);
               (k, "remote add origin " ++ r, [] : str);
               (k, "fetch origin" : str, [] : str);
               (k, "checkout -b master --track origin/master" : str, [] : str)]
      /\ forall path, ~ In (EvChdir path) new.
Proof.
  intros W host self s k Hdry Hr He Hgit.
  destruct (repositories_keys _ _ _ _ Hr) as [_ Hincl].
  destruct (get_keys k (catalogue self) (Hincl k (or_introl eq_refl))) as [r Hk].
  exists r.
  unfold install, bind at 1. rewrite Hr. cbn [for_each].
  unfold catalogue_item. rewrite Hk, Hdry.
  unfold bind, ret, exists_, emit, set_world.
  cbn [world files log fst snd]. rewrite He. cbn [world]. rewrite Hgit.
  repeat (rewrite Git_init_plain; unfold emit, set_world;
          cbn [world files log fst snd];
          match goal with
          | |- context [subprocess_run ?c ?w] =>
              destruct (subprocess_run c w) as [? ?] eqn:?;
              cbn [world log fst snd]
          end).
  cbn [negb]. eexists. eexists. split; [reflexivity|]. split; [reflexivity|].
  split; [cbn [log]; repeat (eapply ext_cons); apply ext_nil|]. split.
  - unfold calls. cbn [log rev app]. rewrite !flat_map_app. cbn [flat_map].
    now rewrite <- !app_assoc.
  - intros path H. cbn [In] in H.
    repeat (destruct H as [H|H]; [discriminate H|]). exact H.
Qed.

Lemma install_dry_run_existing_witness :
  exists r s' new,
    Dict.get "Code/Prog1" Sample.cat1 = Some r
    /\ install (Sample.gitcat "install" [] true Sample.cat1)
         (Sample.start Examples.entry1 [Examples.prog1] []) = (Ok tt, s')
    /\ log s' = new ++ log (Sample.start Examples.entry1 [Examples.prog1] [])
    /\ calls s'
       = calls (Sample.start Examples.entry1 [Examples.prog1] [])
         ++ [("Code/Prog1" : str, "init" : str, [] : str);
             ("Code/Prog1" : str, "remote add origin " ++ r, [] : str);
             ("Code/Prog1" : str, "fetch origin" : str, [] : str);
             ("Code/Prog1" : str,
              "checkout -b master --track origin/master" : str, [] : str)]
    /\ forall path, ~ In (EvChdir path) new.
Proof.
  apply (install_dry_run_existing Sample.World Sample.host
           (Sample.gitcat "install" [] true Sample.cat1)
           (Sample.start Examples.entry1 [Examples.prog1] []) "Code/Prog1");
    reflexivity.
Defined.

(** * Adding to the catalogue *)

Section Adding.

Context {W : Type} {host : Host W} {faults : Faults W}.
Variable settings : Settings.
Implicit Types (self : GitCat) (s : State W).

Lemma NoDup_snoc (k : str) (l : list str) :
  NoDup l -> ~ In k l -> NoDup (l ++ [k]).
Proof.
  intros Hl Hk. apply NoDup_app; [exact Hl|repeat constructor; auto|].
  intros x Hx [<-|[]]. contradiction.
Qed.

Lemma add_outcome self s :
  hasattr (options self) "repositories" = false ->
  NoDup (Dict.keys (catalogue self)) ->
  match add settings self s with
  | (Ok self', s') =>
      exists dire rep,
        ~ In dire (Dict.keys (catalogue self))
        /\ self' = set_catalogue self (catalogue self ++ [(dire, rep)])
        /\ trimmed rep = true
        /\ file_lookup (gitcatrc self) (files s')
           = Some (saved_text settings self')
  | (Raise e, s') =>
      exists new,
        log s' = new ++ log s
        /\ (Forall (fun e => writes_file e = false) new
            \/ ((e = UnicodeDecodeError \/ exists p, e = OSError p)
                /\ exists dire rep,
                     ~ In dire (Dict.keys (catalogue self))
                     /\ trimmed rep = true
                     /\ file_lookup (gitcatrc self) (files s')
                        = Some (saved_text settings
                                  (set_catalogue self
                                     (catalogue self ++ [(dire, rep)])))))
        /\ (faultless faults -> Forall (fun e => writes_file e = false) new)
  end.
Proof.
  intros Hattr Hnd. unfold add, bind at 1.
  pose proof (resolve_directory_state self s) as R.
  destruct (resolve_directory self s) as [[dire|e] s0]; cbn [snd] in R; subst s0;
    [|exists []; split; [reflexivity|]; split; [left|intros _]; constructor].
  unfold is_git_repository, error_message. run;
    try (new_log; split; [left|intros _]; now repeat constructor).
  all: match goal with
       | H : Dict.mem ?d (catalogue ?x) = false |- _ =>
           pose proof H as Hmem; apply mem_not_In in Hmem;
           rewrite (set_new _ _ _ H)
       end.
  all: match goal with
       | |- context [save_catalogue settings ?self1 ?st] =>
           let N := fresh "N" in
           assert (N : NoDup (Dict.keys (catalogue self1)));
           [cbn [catalogue set_catalogue]; rewrite keys_app;
            now apply NoDup_snoc
           |rewrite (save_catalogue_events settings self1 st Hattr N)]
       end.
  all: cbn [gitcatrc set_catalogue]; run.
  all: try (eexists; eexists; split; [exact Hmem|]; split; [reflexivity|];
            split; [apply trimmed_strip|]; apply file_lookup_store).
  all: new_log; split;
    [right; split;
     [first [left; reflexivity|right; eexists; reflexivity]
     |eexists; eexists; split; [exact Hmem|];
      split; [apply trimmed_strip|]; apply file_lookup_store]
    |intros (F1 & F2 & F3 & F4); exfalso;
     repeat match goal with
       | H : context [os_chdir_fails _ _] |- _ => rewrite F3 in H
       | H : context [stdout_invalid _ _] |- _ => rewrite F1 in H
       | H : context [stderr_invalid _ _] |- _ => rewrite F2 in H
       end; discriminate].
Qed.

End Adding.

Section Listing.

Context {W : Type} {host : Host W}.
Implicit Types (self : GitCat) (s : State W).

Lemma is_git_repository_quiet self (dire : str) s :
  exists b s1 new,
    is_git_repository self dire s = (Ok b, s1)
    /\ log s1 = new ++ log s
    /\ Forall (fun e => is_print e = false) new.
Proof.
  unfold is_git_repository. run; eexists; eexists; eexists;
    (split; [reflexivity|]); cbn [log];
    (split; [repeat (eapply ext_cons); apply ext_nil|]); repeat constructor.
Qed.

Lemma listing_lines self (keys : list str) :
  incl keys (Dict.keys (catalogue self)) ->
  forall s, exists lines s1 new,
    for_map keys
      (fun dire =>
         rep <- catalogue_item self dire ;;
         is_git <- is_git_repository self (expand_path self dire) ;;
         ret (list_line self dire (if is_git then "=" else "!") rep)) s
    = (Ok lines, s1)
    /\ Forall2 (fun k line =>
                  exists r, Dict.get k (catalogue self) = Some r
                            /\ (line = list_line self k "=" r
                                \/ line = list_line self k "!" r))
         keys lines
    /\ log s1 = new ++ log s
    /\ Forall (fun e => is_print e = false) new.
Proof.
  induction keys as [|k keys IH]; intros Hincl s.
  - exists [], s, []. repeat split; constructor.
  - destruct (get_keys k (catalogue self) (Hincl k (or_introl eq_refl)))
      as [r Hr].
    destruct (is_git_repository_quiet self (expand_path self k) s)
      as (b & s1 & n1 & E1 & L1 & H1).
    destruct (IH (fun x Hx => Hincl x (or_intror Hx)) s1)
      as (lines & s2 & n2 & E2 & F & L2 & H2).
    exists (list_line self k (if b then "=" else "!") r :: lines), s2, (n2 ++ n1).
    split.
    + cbn [for_map]. unfold bind at 1. cbv beta.
      unfold bind at 1. unfold catalogue_item at 1. rewrite Hr. cbn [ret].
      unfold bind at 1. rewrite E1. cbn [ret].
      unfold bind at 1. now rewrite E2.
    + split.
      * constructor; [|exact F]. exists r. split; [exact Hr|].
        destruct b; [now left|now right].
      * split; [now rewrite L2, L1, app_assoc|]. apply Forall_app. now split.
Qed.

End Listing.



(** The run of the witness does add [Code/Prog2]. *)
Example add_example :
  fst (add (Settings_init Sample.home)
         (Sample.gitcat "add" [("git_directory" : str, VNone)] false Sample.cat1)
         {| world :=
              {| Sample.cwd := Examples.prog2; Sample.dirs := [Examples.prog2];
                 Sample.replies :=
                   [Examples.rev_parse;
                    ("git root" : str,
                     {| returncode := 0; stdout := Examples.prog2;
                        stderr := [] |});
                    ("git remote get-url --push origin" : str,
                     {| returncode := 0; stdout := "git@host:org/prog2.git";
                        stderr := [] |})] |};
            files := [(Sample.rc, Examples.entry1)];
            log := [] |})
  = Ok (Sample.gitcat "add" [("git_directory" : str, VNone)] false
          (Sample.cat1 ++ [("Code/Prog2" : str, "git@host:org/prog2.git" : str)])).
Proof. reflexivity. Qed.

(** X18.  [ls] prints once, and what it prints has one line for each
    selected key, in the order of the catalogue: the key padded to the
    width [max], the marker [=] or [!], and the remote of the key.  The
    probes of the keys print nothing.  (The run is one without faults, so
    that every probe returns.) *)
Theorem ls_listing :
  forall (W : Type) (host : Host W) (self : GitCat) (s : State W)
         (keys : list str),
    repositories self s = (Ok keys, s) ->
    exists lines s' new,
      ls self s = (Ok tt, s')
      /\ Forall2 (fun k line =>
                    exists r, Dict.get k (catalogue self) = Some r
                              /\ (line = list_line self k "=" r
                                  \/ line = list_line self k "!" r))
           keys lines
      /\ log s' = EvPrint (Py.join Py.nl lines ++ Py.nl) :: new ++ log s
      /\ Forall (fun e => is_print e = false) new.
Proof.
  intros W host self s keys Hr.
  destruct (repositories_keys _ _ _ _ Hr) as [_ Hincl].
  destruct (listing_lines self keys Hincl s) as (lines & s1 & new & E & F & L & H).
  exists lines. eexists. exists new.
  split.
  - unfold ls, list_catalogue. unfold bind at 1 2. rewrite Hr.
    unfold bind at 1. cbv iota. rewrite E. reflexivity.
  - split; [exact F|]. split; [|exact H]. cbn [log emit]. now rewrite L.
Qed.

Lemma ls_listing_witness :
  exists lines s' new,
    ls (Sample.gitcat "ls" [] false
          (Sample.cat1 ++ [("Notes" : str, "git@host:org/notes.git" : str)]))
      (Sample.start [] [Examples.prog1] [Examples.rev_parse]) = (Ok tt, s')
    /\ Forall2 (fun k line =>
                  exists r,
                    Dict.get k (Sample.cat1
                                ++ [("Notes" : str,
                                     "git@host:org/notes.git" : str)]) = Some r
                    /\ (line = list_line
                                 (Sample.gitcat "ls" [] false
                                    (Sample.cat1
                                     ++ [("Notes" : str,
                                          "git@host:org/notes.git" : str)]))
                                 k "=" r
                        \/ line = list_line
                                    (Sample.gitcat "ls" [] false
                                       (Sample.cat1
                                        ++ [("Notes" : str,
                                             "git@host:org/notes.git" : str)]))
                                    k "!" r))
         [("Code/Prog1" : str); ("Notes" : str)] lines
    /\ log s' = EvPrint (Py.join Py.nl lines ++ Py.nl)
                :: new ++ log (Sample.start [] [Examples.prog1]
                                 [Examples.rev_parse])
    /\ Forall (fun e => is_print e = false) new.
Proof.
  apply (ls_listing Sample.World Sample.host
           (Sample.gitcat "ls" [] false
              (Sample.cat1 ++ [("Notes" : str, "git@host:org/notes.git" : str)]))
           (Sample.start [] [Examples.prog1] [Examples.rev_parse])).
  reflexivity.
Defined.

(** What the run of the witness prints. *)
Example ls_example :
  printed (snd (ls (Sample.gitcat "ls" [] false
                      (Sample.cat1
                       ++ [("Notes" : str, "git@host:org/notes.git" : str)]))
                  (Sample.start [] [Examples.prog1] [Examples.rev_parse])))
  = ["Code/Prog1  = git@host:org/prog1.git" ++ Py.nl
     ++ "Notes       ! git@host:org/notes.git" ++ Py.nl].
Proof. reflexivity. Qed.

(** X23.  What [add] has saved is what the next invocation loads.  When
    the settings prefix is the home directory and the enlarged catalogue
    can be stored (keys and remotes trimmed, on one line, without the
    separator), reading the catalogue file after a run of [add] that
    returned gives the enlarged catalogue again, the new entry last. *)
Theorem add_then_read_catalogue :
  forall (W : Type) (host : Host W) (faults : Faults W) (settings : Settings)
         (self self' : GitCat) (s s' : State W),
    hasattr (options self) "repositories" = false ->
    NoDup (Dict.keys (catalogue self)) ->
    Py.eqb (settings_prefix settings) (environ_HOME settings) = true ->
    add settings self s = (Ok self', s') ->
    storable (catalogue self') = true ->
    exists m dire rep,
      read_catalogue self' s' = (Ok (set_max self' m), s')
      /\ catalogue self' = catalogue self ++ [(dire, rep)].
Proof.
  intros W host faults settings self self' s s' Hattr Hnd Hhome Hadd Hst.
  pose proof (add_outcome settings self s Hattr Hnd) as H.
  rewrite Hadd in H. destruct H as (dire & rep & Hnew & -> & _ & Hfile).
  assert (Hs : settings_entries settings = []).
  { unfold settings_entries. now rewrite Hhome. }
  destruct (read_saved settings
              (set_catalogue self (catalogue self ++ [(dire, rep)])) s')
    as (m & R); auto.
  - unfold storable_settings. now rewrite Hhome.
  - rewrite Hs. cbn [app catalogue set_catalogue]. rewrite keys_app.
    now apply NoDup_snoc.
  - exists m, dire, rep. split; [|reflexivity].
    rewrite R, Hs. cbn [app]. now rewrite set_catalogue_same.
Qed.

Lemma add_then_read_catalogue_witness :
  exists m dire rep,
    read_catalogue
      (Sample.gitcat "add" [("git_directory" : str, VNone)] false
         (Sample.cat1 ++ [("Code/Prog2" : str, "git@host:org/prog2.git" : str)]))
      (snd (add (Settings_init Sample.home)
              (Sample.gitcat "add" [("git_directory" : str, VNone)] false
                 Sample.cat1)
              {| world :=
                   {| Sample.cwd := Examples.prog2;
                      Sample.dirs := [Examples.prog2];
                      Sample.replies :=
                        [Examples.rev_parse;
                         ("git root" : str,
                          {| returncode := 0; stdout := Examples.prog2;
                             stderr := [] |});
                         ("git remote get-url --push origin" : str,
                          {| returncode := 0;
                             stdout := "git@host:org/prog2.git";
                             stderr := [] |})] |};
                 files := [(Sample.rc, Examples.entry1)];
                 log := [] |}))
    = (Ok (set_max
             (Sample.gitcat "add" [("git_directory" : str, VNone)] false
                (Sample.cat1
                 ++ [("Code/Prog2" : str, "git@host:org/prog2.git" : str)]))
             m),
       snd (add (Settings_init Sample.home)
              (Sample.gitcat "add" [("git_directory" : str, VNone)] false
                 Sample.cat1)
              {| world :=
                   {| Sample.cwd := Examples.prog2;
                      Sample.dirs := [Examples.prog2];
                      Sample.replies :=
                        [Examples.rev_parse;
                         ("git root" : str,
                          {| returncode := 0; stdout := Examples.prog2;
                             stderr := [] |});
                         ("git remote get-url --push origin" : str,
                          {| returncode := 0;
                             stdout := "git@host:org/prog2.git";
                             stderr := [] |})] |};
                 files := [(Sample.rc, Examples.entry1)];
                 log := [] |}))
    /\ Sample.cat1 ++ [("Code/Prog2" : str, "git@host:org/prog2.git" : str)]
       = Sample.cat1 ++ [(dire, rep)].
Proof.
  apply (add_then_read_catalogue Sample.World Sample.host
           (no_faults Sample.World)
           (Settings_init Sample.home)
           (Sample.gitcat "add" [("git_directory" : str, VNone)] false
              Sample.cat1)
           (Sample.gitcat "add" [("git_directory" : str, VNone)] false
              (Sample.cat1
               ++ [("Code/Prog2" : str, "git@host:org/prog2.git" : str)]))
           {| world :=
                {| Sample.cwd := Examples.prog2;
                   Sample.dirs := [Examples.prog2];
                   Sample.replies :=
                     [Examples.rev_parse;
                      ("git root" : str,
                       {| returncode := 0; stdout := Examples.prog2;
                          stderr := [] |});
                      ("git remote get-url --push origin" : str,
                       {| returncode := 0;
                          stdout := "git@host:org/prog2.git";
                          stderr := [] |})] |};
              files := [(Sample.rc, Examples.entry1)];
              log := [] |}).
  - reflexivity.
  - repeat constructor. intros [].
  - reflexivity.
  - vm_compute. reflexivity.
  - vm_compute. reflexivity.
Defined.

(** * The settings file *)

Lemma get_set_same (k v : str) (d : Dict.t) :
  Dict.get k (Dict.set k v d) = Some v.
Proof.
  induction d as [|[k' v'] d IH]; simpl.
  - now rewrite eqb_refl.
  - destruct (Py.eqb k k') eqn:E; simpl; now rewrite E.
Qed.

Lemma get_set_other (k k' v : str) (d : Dict.t) :
  k' <> k -> Dict.get k' (Dict.set k v d) = Dict.get k' d.
Proof.
  intros Hk. apply eqb_neq in Hk.
  induction d as [|[k0 v0] d IH]; simpl.
  - now rewrite Hk.
  - destruct (Py.eqb k k0) eqn:E; simpl.
    + apply eqb_eq in E. subst. now rewrite Hk.
    + now rewrite IH.
Qed.

Lemma keys_set (k v : str) (d : Dict.t) (x : str) :
  In x (Dict.keys (Dict.set k v d)) -> x = k \/ In x (Dict.keys d).
Proof.
  induction d as [|[k' v'] d IH]; simpl.
  - intros [<-|[]]. now left.
  - destruct (Py.eqb k k') eqn:E; simpl.
    + tauto.
    + intros [H|H]; [tauto|]. destruct (IH H); tauto.
Qed.

(** What one line of the settings file does to the attributes. *)
Lemma read_init_line_Ok (st st' : IniSettings) (line : str) :
  read_init_line st line = Ok st' ->
  exists k v,
    Py.split "=" line = [k; v]
    /\ (attributes st' = attributes st
        /\ (Py.strip k = [] \/ Py.contains "." (Py.strip k) = true)
        \/ attributes st'
           = Dict.set ("_" ++ lower (Py.strip k)) (Py.strip v) (attributes st)
           /\ Py.strip k <> [] /\ Py.contains "." (Py.strip k) = false).
Proof.
  unfold read_init_line.
  destruct (Py.split "=" line) as [|k [|v [|x l]]]; try discriminate.
  cbn [map]. intros H. exists k, v. split; [reflexivity|].
  destruct (Py.eqb (Py.strip k) []) eqn:Ek; cbn [negb] in H.
  - injection H as <-. left. split; [reflexivity|]. left. now apply eqb_eq.
  - apply eqb_neq in Ek.
    destruct (Py.contains "." (Py.strip k)) eqn:Ec.
    + left. split; [|now right].
      destruct (Py.split "." (Py.strip k)) as [|c [|o [|y l']]]; try discriminate.
      destruct (defaults_get c _); [|discriminate]. now injection H as <-.
    + right. unfold setattr in H.
      destruct (_ || _); [discriminate|].
      destruct (Py.eqb _ "__weakref__"); [discriminate|].
      injection H as <-. now repeat split.
Qed.

Lemma ini_key_split (line k v : str) :
  Py.split "=" line = [k; v] -> ini_key line = Some (Py.strip k).
Proof. unfold ini_key. now intros ->. Qed.

Lemma read_init_lines_app (a b : list str) : forall (st : IniSettings),
  read_init_lines (a ++ b) st
  = match read_init_lines a st with
    | Ok st1 => read_init_lines b st1
    | Raise e => Raise e
    end.
Proof.
  induction a as [|x a IH]; intros st; [reflexivity|].
  cbn [app read_init_lines]. destruct (read_init_line st x); [apply IH|reflexivity].
Qed.

(** X19.  The settings file is read strictly: the load returns only when
    every line of the file, blank lines and comments included, holds the
    sign [=] exactly once.  A file with one line of another shape makes
    [read_init_file] raise, and with it the start of the program. *)
Theorem read_init_file_strict :
  forall (text : str) (st st' : IniSettings),
    read_init_file text st = Ok st' ->
    Forall (fun line => exists k v, Py.split "=" line = [k; v])
      (Py.readlines text).
Proof.
  intros text st st'. unfold read_init_file.
  generalize (Py.readlines text) as lines. intros lines. revert st.
  induction lines as [|line lines IH]; intros st H; [constructor|].
  cbn [read_init_lines] in H.
  destruct (read_init_line st line) as [st1|e] eqn:E; [|discriminate].
  constructor; [|now apply (IH st1)].
  destruct (read_init_line_Ok _ _ _ E) as (k & v & S & _). now exists k, v.
Qed.

Lemma read_init_file_strict_witness :
  Forall (fun line => exists k v, Py.split "=" line = [k; v])
    (Py.readlines ("Version = 1.2" ++ Py.nl ++ "pull.rebase = true" ++ Py.nl)).
Proof.
  apply (read_init_file_strict
           ("Version = 1.2" ++ Py.nl ++ "pull.rebase = true" ++ Py.nl)
           IniSettings_init
           {| git_defaults := [("pull" : str, [("rebase" : str, "true" : str)])];
              attributes := [("_version" : str, "1.2" : str)] |}).
  reflexivity.
Defined.

(** A blank line, for one, stops the load. *)
Example read_init_file_blank_line :
  read_init_file ("version = 1.2" ++ Py.nl ++ Py.nl) IniSettings_init
  = Raise (ValueError "not enough values to unpack (expected 2, got 1)").
Proof. reflexivity. Qed.

(** X20.  The attributes that the settings file sets all carry a name
    made of an underscore and the key of a line in lower case: whatever
    the file holds, it cannot set [prefix], [quiet], [dry_run] or
    [rc_file], nor any attribute without the underscore in front. *)
Theorem read_init_file_attributes :
  forall (text : str) (st st' : IniSettings) (name : str),
    read_init_file text st = Ok st' ->
    In name (Dict.keys (attributes st')) ->
    In name (Dict.keys (attributes st))
    \/ exists line k,
         In line (Py.readlines text)
         /\ ini_key line = Some k
         /\ name = "_" ++ lower k.
Proof.
  intros text st st' name. unfold read_init_file.
  generalize (Py.readlines text) as lines. intros lines. revert st.
  induction lines as [|line lines IH]; intros st H Hin.
  - injection H as <-. now left.
  - cbn [read_init_lines] in H.
    destruct (read_init_line st line) as [st1|e] eqn:E; [|discriminate].
    destruct (IH st1 H Hin) as [Hold|(l & k & Hl & Hk & ->)].
    + destruct (read_init_line_Ok _ _ _ E) as (k & v & S & [[A _]|[A _]]).
      * left. now rewrite <- A.
      * rewrite A in Hold. apply keys_set in Hold as [->|Hold]; [|now left].
        right. exists line, (Py.strip k). split; [now left|].
        split; [now apply (ini_key_split line k v)|reflexivity].
    + right. exists l, k. split; [now right|]. now split.
Qed.

Lemma read_init_file_attributes_witness :
  In ("_version" : str) (Dict.keys (attributes IniSettings_init))
  \/ exists line k,
       In line (Py.readlines ("Version = 1.2" ++ Py.nl))
       /\ ini_key line = Some k
       /\ ("_version" : str) = "_" ++ lower k.
Proof.
  apply (read_init_file_attributes ("Version = 1.2" ++ Py.nl) IniSettings_init
           {| git_defaults := [];
              attributes := [("_version" : str, "1.2" : str)] |} "_version").
  - reflexivity.
  - left. reflexivity.
Defined.

Lemma lower_no_dot (k : str) :
  Py.contains "." k = true -> In "."%char (lower k).
Proof.
  intros H. apply (contains_In [] "."%char [] k) in H.
  change "."%char with (lower_char "."%char). unfold lower. now apply in_map.
Qed.

Lemma attribute_kept (st st' : IniSettings) (line name : str) :
  read_init_line st line = Ok st' ->
  (forall k, ini_key line = Some k -> "_" ++ lower k <> name) ->
  Dict.get name (attributes st') = Dict.get name (attributes st).
Proof.
  intros E H. destruct (read_init_line_Ok _ _ _ E) as (k & v & S & [[A _]|[A _]]).
  - now rewrite A.
  - rewrite A. apply get_set_other. intros Heq.
    apply (H (Py.strip k)); [now apply (ini_key_split line k v)|now symmetry].
Qed.

Lemma attributes_kept (lines : list str) (name : str) : forall (st st' : IniSettings),
  read_init_lines lines st = Ok st' ->
  Forall (fun l => forall k, ini_key l = Some k -> "_" ++ lower k <> name) lines ->
  Dict.get name (attributes st') = Dict.get name (attributes st).
Proof.
  induction lines as [|line lines IH]; intros st st' E H.
  - now injection E as <-.
  - cbn [read_init_lines] in E. inversion H as [|? ? Hl Hls]; subst.
    destruct (read_init_line st line) as [st1|e] eqn:E1; [|discriminate].
    rewrite (IH st1 st' E Hls). now apply (attribute_kept _ _ line).
Qed.

(** X21.  The version that the program shows is the value of the last
    line of the settings file whose key reads [version], in whatever
    case, trimmed: after a load that returns, [version] gives
    [git cat version <value>]. *)
Theorem version_of_settings_file :
  forall (text : str) (st st' : IniSettings) (pre post : list str)
         (line k v : str),
    read_init_file text st = Ok st' ->
    Py.readlines text = pre ++ line :: post ->
    Py.split "=" line = [k; v] ->
    lower (Py.strip k) = "version" ->
    Forall (fun l => forall k', ini_key l = Some k' ->
                                lower k' <> "version") post ->
    version st' = Ok ("git cat version " ++ Py.strip v).
Proof.
  intros text st st' pre post line k v H R S Hk Hpost.
  unfold read_init_file in H. rewrite R in H.
  rewrite read_init_lines_app in H.
  destruct (read_init_lines pre st) as [st1|e]; [|discriminate].
  cbn [read_init_lines] in H.
  destruct (read_init_line st1 line) as [st2|e] eqn:E; [|discriminate].
  assert (G : Dict.get "_version" (attributes st2) = Some (Py.strip v)).
  { destruct (read_init_line_Ok _ _ _ E) as (k0 & v0 & S0 & A).
    rewrite S in S0. injection S0 as <- <-.
    destruct A as [[_ [A|A]]|[A _]].
    - rewrite A in Hk. discriminate.
    - apply lower_no_dot in A. rewrite Hk in A. cbn in A.
      repeat (destruct A as [A|A]; [discriminate|]). contradiction.
    - rewrite A, Hk. apply get_set_same. }
  unfold version. rewrite (attributes_kept post "_version" st2 st' H), G;
    [reflexivity|].
  eapply Forall_impl; [|exact Hpost]. intros l Hl k' Hk' Heq.
  apply (Hl k' Hk'). now injection Heq.
Qed.

Lemma version_of_settings_file_witness :
  version {| git_defaults := [("pull" : str, [("rebase" : str, "true" : str)])];
             attributes := [("_version" : str, "1.2" : str)] |}
  = Ok ("git cat version " ++ Py.strip (" 1.2" ++ Py.nl)).
Proof.
  apply (version_of_settings_file
           ("Version = 1.2" ++ Py.nl ++ "pull.rebase = true" ++ Py.nl)
           IniSettings_init
           {| git_defaults := [("pull" : str, [("rebase" : str, "true" : str)])];
              attributes := [("_version" : str, "1.2" : str)] |}
           [] ["pull.rebase = true" ++ Py.nl] ("Version = 1.2" ++ Py.nl)
           "Version " (" 1.2" ++ Py.nl)).
  - reflexivity.
  - reflexivity.
  - reflexivity.
  - reflexivity.
  - repeat constructor. intros k' Hk'. injection Hk' as <-. discriminate.
Defined.

(** * Where nothing is installed *)

Section Absent.

Context {W : Type} {host : Host W} {faults : Faults W}.
Implicit Types (self : GitCat) (s : State W).

Lemma printed_emit (e : Event) s :
  printed (emit e s)
  = printed s ++ match e with EvPrint text => [text] | _ => [] end.
Proof.
  unfold printed. cbn [emit log rev]. rewrite flat_map_app. cbn [flat_map].
  now rewrite app_nil_r.
Qed.

Lemma calls_emit (e : Event) s :
  calls (emit e s)
  = calls s ++ match e with
               | EvGit rep command options _ => [(rep, command, options)]
               | _ => []
               end.
Proof.
  unfold calls. cbn [emit log rev]. rewrite flat_map_app. cbn [flat_map].
  now rewrite app_nil_r.
Qed.

(** A loop whose body, for a key that is not a directory, probes the key
    and prints one line. *)
Lemma loop_absent self (msg : str) (body : str -> M (State W) unit) :
  (forall k s,
      os_path_isdir (expand_path self k) (world s) = false ->
      body k s
      = (Ok tt,
         emit (EvPrint ((Py.ljust (max self) k ++ " " ++ msg) ++ Py.nl))
           (emit (EvIsDir (expand_path self k) false) s))) ->
  forall (keys : list str) s,
    (forall k, In k keys ->
               os_path_isdir (expand_path self k) (world s) = false) ->
    exists s',
      for_each keys body s = (Ok tt, s')
      /\ printed s'
         = printed s
           ++ map (fun k => (Py.ljust (max self) k ++ " " ++ msg) ++ Py.nl) keys
      /\ calls s' = calls s
      /\ world s' = world s.
Proof.
  intros Hbody. induction keys as [|k keys IH]; intros s Hkeys.
  - exists s. repeat split. now rewrite app_nil_r.
  - destruct (IH (emit (EvPrint ((Py.ljust (max self) k ++ " " ++ msg) ++ Py.nl))
                    (emit (EvIsDir (expand_path self k) false) s)))
      as (s' & E & P & C & Wd).
    { intros x Hx. cbn [emit world]. apply Hkeys. now right. }
    exists s'. cbn [for_each]. unfold bind.
    rewrite (Hbody k s (Hkeys k (or_introl eq_refl))), E.
    split; [reflexivity|]. split; [|split].
    + rewrite P, !printed_emit, app_nil_r. cbn [map]. now rewrite <- app_assoc.
    + now rewrite C, !calls_emit, !app_nil_r.
    + exact Wd.
Qed.

End Absent.

(** X24.  Where none of the selected keys is a directory, [branch],
    [fetch], [push] and [status] print the line [<key> not on system]
    for each selected key, and [pull] the line [<key> repository not
    installed], the keys padded to the width [max] and in the order of
    the catalogue; they print nothing else, call the tool not once and
    leave the world as it was.  No fault can end such a run: it neither
    changes directory nor runs the tool. *)
Theorem not_on_system :
  forall (W : Type) (host : Host W) (faults : Faults W) (self : GitCat)
         (s : State W) (keys : list str)
         (command : GitCat -> M (State W) unit) (msg : str),
    In (command, msg)
      [(branch, "not on system" : str); (fetch, "not on system" : str);
       (pull, "repository not installed" : str);
       (push, "not on system" : str); (status, "not on system" : str)] ->
    quiet self = false ->
    repositories self s = (Ok keys, s) ->
    (forall k, In k keys ->
               os_path_isdir (expand_path self k) (world s) = false) ->
    exists s',
      command self s = (Ok tt, s')
      /\ printed s'
         = printed s
           ++ map (fun k => (Py.ljust (max self) k ++ " " ++ msg) ++ Py.nl) keys
      /\ calls s' = calls s
      /\ world s' = world s.
Proof.
  intros W host faults self s keys command msg Hin Hq Hr Hkeys.
  assert (B : forall k s1 (rest : bool -> M (State W) unit),
             os_path_isdir (expand_path self k) (world s1) = false ->
             rest false = rep_message self k msg true None ->
             (is_git <- is_git_repository self (expand_path self k) ;;
              rest is_git) s1
             = (Ok tt,
                emit (EvPrint ((Py.ljust (max self) k ++ " " ++ msg) ++ Py.nl))
                  (emit (EvIsDir (expand_path self k) false) s1))).
  { intros k s1 rest Hd Hrest. unfold is_git_repository, bind, isdir, ret.
    rewrite Hd, Hrest. unfold rep_message, print. now rewrite Hq. }
  cbn [In] in Hin.
  destruct Hin as [Hc|[Hc|[Hc|[Hc|[Hc|[]]]]]]; injection Hc as <- <-;
    [unfold branch|unfold fetch|unfold pull|unfold push|unfold status];
    unfold bind at 1; rewrite Hr;
    apply loop_absent; try exact Hkeys;
    intros k s1 Hd;
    match goal with
    | |- bind _ ?rest _ = _ => apply (B k s1 rest Hd); reflexivity
    end.
Qed.

Lemma not_on_system_witness :
  exists s',
    pull (Sample.gitcat "pull" [] false
            (Sample.cat1 ++ [("Notes" : str, "git@host:org/notes.git" : str)]))
      (Sample.start [] [] []) = (Ok tt, s')
    /\ printed s'
       = printed (Sample.start [] [] [])
         ++ map (fun k => (Py.ljust 11 k ++ " " ++ "repository not installed")
                          ++ Py.nl)
             [("Code/Prog1" : str); ("Notes" : str)]
    /\ calls s' = calls (Sample.start [] [] [])
    /\ world s' = world (Sample.start [] [] []).
Proof.
  apply (not_on_system Sample.World Sample.host
           (no_faults Sample.World)
           (Sample.gitcat "pull" [] false
              (Sample.cat1 ++ [("Notes" : str, "git@host:org/notes.git" : str)]))
           (Sample.start [] [] []) [("Code/Prog1" : str); ("Notes" : str)]
           pull "repository not installed").
  - right. right. left. reflexivity.
  - reflexivity.
  - reflexivity.
  - intros k _. reflexivity.
Defined.

(** * Which calls a command makes, and in which order it visits the keys *)


Section Calls.

Context {W : Type} {host : Host W} {faults : Faults W}.
Implicit Types (self : GitCat) (s : State W).








End Calls.





Section Order.

Context {W : Type} {host : Host W} {faults : Faults W}.
Implicit Types (self : GitCat) (s : State W).








End Order.



(** The same run when the bytes on [stderr] of the failing [fetch] do not
    decode: the run ends at the first key, and the second is not asked
    about. *)
Example keys_probed_until_fault :
  probes (log (snd (fetch (faults := Examples.garbled_fetch)
                      (Sample.gitcat "fetch" [] false
                         (Sample.cat1
                          ++ [("Code/Prog2" : str,
                               "git@host:org/prog2.git" : str)]))
                      (Sample.start (Examples.entry1 ++ Examples.entry2)
                         [Examples.prog1; Examples.prog2]
                         [Examples.rev_parse; Examples.fetch_fails]))))
  = [Examples.prog1].
Proof. reflexivity. Qed.
